(** * The calculator agent: natural-language front end, unit conversion,
      history ledger and histogram binning

    A shallow embedding of [CalculatorAgent] (the extended version, with unit
    conversion, graphing and memory) and the properties of its specification.

    Conventions of the embedding.

    - Strings are [string]s of 7-bit characters.  The two non-ASCII members
      of the source's character classes (the root sign and the letter pi) and
      the non-ASCII unit keys (degree sign, superscript two) cannot occur in
      such a text; the unit keys are kept in the tables, written in UTF-8.
    - A JavaScript Number is a value of a type [num] with an [Arith]
      structure: the four operations, the comparisons and the reading of a
      decimal literal.  Two structures are given: IEEE 754 binary64
      ([binary64] on [float], what the interpreter computes with: the
      statements about conversions there and back and about the bins of a
      histogram are made in it, a double being read as the real number it
      stands for) and exact rationals ([rational] on [Q]).
    - What the agent obtains from its libraries and from the system (the
      expression evaluator, the statistics and degree functions, number
      printing, the file system, the clock) is a [Host]; every statement
      holds for every host.
    - [throw] is a value: code that can throw returns a [result], and
      [calculate], which catches everything, returns a payload.
    - Requests are served one at a time: [calculate] takes the agent a
      request finds and returns the agent it leaves; what it prints is not
      modelled. *)

From Stdlib Require Import Bool Arith List String Ascii ZArith QArith Lia Lqa.
From Stdlib Require Import Reals.
From Stdlib Require Lra.
From Stdlib Require Import Floats.
Import ListNotations.

Set Implicit Arguments.
Set Warnings "-register-all".

Local Open Scope list_scope.
Local Open Scope string_scope.

(** ** Characters and strings *)

Module Str.

Definition code (c : ascii) : nat := nat_of_ascii c.

Definition between (lo hi : nat) (c : ascii) : bool :=
  ((lo <=? code c) && (code c <=? hi))%nat.

Definition isDigit : ascii -> bool := between 48 57.
Definition isUpper : ascii -> bool := between 65 90.
Definition isLower : ascii -> bool := between 97 122.
Definition isLetter (c : ascii) : bool := isUpper c || isLower c.

(** [\w]: letters, digits and the underscore. *)
Definition isWord (c : ascii) : bool :=
  isLetter c || isDigit c || (code c =? 95)%nat.

(** [\s], on 7-bit characters: tab, line feed, vertical tab, form feed,
    carriage return and the space. *)
Definition isSpace (c : ascii) : bool :=
  between 9 13 c || (code c =? 32)%nat.

Definition lowerChar (c : ascii) : ascii :=
  if isUpper c then ascii_of_nat (code c + 32) else c.

Fixpoint map (f : ascii -> ascii) (s : string) : string :=
  match s with
  | EmptyString => EmptyString
  | String c s' => String (f c) (map f s')
  end.

Fixpoint filter (p : ascii -> bool) (s : string) : string :=
  match s with
  | EmptyString => EmptyString
  | String c s' => if p c then String c (filter p s') else filter p s'
  end.

Fixpoint existsb (p : ascii -> bool) (s : string) : bool :=
  match s with
  | EmptyString => false
  | String c s' => p c || existsb p s'
  end.

Fixpoint forallb (p : ascii -> bool) (s : string) : bool :=
  match s with
  | EmptyString => true
  | String c s' => p c && forallb p s'
  end.

Definition isEmpty (s : string) : bool :=
  match s with EmptyString => true | _ => false end.

(** [String.prototype.toLowerCase]. *)
Definition toLowerCase : string -> string := map lowerChar.

Fixpoint trimStart (s : string) : string :=
  match s with
  | EmptyString => EmptyString
  | String c s' => if isSpace c then trimStart s' else s
  end.

Fixpoint trimEnd (s : string) : string :=
  match s with
  | EmptyString => EmptyString
  | String c s' =>
      let r := trimEnd s' in
      if isSpace c && isEmpty r then EmptyString else String c r
  end.

(** [String.prototype.trim]. *)
Definition trim (s : string) : string := trimEnd (trimStart s).

(** [prefix k s]: [s] starts with [k]. *)
Fixpoint prefix (k s : string) : bool :=
  match k, s with
  | EmptyString, _ => true
  | String a k', String b s' => Ascii.eqb a b && prefix k' s'
  | String _ _, EmptyString => false
  end.

(** [String.prototype.includes]. *)
Fixpoint includes (s k : string) : bool :=
  prefix k s ||
  match s with
  | EmptyString => false
  | String _ s' => includes s' k
  end.

Fixpoint drop (n : nat) (s : string) : string :=
  match n, s with
  | O, _ => s
  | S n', String _ s' => drop n' s'
  | S _, EmptyString => EmptyString
  end.

(** [Array.prototype.join]. *)
Fixpoint join (sep : string) (l : list string) : string :=
  match l with
  | [] => EmptyString
  | [x] => x
  | x :: rest => x ++ sep ++ join sep rest
  end.

(** Decimal digits of a natural number, as [String] prints an integer. *)
Fixpoint digitsFuel (fuel n : nat) (acc : string) : string :=
  match fuel with
  | O => acc
  | S fuel' =>
      let acc' := String (ascii_of_nat (48 + n mod 10)) acc in
      if (n / 10 =? 0)%nat then acc' else digitsFuel fuel' (n / 10) acc'
  end.

Definition ofNat (n : nat) : string := digitsFuel (S n) n EmptyString.

End Str.

(** ** Results of code that can throw *)

Inductive result (A : Type) : Type :=
| Ok (a : A)
| Throw (message : string).

Arguments Ok {A} a.
Arguments Throw {A} message.

Definition bind {A B : Type} (r : result A) (k : A -> result B) : result B :=
  match r with
  | Ok a => k a
  | Throw m => Throw m
  end.

Declare Scope result_scope.
Delimit Scope result_scope with result.
Notation "x <- r ;; k" := (bind r (fun x => k))
  (at level 61, r at next level, right associativity) : result_scope.

(** ** Numbers *)

Class Arith (num : Type) : Type := {
  (** the Number a decimal literal [m * 10^-k] denotes *)
  ofDecimal : Z -> nat -> num;
  nadd : num -> num -> num;
  nsub : num -> num -> num;
  nmul : num -> num -> num;
  ndiv : num -> num -> num;
  (** [<] and [<=] *)
  nltb : num -> num -> bool;
  nleb : num -> num -> bool;
  (** the global [isFinite] on a Number *)
  nisFinite : num -> bool
}.

Declare Scope num_scope.
Delimit Scope num_scope with num.
Infix "+" := nadd : num_scope.
Infix "-" := nsub : num_scope.
Infix "*" := nmul : num_scope.
Infix "/" := ndiv : num_scope.
Infix "<?" := nltb : num_scope.
Infix "<=?" := nleb : num_scope.

(** An integer literal. *)
Definition int {num} `{Arith num} (z : Z) : num := ofDecimal z 0.

(** Exact rational arithmetic. *)
Definition rational : Arith Q := {|
  ofDecimal m k := Qmake m (Z.to_pos (10 ^ Z.of_nat k));
  nadd := Qplus;
  nsub := Qminus;
  nmul := Qmult;
  ndiv := Qdiv;
  nltb x y := negb (Qle_bool y x);
  nleb := Qle_bool;
  nisFinite _ := true
|}.

(** IEEE 754 binary64, round to nearest even: the arithmetic of the
    interpreter.  A decimal literal is read with one rounding of its exact
    value: the quotient is taken with 64 extra bits and a sticky bit, then
    rounded by [binary_normalize]. *)
Definition floatOfDecimal (m : Z) (k : nat) : float :=
  let d := (10 ^ Z.of_nat k)%Z in
  let s := (64 + Z.log2_up d)%Z in
  let a := Z.shiftl (Z.abs m) s in
  let sticky := if (a mod d =? 0)%Z then 0%Z else 1%Z in
  let q := (2 * (a / d) + sticky)%Z in
  SF2Prim (SpecFloat.binary_normalize prec emax
             (if (m <? 0)%Z then (- q)%Z else q) (- (s + 1))%Z false).

Definition binary64 : Arith float := {|
  ofDecimal := floatOfDecimal;
  nadd := PrimFloat.add;
  nsub := PrimFloat.sub;
  nmul := PrimFloat.mul;
  ndiv := PrimFloat.div;
  nltb := PrimFloat.ltb;
  nleb := PrimFloat.leb;
  nisFinite := PrimFloat.is_finite
|}.

Section Agent.

Context {num : Type} {arith : Arith num}.

Local Open Scope num_scope.

Definition ofNat (n : nat) : num := int (Z.of_nat n).

(** A Number is falsy when it is zero (or not a number: no comparison
    holds). *)
Definition falsy (f : num) : bool := negb ((f <? int 0) || (int 0 <? f)).

(** ** Values and objects *)

Inductive jsval : Type :=
| JUndefined
| JNull
| JBool (b : bool)
| JNum (n : num)
| JStr (s : string)
| JArr (items : list jsval)
| JObj (fields : list (string * jsval))
| JOpaque (description : string).

(** An object literal: its own keys, in insertion order. *)
Definition object : Type := list (string * jsval).

Fixpoint lookup {A : Type} (k : string) (o : list (string * A)) : option A :=
  match o with
  | [] => None
  | (k', v) :: rest => if String.eqb k k' then Some v else lookup k rest
  end.

Definition keys {A : Type} (o : list (string * A)) : list string :=
  List.map fst o.

(** ** The host: libraries and system *)

(** The series handed to [createPlot]. *)
Inductive PlotData : Type :=
| FunctionSeries (x : list num) (y : list jsval) (name : string)
| ScatterSeries (x y : list num)
| HistogramSeries (labels : list string) (counts : list nat).

(** Each service is a function of its arguments: an expression has one
    value (no [random()]), a file one path. *)
Class Host : Type := {
  (** [String(n)], also the text of [n] in a template literal *)
  numberToString : num -> string;
  (** [n.toFixed(digits)] *)
  toFixed : nat -> num -> string;
  (** [math.compile(e)] returns *)
  mathCompile : string -> bool;
  (** [math.evaluate(e)] *)
  mathEvaluate : string -> result jsval;
  (** [math.mean], [math.median], [math.std], [math.sum], by name *)
  mathStatistic : string -> list num -> result num;
  (** [math.sin(math.unit(angle, 'deg'))] and the like, by name; the angle
      is [undefined] when the text holds no number *)
  mathDegrees : string -> option num -> result num;
  (** the global [isFinite] on a value that is not a Number *)
  isFiniteCoerced : jsval -> bool;
  (** the groups 1 to 3 of the pattern of [parseFunctionPlot] on a text *)
  matchFunctionPlot : string -> option (string * option string * option string);
  (** the body of [createPlot]: make the directory, render the page, write
      the file [filename]; the path written *)
  writePlot : PlotData -> string -> result string
}.

Context {host : Host}.

(** The clock, read once per request. *)
Record World : Type := {
  isoTimestamp : string;   (** [new Date().toISOString()] *)
  dateNow : nat            (** [Date.now()] *)
}.

(** ** The constructor's tables *)

Definition agentName : string := "AI Calculator Agent".

Definition mathKeywords : list (string * string) :=
  [ ("add", "+"); ("plus", "+"); ("addition", "+"); ("sum", "+");
    ("subtract", "-"); ("minus", "-"); ("subtraction", "-"); ("difference", "-");
    ("multiply", "*"); ("times", "*"); ("multiplication", "*"); ("product", "*");
    ("divide", "/"); ("division", "/"); ("quotient", "/");
    ("power", "^"); ("exponent", "^"); ("exponentiation", "^");
    ("sqrt", "sqrt"); ("square root", "sqrt");
    ("log", "log"); ("logarithm", "log");
    ("sin", "sin"); ("cos", "cos"); ("tan", "tan");
    ("pi", "pi"); ("e", "e") ].

Definition statsKeywords : list (string * string) :=
  [ ("mean", "mean"); ("average", "mean"); ("avg", "mean");
    ("median", "median"); ("mode", "mode");
    ("standard deviation", "std"); ("variance", "var");
    ("sum", "sum"); ("count", "count") ].

Definition dec (m : Z) (k : nat) : jsval := JNum (ofDecimal m k).

Definition unitConversions : list (string * object) :=
  [ ("length",
      [ ("mm", dec 1 3); ("millimeter", dec 1 3); ("millimeters", dec 1 3);
        ("cm", dec 1 2); ("centimeter", dec 1 2); ("centimeters", dec 1 2);
        ("m", dec 1 0); ("meter", dec 1 0); ("meters", dec 1 0);
        ("km", dec 1000 0); ("kilometer", dec 1000 0); ("kilometers", dec 1000 0);
        ("in", dec 254 4); ("inch", dec 254 4); ("inches", dec 254 4);
        ("ft", dec 3048 4); ("foot", dec 3048 4); ("feet", dec 3048 4);
        ("yd", dec 9144 4); ("yard", dec 9144 4); ("yards", dec 9144 4);
        ("mi", dec 1609344 3); ("mile", dec 1609344 3); ("miles", dec 1609344 3) ]);
    ("weight",
      [ ("mg", dec 1 3); ("milligram", dec 1 3); ("milligrams", dec 1 3);
        ("g", dec 1 0); ("gram", dec 1 0); ("grams", dec 1 0);
        ("kg", dec 1000 0); ("kilogram", dec 1000 0); ("kilograms", dec 1000 0);
        ("oz", dec 283495 4); ("ounce", dec 283495 4); ("ounces", dec 283495 4);
        ("lb", dec 453592 3); ("pound", dec 453592 3); ("pounds", dec 453592 3);
        ("ton", dec 1000000 0); ("metric ton", dec 1000000 0);
        ("tonne", dec 1000000 0) ]);
    ("temperature",
      [ ("c", JStr "celsius"); ("celsius", JStr "celsius"); ("°c", JStr "celsius");
        ("f", JStr "fahrenheit"); ("fahrenheit", JStr "fahrenheit");
        ("°f", JStr "fahrenheit");
        ("k", JStr "kelvin"); ("kelvin", JStr "kelvin") ]);
    ("area",
      [ ("mm²", dec 1 6); ("cm²", dec 1 4); ("m²", dec 1 0);
        ("km²", dec 1000000 0);
        ("in²", dec 64516 8); ("ft²", dec 92903 6); ("yd²", dec 836127 6);
        ("acre", dec 404686 2); ("hectare", dec 10000 0) ]);
    ("volume",
      [ ("ml", dec 1 3); ("milliliter", dec 1 3); ("milliliters", dec 1 3);
        ("l", dec 1 0); ("liter", dec 1 0); ("liters", dec 1 0);
        ("gal", dec 378541 5); ("gallon", dec 378541 5); ("gallons", dec 378541 5);
        ("qt", dec 946353 6); ("quart", dec 946353 6); ("quarts", dec 946353 6);
        ("pt", dec 473176 6); ("pint", dec 473176 6); ("pints", dec 473176 6);
        ("cup", dec 236588 6); ("cups", dec 236588 6);
        ("fl oz", dec 295735 7); ("fluid ounce", dec 295735 7);
        ("fluid ounces", dec 295735 7) ]);
    ("time",
      [ ("ms", dec 1 3); ("millisecond", dec 1 3); ("milliseconds", dec 1 3);
        ("s", dec 1 0); ("second", dec 1 0); ("seconds", dec 1 0);
        ("min", dec 60 0); ("minute", dec 60 0); ("minutes", dec 60 0);
        ("h", dec 3600 0); ("hour", dec 3600 0); ("hours", dec 3600 0);
        ("day", dec 86400 0); ("days", dec 86400 0);
        ("week", dec 604800 0); ("weeks", dec 604800 0);
        ("month", dec 2629746 0); ("months", dec 2629746 0);
        ("year", dec 31556952 0); ("years", dec 31556952 0) ]) ].

Definition unitKeywords : list (string * string) :=
  [ ("convert", "convert"); ("conversion", "convert"); ("to", "to");
    ("from", "from"); ("in", "in"); ("as", "as") ].

Definition graphKeywords : list (string * string) :=
  [ ("plot", "plot"); ("graph", "plot"); ("chart", "plot"); ("draw", "plot");
    ("visualize", "plot"); ("show", "plot"); ("display", "plot");
    ("function", "function"); ("equation", "function"); ("formula", "function");
    ("scatter", "scatter"); ("line", "line"); ("bar", "bar");
    ("histogram", "histogram") ].

(** What a lookup finds on [Object.prototype] when the key is not an own
    key, as the text it contributes to a string. *)
Definition objectPrototype : list (string * string) :=
  let native name := "function " ++ name ++ "() { [native code] }" in
  [ ("constructor", native "Object");
    ("__proto__", "[object Object]");
    ("hasOwnProperty", native "hasOwnProperty");
    ("isPrototypeOf", native "isPrototypeOf");
    ("propertyIsEnumerable", native "propertyIsEnumerable");
    ("toLocaleString", native "toLocaleString");
    ("toString", native "toString");
    ("valueOf", native "valueOf");
    ("__defineGetter__", native "__defineGetter__");
    ("__defineSetter__", native "__defineSetter__");
    ("__lookupGetter__", native "__lookupGetter__");
    ("__lookupSetter__", native "__lookupSetter__") ].

(** ** The agent's state *)

Record HistoryEntry : Type := {
  entryInput : string;
  entryExpression : jsval;
  entryOperationType : string;
  entryResult : jsval;
  entryTimestamp : string
}.

Record CalculatorAgent : Type := {
  history : list HistoryEntry;
  historyLimit : nat;
  lastAnswer : option num
}.

(** The constructor. *)
Definition newAgent : CalculatorAgent :=
  {| history := []; historyLimit := 50; lastAnswer := None |}.

(** ** Normalisation and classification *)

(** The characters [cleanInput] keeps: [\w], [\s] and [+ - * / ( ) . , ^]. *)
Definition keptByCleanInput (c : ascii) : bool :=
  Str.isWord c || Str.isSpace c ||
  List.existsb (Ascii.eqb c)
    ["+"; "-"; "*"; "/"; "("; ")"; "."; ","; "^"]%char.

(** [replace(/\s+/g, ' ')]: [inRun] tells that the previous character was
    white space. *)
Fixpoint collapseSpaces (inRun : bool) (s : string) : string :=
  match s with
  | EmptyString => EmptyString
  | String c s' =>
      if Str.isSpace c
      then if inRun then collapseSpaces true s'
           else String " "%char (collapseSpaces true s')
      else String c (collapseSpaces false s')
  end.

Definition cleanInput (input : string) : string :=
  collapseSpaces false
    (Str.filter keptByCleanInput (Str.trim (Str.toLowerCase input))).

Definition containsGraphKeywords (input : string) : bool :=
  List.existsb (Str.includes input) (keys graphKeywords).

(** The 7-bit members of [/[+\-*/^()]/] (the root sign is not 7-bit). *)
Definition isMathSymbol (c : ascii) : bool :=
  List.existsb (Ascii.eqb c) ["+"; "-"; "*"; "/"; "^"; "("; ")"]%char.

Definition isNaturalLanguage (input : string) : bool :=
  let hasMathSymbols := Str.existsb isMathSymbol input in
  let hasWords := Str.existsb Str.isLetter input in
  if containsGraphKeywords input then true
  else hasWords && negb hasMathSymbols.

Definition containsUnitNames (input : string) : bool :=
  List.existsb
    (fun category =>
       List.existsb (Str.includes (Str.toLowerCase input)) (keys (snd category)))
    unitConversions.

Definition containsUnitKeywords (input : string) : bool :=
  List.existsb (Str.includes input) (keys unitKeywords)
  || containsUnitNames input.

Definition containsStatsKeywords (input : string) : bool :=
  List.existsb (Str.includes input) (keys statsKeywords).

Definition containsTrigKeywords (input : string) : bool :=
  List.existsb (Str.includes input)
    ["sin"; "cos"; "tan"; "sine"; "cosine"; "tangent"].

Fixpoint firstIncluded (input : string) (table : list (string * string))
  : option string :=
  match table with
  | [] => None
  | (keyword, operation) :: rest =>
      if Str.includes input keyword then Some operation
      else firstIncluded input rest
  end.

Definition detectStatsType (input : string) : string :=
  match firstIncluded input statsKeywords with
  | Some operation => operation
  | None => "mean"
  end.

Definition detectTrigFunction (input : string) : string :=
  if Str.includes input "sin" || Str.includes input "sine" then "sin"
  else if Str.includes input "cos" || Str.includes input "cosine" then "cos"
  else if Str.includes input "tan" || Str.includes input "tangent" then "tan"
  else "sin".

Definition detectOperationType (expression : string) : string :=
  if Str.includes expression "sin" || Str.includes expression "cos"
     || Str.includes expression "tan" then "trigonometry"
  else if Str.includes expression "log" || Str.includes expression "ln"
  then "logarithm"
  else if Str.includes expression "sqrt" || Str.includes expression "√"
  then "square root"
  else if Str.includes expression "^" || Str.includes expression "**"
  then "exponentiation"
  else "arithmetic".

Definition detectGraphType (input : string) : string :=
  if Str.includes input "scatter" || Str.includes input "points" then "scatter"
  else if Str.includes input "histogram" || Str.includes input "distribution"
  then "histogram"
  else if Str.includes input "function" || Str.includes input "equation"
          || Str.includes input "formula" then "function"
  else "function".

(** ** Tokens and numeric literals *)

(** The word tokenizer of the natural-language library: the text is split
    at every run of characters that are not letters, digits or underscores,
    and empty pieces are discarded.  [current] is the token being read. *)
Fixpoint tokenizeFrom (current : string) (s : string) : list string :=
  match s with
  | EmptyString => if Str.isEmpty current then [] else [current]
  | String c s' =>
      if Str.isWord c then tokenizeFrom (current ++ String c EmptyString) s'
      else if Str.isEmpty current then tokenizeFrom EmptyString s'
      else current :: tokenizeFrom EmptyString s'
  end.

Definition tokenize : string -> list string := tokenizeFrom EmptyString.

(** The matches of [/-?\d+\.?\d*/g], left to right.  The scanner is in one
    of three places: outside a match ([pendingMinus] tells that the previous
    character is a minus sign that may start one), in the integer digits, or
    after the point. *)
Inductive scan : Type :=
| Outside (pendingMinus : bool)
| InInteger (matched : string)
| InFraction (matched : string).

Definition snoc (s : string) (c : ascii) : string := s ++ String c EmptyString.

Fixpoint matchNumbersFrom (st : scan) (s : string) : list string :=
  match s with
  | EmptyString =>
      match st with
      | Outside _ => []
      | InInteger m | InFraction m => [m]
      end
  | String c s' =>
      let outside (pending : bool) :=
        if Str.isDigit c
        then matchNumbersFrom
               (InInteger (if pending then snoc "-" c else String c EmptyString)) s'
        else matchNumbersFrom (Outside (Ascii.eqb c "-"%char)) s' in
      match st with
      | Outside pending => outside pending
      | InInteger m =>
          if Str.isDigit c then matchNumbersFrom (InInteger (snoc m c)) s'
          else if Ascii.eqb c "."%char
          then matchNumbersFrom (InFraction (snoc m c)) s'
          else m :: outside false
      | InFraction m =>
          if Str.isDigit c then matchNumbersFrom (InFraction (snoc m c)) s'
          else m :: outside false
      end
  end.

Definition matchNumbers : string -> list string :=
  matchNumbersFrom (Outside false).

(** The value of a run of decimal digits, continuing from [acc]. *)
Fixpoint digitsValue (acc : Z) (s : string) : Z :=
  match s with
  | EmptyString => acc
  | String c s' =>
      if Str.isDigit c
      then digitsValue (10 * acc + Z.of_nat (Str.code c - 48))%Z s'
      else acc
  end.

Fixpoint digitsCount (s : string) : nat :=
  match s with
  | EmptyString => O
  | String c s' => if Str.isDigit c then S (digitsCount s') else O
  end.

(** [Number(m)] (also [parseFloat(m)]) for a text [m] made of an optional
    minus sign, digits and, optionally, a point and digits. *)
Definition numberOfLiteral (m : string) : num :=
  let negative := Str.prefix "-" m in
  let body := if negative then Str.drop 1 m else m in
  let whole := digitsCount body in
  let fraction := Str.drop (S whole) body in
  let k := digitsCount fraction in
  let magnitude := digitsValue (digitsValue 0 body) fraction in
  ofDecimal (if negative then (- magnitude)%Z else magnitude) k.

Definition extractNumbers (text : string) : list num :=
  List.map numberOfLiteral (matchNumbers text).

(** ** Unit conversion *)

Fixpoint findIndex {A : Type} (p : A -> bool) (l : list A) : option nat :=
  match l with
  | [] => None
  | x :: rest =>
      if p x then Some O else option_map S (findIndex p rest)
  end.

Definition isSeparator (token : string) : bool :=
  String.eqb token "to" || String.eqb token "in" || String.eqb token "as".

Record Units : Type := {
  fromUnit : option string;
  toUnit : option string;
  category : option string
}.

(** One pass of the inner loop of the branch without a separator: the first
    unit found becomes the source and fixes the category, the next one
    becomes the target and ends the loop. *)
Fixpoint scanUnits (text cat : string) (units : list string) (u : Units) : Units :=
  match units with
  | [] => u
  | unit :: rest =>
      if Str.includes text unit then
        match fromUnit u, toUnit u with
        | None, _ =>
            scanUnits text cat rest
              {| fromUnit := Some unit; toUnit := toUnit u; category := Some cat |}
        | Some _, None =>
            {| fromUnit := fromUnit u; toUnit := Some unit; category := category u |}
        | Some _, Some _ => scanUnits text cat rest u
        end
      else scanUnits text cat rest u
  end.

Fixpoint scanCategories (text : string) (table : list (string * object))
  (u : Units) : Units :=
  match table with
  | [] => u
  | (cat, units) :: rest =>
      let u' := scanUnits text cat (keys units) u in
      match toUnit u' with
      | Some _ => u'
      | None => scanCategories text rest u'
      end
  end.

Definition firstUnitIn (text : string) (units : list string) : option string :=
  List.find (Str.includes text) units.

Fixpoint findSource (text : string) (table : list (string * object))
  : option (string * string) :=
  match table with
  | [] => None
  | (cat, units) :: rest =>
      match firstUnitIn text (keys units) with
      | Some unit => Some (unit, cat)
      | None => findSource text rest
      end
  end.

Definition extractUnits (input : string) : Units :=
  let tokens := tokenize (Str.toLowerCase input) in
  match findIndex isSeparator tokens with
  | None =>
      scanCategories (Str.toLowerCase input) unitConversions
        {| fromUnit := None; toUnit := None; category := None |}
  | Some toIndex =>
      let beforeTo := Str.join " " (firstn toIndex tokens) in
      let afterTo := Str.join " " (skipn (S toIndex) tokens) in
      match findSource beforeTo unitConversions with
      | None => {| fromUnit := None; toUnit := None; category := None |}
      | Some (unit, cat) =>
          let units :=
            match lookup cat unitConversions with
            | Some units => units
            | None => []
            end in
          {| fromUnit := Some unit;
             toUnit := firstUnitIn afterTo (keys units);
             category := Some cat |}
      end
  end.

Definition isCelsius (u : string) : bool :=
  String.eqb u "celsius" || String.eqb u "c" || String.eqb u "°c".
Definition isFahrenheit (u : string) : bool :=
  String.eqb u "fahrenheit" || String.eqb u "f" || String.eqb u "°f".
Definition isKelvin (u : string) : bool :=
  String.eqb u "kelvin" || String.eqb u "k".

Definition convertTemperature (value : num) (fromUnit toUnit : string)
  : result num :=
  let from := Str.toLowerCase fromUnit in
  let to := Str.toLowerCase toUnit in
  (celsius <-
     (if isCelsius from then Ok value
      else if isFahrenheit from then Ok ((value - int 32) * int 5 / int 9)
      else if isKelvin from then Ok (value - ofDecimal 27315 2)
      else Throw ("Unsupported temperature unit: " ++ fromUnit)) ;;
   if isCelsius to then Ok celsius
   else if isFahrenheit to then Ok ((celsius * int 9 / int 5) + int 32)
   else if isKelvin to then Ok (celsius + ofDecimal 27315 2)
   else Throw ("Unsupported temperature unit: " ++ toUnit))%result.

(** A table entry usable as a factor: a truthy Number.  (The entries that
    are not Numbers are those of the temperature category, which
    [convertUnit] has dispatched before it reads the table.) *)
Definition factorOf (units : object) (unit : string) : option num :=
  match lookup unit units with
  | Some (JNum f) => if falsy f then None else Some f
  | _ => None
  end.

(** [o === s] for a variable [o] that holds a string or [null]. *)
Definition equalsText (o : option string) (s : string) : bool :=
  match o with Some s' => String.eqb s' s | None => false end.

Definition convertUnit (value : num) (fromUnit toUnit : string)
  (category : option string) : result num :=
  if equalsText category "temperature"
  then convertTemperature value fromUnit toUnit
  else
    let unsupported :=
      Throw ("Unsupported unit conversion: " ++ fromUnit ++ " to " ++ toUnit) in
    match category with
    | None => unsupported
    | Some cat =>
        match lookup cat unitConversions with
        | None => unsupported
        | Some units =>
            match factorOf units fromUnit, factorOf units toUnit with
            | Some f1, Some f2 =>
                let baseValue := value * f1 in
                Ok (baseValue / f2)
            | _, _ => unsupported
            end
        end
    end.

(** What the three text extractors return: the expression, the operation
    type, the value the extractor computed itself (none for arithmetic) and,
    for a conversion, the units. *)
Record Parsed : Type := {
  expression : string;
  operationType : string;
  parsedResult : option num;
  parsedUnits : Units
}.

Definition noUnits : Units :=
  {| fromUnit := None; toUnit := None; category := None |}.

Definition parseUnitConversion (input : string) : result Parsed :=
  match extractNumbers input with
  | [] => Throw "No number found for unit conversion"
  | value :: _ =>
      let u := extractUnits input in
      match fromUnit u, toUnit u with
      | Some from, Some to =>
          (converted <- convertUnit value from to (category u) ;;
           Ok {| expression := numberToString value ++ " " ++ from ++ " to " ++ to;
                 operationType := "unit conversion";
                 parsedResult := Some converted;
                 parsedUnits := u |})%result
      | _, _ => Throw "Could not identify source and target units"
      end
  end.

(** ** Statistics, trigonometry and plain arithmetic *)

Definition parseStatisticsRequest (input : string) : result Parsed :=
  let numbers := extractNumbers input in
  let statsType := detectStatsType input in
  let called :=
    if List.existsb (String.eqb statsType) ["mean"; "median"; "std"; "sum"]
    then statsType else "mean" in
  (computed <- mathStatistic called numbers ;;
   Ok {| expression :=
           statsType ++ "(" ++ Str.join ", " (List.map numberToString numbers) ++ ")";
         operationType := "statistics";
         parsedResult := Some computed;
         parsedUnits := noUnits |})%result.

Definition parseTrigonometryRequest (input : string) : result Parsed :=
  let angle := List.hd_error (extractNumbers input) in
  let trigFunction := detectTrigFunction input in
  (computed <- mathDegrees trigFunction angle ;;
   Ok {| expression :=
           trigFunction ++ "("
           ++ match angle with
              | Some a => numberToString a
              | None => "undefined"
              end ++ ")";
         operationType := "trigonometry";
         parsedResult := Some computed;
         parsedUnits := noUnits |})%result.

Definition hexDigit (c : ascii) : option Z :=
  if Str.isDigit c then Some (Z.of_nat (Str.code c - 48))
  else if Str.between 97 102 c then Some (Z.of_nat (Str.code c - 87))
  else if Str.between 65 70 c then Some (Z.of_nat (Str.code c - 55))
  else None.

Fixpoint valueIn (radix acc : Z) (s : string) : option Z :=
  match s with
  | EmptyString => Some acc
  | String c s' =>
      match hexDigit c with
      | Some d => if (d <? radix)%Z then valueIn radix (radix * acc + d)%Z s' else None
      | None => None
      end
  end.

Definition literalIn (radix : Z) (s : string) : option Z :=
  if Str.isEmpty s then None else valueIn radix 0 s.

(** The text before the exponent mark and, if there is a mark, after it. *)
Fixpoint splitExponent (s : string) : string * option string :=
  match s with
  | EmptyString => (EmptyString, None)
  | String c s' =>
      if Ascii.eqb c "e"%char || Ascii.eqb c "E"%char then (EmptyString, Some s')
      else let (m, e) := splitExponent s' in (String c m, e)
  end.

(** A magnitude [m * 10^e] is read as a finite Number when it is below the
    midpoint between the largest double and [2^1024]. *)
Definition readsFinite (m e : Z) : bool :=
  (m =? 0)%Z || ((e <=? 400)%Z && (m * 10 ^ e <? 2 ^ 1024 - 2 ^ 970)%Z).

(** [!isNaN(parseFloat(token)) && isFinite(token)] for a token, a text of
    letters, digits and underscores: the token is a decimal, hexadecimal,
    octal or binary literal whose value is finite. *)
Definition isNumber (token : string) : bool :=
  let radixLiteral radix :=
    match literalIn radix (Str.drop 2 token) with
    | Some v => readsFinite v 0
    | None => false
    end in
  if Str.prefix "0x" token || Str.prefix "0X" token then radixLiteral 16%Z
  else if Str.prefix "0o" token || Str.prefix "0O" token then radixLiteral 8%Z
  else if Str.prefix "0b" token || Str.prefix "0B" token then radixLiteral 2%Z
  else
    let (mantissa, exponent) := splitExponent token in
    match literalIn 10 mantissa, exponent with
    | Some m, None => readsFinite m 0
    | Some m, Some digits =>
        match literalIn 10 digits with
        | Some e => readsFinite m e
        | None => false
        end
    | None, _ => false
    end.

Definition numberWords : list (string * nat) :=
  [ ("zero", 0); ("one", 1); ("two", 2); ("three", 3); ("four", 4);
    ("five", 5); ("six", 6); ("seven", 7); ("eight", 8); ("nine", 9);
    ("ten", 10); ("eleven", 11); ("twelve", 12); ("thirteen", 13);
    ("fourteen", 14); ("fifteen", 15); ("sixteen", 16); ("seventeen", 17);
    ("eighteen", 18); ("nineteen", 19); ("twenty", 20) ]%nat.

Definition isNumberWord (token : string) : bool :=
  match lookup token numberWords with Some _ => true | None => false end.

(** [numberWords[word] || word], as the text appended to the expression:
    zero is falsy and stays a word. *)
Definition wordToNumber (word : string) : string :=
  match lookup word numberWords with
  | Some (S n) => Str.ofNat (S n)
  | Some O => word
  | None =>
      match lookup word objectPrototype with
      | Some member => member
      | None => word
      end
  end.

(** [this.mathKeywords[token]] when truthy: an own key, else a member of
    the prototype. *)
Definition mathKeyword (token : string) : option string :=
  match lookup token mathKeywords with
  | Some symbol => Some symbol
  | None => lookup token objectPrototype
  end.

(** The loop of [parseNaturalLanguage] over the tokens. *)
Fixpoint arithmeticExpression (tokens : list string) : string :=
  match tokens with
  | [] => EmptyString
  | token :: rest =>
      let spacer :=
        match rest with
        | next :: _ => if isNumber next then " " else EmptyString
        | [] => EmptyString
        end in
      if isNumber token then token ++ spacer ++ arithmeticExpression rest
      else
        match mathKeyword token with
        | Some symbol => symbol ++ spacer ++ arithmeticExpression rest
        | None =>
            if String.eqb token "and" || String.eqb token "with"
            then arithmeticExpression rest
            else if isNumberWord token
            then wordToNumber token ++ spacer ++ arithmeticExpression rest
            else spacer ++ arithmeticExpression rest
        end
  end.

Definition parseNaturalLanguage (input : string) : result Parsed :=
  let tokens := tokenize input in
  if containsStatsKeywords input then parseStatisticsRequest input
  else if containsTrigKeywords input then parseTrigonometryRequest input
  else Ok {| expression := arithmeticExpression tokens;
             operationType := "arithmetic";
             parsedResult := None;
             parsedUnits := noUnits |}.

(** ** Graphing requests *)

Inductive GraphRequest : Type :=
| FunctionPlot (body : string) (from to : num)
| ScatterPlot (x y : list num)
| HistogramPlot (data : list num).

(** The [expression] field of a parsed graphing request. *)
Definition graphExpression (g : GraphRequest) : string :=
  match g with
  | FunctionPlot body _ _ => body
  | ScatterPlot x _ =>
      "scatter plot with " ++ Str.ofNat (List.length x) ++ " points"
  | HistogramPlot data =>
      "histogram with " ++ Str.ofNat (List.length data) ++ " data points"
  end.

Definition graphType (g : GraphRequest) : string :=
  match g with
  | FunctionPlot _ _ _ => "function"
  | ScatterPlot _ _ => "scatter"
  | HistogramPlot _ => "histogram"
  end.

Definition numbers (l : list num) : jsval := JArr (List.map JNum l).

(** The parsed request as the object it is. *)
Definition graphObject (g : GraphRequest) : jsval :=
  JObj
    ([ ("expression", JStr (graphExpression g));
       ("operationType", JStr "graphing");
       ("graphType", JStr (graphType g)) ]
     ++ match g with
        | FunctionPlot _ from to => [ ("from", JNum from); ("to", JNum to) ]
        | ScatterPlot x y => [ ("x", numbers x); ("y", numbers y) ]
        | HistogramPlot data => [ ("data", numbers data) ]
        end
     ++ [ ("result", JNull) ])%list.

Definition parseFunctionPlot (input : string) : result GraphRequest :=
  match matchFunctionPlot input with
  | None => Throw "Could not extract function expression"
  | Some (body, lower, upper) =>
      let bound (group : option string) (default : num) :=
        match group with
        | Some g => if Str.isEmpty g then default else numberOfLiteral g
        | None => default
        end in
      Ok (FunctionPlot (Str.trim body) (bound lower (int (-10))) (bound upper (int 10)))
  end.

(** [l.filter((_, index) => index % 2 === parity)], [index] being the
    position of the head. *)
Fixpoint filterByParity {A : Type} (parity index : nat) (l : list A) : list A :=
  match l with
  | [] => []
  | v :: rest =>
      if (index mod 2 =? parity)%nat
      then v :: filterByParity parity (S index) rest
      else filterByParity parity (S index) rest
  end.

Definition parseScatterPlot (input : string) : result GraphRequest :=
  let numbers := extractNumbers input in
  if (List.length numbers <? 4)%nat
  then Throw "Scatter plot requires at least 2 data points (4 numbers)"
  else
    let x := filterByParity 0 0 numbers in
    let y := filterByParity 1 0 numbers in
    Ok (ScatterPlot x y).

Definition parseHistogram (input : string) : result GraphRequest :=
  let numbers := extractNumbers input in
  if (List.length numbers =? 0)%nat
  then Throw "Histogram requires data points"
  else Ok (HistogramPlot numbers).

Definition parseGraphingRequest (input : string) : result GraphRequest :=
  let graphType := detectGraphType input in
  if String.eqb graphType "function" then parseFunctionPlot input
  else if String.eqb graphType "scatter" then parseScatterPlot input
  else if String.eqb graphType "histogram" then parseHistogram input
  else Throw "Unsupported graph type".

(** ** Plots *)

(** The global [isFinite]. *)
Definition isFinite (v : jsval) : bool :=
  match v with
  | JNum n => nisFinite n
  | _ => isFiniteCoerced v
  end.

(** [expression.replace(/x/g, replacement)]. *)
Fixpoint replaceX (expression replacement : string) : string :=
  match expression with
  | EmptyString => EmptyString
  | String c rest =>
      if Ascii.eqb c "x"%char then replacement ++ replaceX rest replacement
      else String c (replaceX rest replacement)
  end.

(** One turn of the sampling loop: the point, unless the evaluation throws
    or its value is not finite. *)
Definition samplePoint (expression : string) (from step : num) (i : nat)
  : list (num * jsval) :=
  let xVal := from + ofNat i * step in
  match mathEvaluate (replaceX expression ("(" ++ numberToString xVal ++ ")")) with
  | Ok yVal => if isFinite yVal then [(xVal, yVal)] else []
  | Throw _ => []
  end.

Definition generateFunctionData (expression : string) (from to : num)
  (points : nat) : list num * list jsval :=
  let step := (to - from) / ofNat points in
  let samples := List.flat_map (samplePoint expression from step) (seq 0 (S points)) in
  (List.map fst samples, List.map snd samples).

Definition createPlot (plotData : PlotData) (filename : string) : result string :=
  match writePlot plotData filename with
  | Ok filepath => Ok filepath
  | Throw message => Throw ("Failed to create plot: " ++ message)
  end.

Definition generateFunctionPlot (w : World) (expression : string)
  (from to : num) : result jsval :=
  let (x, y) := generateFunctionData expression from to 100 in
  let plotData := FunctionSeries x y ("y = " ++ expression) in
  let filename := "function_" ++ Str.ofNat (dateNow w) ++ ".html" in
  (filepath <- createPlot plotData filename ;;
   Ok (JObj [ ("success", JBool true); ("filepath", JStr filepath);
              ("expression", JStr expression);
              ("from", JNum from); ("to", JNum to);
              ("points", JNum (ofNat (List.length x))) ]))%result.

Definition generateScatterPlot (w : World) (x y : list num) : result jsval :=
  let plotData := ScatterSeries x y in
  let filename := "scatter_" ++ Str.ofNat (dateNow w) ++ ".html" in
  (filepath <- createPlot plotData filename ;;
   Ok (JObj [ ("success", JBool true); ("filepath", JStr filepath);
              ("points", JNum (ofNat (List.length x))) ]))%result.

(** [Math.min(...data)] and [Math.max(...data)] of a list with head [d]. *)
Definition minOf (d : num) (data : list num) : num :=
  List.fold_left (fun m v => if v <? m then v else m) data d.
Definition maxOf (d : num) (data : list num) : num :=
  List.fold_left (fun m v => if m <? v then v else m) data d.

Definition countIf (p : num -> bool) (data : list num) : nat :=
  List.length (List.filter p data).

Record Bins : Type := { labels : list string; counts : list nat }.

Definition binStart (min binWidth : num) (i : nat) : num := min + ofNat i * binWidth.
Definition binEnd (min binWidth : num) (i : nat) : num := min + ofNat (i + 1) * binWidth.

(** The test of the bin's filter: [val >= binStart && val < binEnd]. *)
Definition inBin (min binWidth : num) (i : nat) (val : num) : bool :=
  (binStart min binWidth i <=? val) && (val <? binEnd min binWidth i).

Definition numBinsFor (n : nat) : nat := Nat.min 10 (Nat.sqrt_up n).

Definition createHistogramBins (data : list num) : Bins :=
  match data with
  | [] => {| labels := []; counts := [] |}
  | d :: rest =>
      let min := minOf d rest in
      let max := maxOf d rest in
      let numBins := numBinsFor (List.length data) in
      let binWidth := (max - min) / ofNat numBins in
      let bin i :=
        (toFixed 1 (binStart min binWidth i) ++ "-" ++ toFixed 1 (binEnd min binWidth i),
         countIf (inBin min binWidth i) data) in
      let bins := List.map bin (seq 0 numBins) in
      {| labels := List.map fst bins; counts := List.map snd bins |}
  end.

Definition generateHistogram (w : World) (data : list num) : result jsval :=
  let bins := createHistogramBins data in
  let plotData := HistogramSeries (labels bins) (counts bins) in
  let filename := "histogram_" ++ Str.ofNat (dateNow w) ++ ".html" in
  (filepath <- createPlot plotData filename ;;
   Ok (JObj [ ("success", JBool true); ("filepath", JStr filepath);
              ("dataPoints", JNum (ofNat (List.length data))) ]))%result.

(** ** History and memory *)

Definition addHistoryEntry (entry : HistoryEntry) (a : CalculatorAgent)
  : CalculatorAgent :=
  let pushed := (history a ++ [entry])%list in
  {| history :=
       if (historyLimit a <? List.length pushed)%nat then List.tl pushed else pushed;
     historyLimit := historyLimit a;
     lastAnswer := lastAnswer a |}.

Definition getHistory (limit : nat) (a : CalculatorAgent) : list HistoryEntry :=
  match limit with
  | O => []
  | _ => List.rev (List.skipn (List.length (history a) - limit) (history a))
  end.

Definition clearHistory (a : CalculatorAgent) : CalculatorAgent :=
  {| history := []; historyLimit := historyLimit a; lastAnswer := None |}.

Definition getLastAnswer (a : CalculatorAgent) : option num := lastAnswer a.

(** ** The entry point *)

(** [s.replace(/\bans\b/g, replacement)].  [previousIsWord] tells whether
    the character before [s] is a word character; [skip] counts the
    characters of a match still to pass. *)
Fixpoint replaceAnsFrom (replacement : string) (previousIsWord : bool)
  (skip : nat) (s : string) : string :=
  match s with
  | EmptyString => EmptyString
  | String c s' =>
      match skip with
      | S k => replaceAnsFrom replacement true k s'
      | O =>
          if negb previousIsWord && Str.prefix "ans" s
             && negb (Str.existsb Str.isWord (String.substring 3 1 s))
          then replacement ++ replaceAnsFrom replacement true 2 s'
          else String c (replaceAnsFrom replacement (Str.isWord c) 0 s')
      end
  end.

Definition replaceAns (replacement s : string) : string :=
  replaceAnsFrom replacement false 0 s.

(** The lines that let [ans] stand for the last answer. *)
Definition substituteAns (a : CalculatorAgent) (cleanedInput : string) : string :=
  match lastAnswer a with
  | Some answer => replaceAns (numberToString answer) cleanedInput
  | None => cleanedInput
  end.

(** The variables [expression] and [operationType] after the parse: a
    text with its operation type, or a graphing request (whose operation
    type is ['graphing']). *)
Inductive Request : Type :=
| TextRequest (expression operationType : string)
| GraphingRequest (parsed : GraphRequest).

Definition requestType (r : Request) : string :=
  match r with
  | TextRequest _ operationType => operationType
  | GraphingRequest _ => "graphing"
  end.

Definition textOf (p : Parsed) : Request :=
  TextRequest (expression p) (operationType p).

Definition parseRequest (cleanedInput : string) : result Request :=
  if isNaturalLanguage cleanedInput then
    if containsGraphKeywords cleanedInput then
      (parsed <- parseGraphingRequest cleanedInput ;; Ok (GraphingRequest parsed))%result
    else if containsUnitKeywords cleanedInput then
      (parsed <- parseUnitConversion cleanedInput ;; Ok (textOf parsed))%result
    else
      (parsed <- parseNaturalLanguage cleanedInput ;; Ok (textOf parsed))%result
  else Ok (TextRequest cleanedInput (detectOperationType cleanedInput)).

Definition isValidExpression (r : Request) : bool :=
  match r with
  | GraphingRequest _ => true
  | TextRequest expression _ => mathCompile expression
  end.

Definition evaluateExpression (expression : string) : result jsval :=
  match mathEvaluate expression with
  | Ok v => Ok v
  | Throw message => Throw ("Calculation error: " ++ message)
  end.

(** The result and the additional data of the payload. *)
Definition perform (w : World) (r : Request) : result (jsval * object) :=
  match r with
  | GraphingRequest (FunctionPlot body from to) =>
      (plot <- generateFunctionPlot w body from to ;;
       Ok (plot, [ ("graphType", JStr "function");
                   ("from", JNum from); ("to", JNum to) ]))%result
  | GraphingRequest (ScatterPlot x y) =>
      (plot <- generateScatterPlot w x y ;;
       Ok (plot, [ ("graphType", JStr "scatter");
                   ("points", JNum (ofNat (List.length x))) ]))%result
  | GraphingRequest (HistogramPlot data) =>
      (plot <- generateHistogram w data ;;
       Ok (plot, [ ("graphType", JStr "histogram");
                   ("dataPoints", JNum (ofNat (List.length data))) ]))%result
  | TextRequest expression _ =>
      (value <- evaluateExpression expression ;; Ok (value, []))%result
  end.

(** [expression.expression || expression]. *)
Definition payloadExpression (r : Request) : jsval :=
  match r with
  | TextRequest expression _ => JStr expression
  | GraphingRequest g =>
      if Str.isEmpty (graphExpression g) then graphObject g
      else JStr (graphExpression g)
  end.

Definition successPayload (w : World) (input : string) (r : Request)
  (value : jsval) (additionalData : object) : object :=
  ([ ("success", JBool true);
     ("input", JStr input);
     ("expression", payloadExpression r);
     ("result", value);
     ("operationType", JStr (requestType r));
     ("timestamp", JStr (isoTimestamp w));
     ("agent", JStr agentName) ] ++ additionalData)%list.

Definition failurePayload (w : World) (input message : string) : object :=
  [ ("success", JBool false);
    ("input", JStr input);
    ("error", JStr message);
    ("timestamp", JStr (isoTimestamp w));
    ("agent", JStr agentName) ].

(** The memory update of a successful request. *)
Definition remember (w : World) (input : string) (r : Request) (value : jsval)
  (a : CalculatorAgent) : CalculatorAgent :=
  let numericResult :=
    match value with
    | JNum n => Some n
    | _ => None
    end in
  let a' :=
    match numericResult with
    | Some n =>
        {| history := history a; historyLimit := historyLimit a;
           lastAnswer := Some n |}
    | None => a
    end in
  addHistoryEntry
    {| entryInput := input;
       entryExpression := payloadExpression r;
       entryOperationType := requestType r;
       entryResult := value;
       entryTimestamp := isoTimestamp w |} a'.

(** The body of the [try] block. *)
Definition attempt (w : World) (a : CalculatorAgent) (input : string)
  : result (object * CalculatorAgent) :=
  let cleanedInput := substituteAns a (cleanInput input) in
  (r <- parseRequest cleanedInput ;;
   _ <- (if negb (String.eqb (requestType r) "graphing")
            && negb (isValidExpression r)
         then Throw "Invalid mathematical expression"
         else Ok tt) ;;
   outcome <- perform w r ;;
   let (value, additionalData) := outcome in
   Ok (successPayload w input r value additionalData,
       remember w input r value a))%result.

Definition calculate (w : World) (a : CalculatorAgent) (input : string)
  : object * CalculatorAgent :=
  match attempt w a input with
  | Ok done => done
  | Throw message => (failurePayload w input message, a)
  end.

(** ** Notions the properties are stated with *)

(** The branch of [calculate] (and, below it, of [parseNaturalLanguage]) a
    cleaned text takes. *)
Inductive Domain : Type :=
| Graphing
| UnitConversion
| Statistics
| Trigonometry
| Arithmetic
| Literal (operationType : string).

Definition classifyCleaned (cleanedInput : string) : Domain :=
  if isNaturalLanguage cleanedInput then
    if containsGraphKeywords cleanedInput then Graphing
    else if containsUnitKeywords cleanedInput then UnitConversion
    else if containsStatsKeywords cleanedInput then Statistics
    else if containsTrigKeywords cleanedInput then Trigonometry
    else Arithmetic
  else Literal (detectOperationType cleanedInput).

Definition classify (input : string) : Domain :=
  classifyCleaned (cleanInput input).

(** What [calculate] returns for a text request [r] once it is parsed:
    the expression is compiled, then evaluated by the library. *)
Definition evaluated (w : World) (a : CalculatorAgent) (input : string)
  (r : Request) (e : string) : object * CalculatorAgent :=
  if mathCompile e then
    match mathEvaluate e with
    | Ok v => (successPayload w input r v [], remember w input r v a)
    | Throw m => (failurePayload w input ("Calculation error: " ++ m), a)
    end
  else (failurePayload w input "Invalid mathematical expression", a).

(** A text in normal form, read after white space ([inRun]) or not: kept
    characters only, no capital, no white space but single spaces. *)
Fixpoint normalFrom (inRun : bool) (s : string) : bool :=
  match s with
  | EmptyString => true
  | String c s' =>
      keptByCleanInput c && negb (Str.isUpper c)
      && (if Str.isSpace c
          then Ascii.eqb c " "%char && negb inRun && normalFrom true s'
          else normalFrom false s')
  end.

(** A keyword that neither starts nor ends with white space. *)
Definition startsSolid (k : string) : bool :=
  match k with
  | EmptyString => false
  | String c _ => negb (Str.isSpace c)
  end.

Fixpoint endsSolid (k : string) : bool :=
  match k with
  | EmptyString => false
  | String c EmptyString => negb (Str.isSpace c)
  | String _ k' => endsSolid k'
  end.

Definition solid (k : string) : bool := startsSolid k && endsSolid k.

(** Requests served one after the other, each with the clock it reads: the
    payloads returned and the agent left. *)
Fixpoint session (requests : list (World * string)) (a : CalculatorAgent)
  : list object * CalculatorAgent :=
  match requests with
  | [] => ([], a)
  | (w, input) :: rest =>
      let (payload, a') := calculate w a input in
      let (payloads, a'') := session rest a' in
      (payload :: payloads, a'')
  end.

Definition succeeded (payload : object) : bool :=
  match lookup "success" payload with
  | Some (JBool true) => true
  | _ => false
  end.

(** The ledger entry of a returned payload. *)
Definition entryOf (payload : object) : list HistoryEntry :=
  match lookup "success" payload, lookup "input" payload,
        lookup "expression" payload, lookup "operationType" payload,
        lookup "result" payload, lookup "timestamp" payload with
  | Some (JBool true), Some (JStr input), Some expression,
    Some (JStr operationType), Some value, Some (JStr timestamp) =>
      [ {| entryInput := input; entryExpression := expression;
           entryOperationType := operationType; entryResult := value;
           entryTimestamp := timestamp |} ]
  | _, _, _, _, _, _ => []
  end.

(** The last [n] elements of a list. *)
Definition lastN {A : Type} (n : nat) (l : list A) : list A :=
  List.skipn (List.length l - n) l.






(** Converting [value] from [u1] to [u2] and the result back. *)
Definition roundTrip (value : num) (u1 u2 : string) (category : option string)
  : result num :=
  (there <- convertUnit value u1 u2 category ;;
   convertUnit there u2 u1 category)%result.

Definition nabs (x : num) : num := if x <? int 0 then int 0 - x else x.

(** [r] is [v] within the relative tolerance [tolerance]. *)
Definition withinRelative (tolerance r v : num) : bool :=
  nabs (r - v) <=? tolerance * nabs v.

(** A host that is off line: numbers are printed by [show], every
    expression compiles and evaluates to [answer], files are written under
    [plots/], the other library calls throw. *)
Definition offline (show : num -> string) (answer : jsval) : Host :=
  {| numberToString := show;
     toFixed := fun _ n => show n;
     mathCompile := fun _ => true;
     mathEvaluate := fun _ => Ok answer;
     mathStatistic := fun _ _ => Throw "off line";
     mathDegrees := fun _ _ => Throw "off line";
     isFiniteCoerced := fun _ => false;
     matchFunctionPlot := fun _ => None;
     writePlot := fun _ filename => Ok ("plots/" ++ filename) |}.


End Agent.

(** Integers are printed in decimal, other rationals as a quotient. *)
Definition showQ (q : Q) : string :=
  let integer z :=
    ((if (z <? 0)%Z then "-" else "") ++ Str.ofNat (Z.abs_nat z))%string in
  match Qden q with
  | xH => integer (Qnum q)
  | d => (integer (Qnum q) ++ "/" ++ integer (Zpos d))%string
  end.

(** An entry that is a Number other than zero. *)
Definition isFactor (entry : string * @jsval Q) : bool :=
  match snd entry with
  | JNum f => negb (Qeq_bool f (0 # 1))
  | _ => false
  end.

Definition rationalHost : Host (num := Q) := offline showQ (JNum (1 # 1)).

Definition floatHost : Host (num := float) :=
  offline (fun _ => "0") (JNum 1%float).





Definition noon : World :=
  {| isoTimestamp := "2024-01-01T12:00:00.000Z"; dateNow := 0 |}.

(** The [i]-th of a run of requests that evaluate [1], each at its own
    time. *)
Definition tick (i : nat) : World * string :=
  ({| isoTimestamp := Str.ofNat i; dateNow := i |}, "1").

(** ** The first version of the agent *)

Section FirstVersion.

Context {num : Type} {arith : Arith num} {host : Host (num := num)}.

(** The first [CalculatorAgent] of the file has neither units, graphs nor
    memory; its tables, its extractors and [cleanInput] are those of the
    second, word for word. *)
Definition isNaturalLanguageV1 (input : string) : bool :=
  let hasMathSymbols := Str.existsb isMathSymbol input in
  let hasWords := Str.existsb Str.isLetter input in
  hasWords && negb hasMathSymbols.

Definition calculateV1 (w : World) (input : string) : @object num :=
  let cleanedInput := cleanInput input in
  let attempted : result object :=
    (parsed <-
       (if isNaturalLanguageV1 cleanedInput
        then (p <- parseNaturalLanguage cleanedInput ;;
              Ok (expression p, operationType p))
        else Ok (cleanedInput, detectOperationType cleanedInput)) ;;
     let (expression, operationType) := parsed in
     _ <- (if negb (mathCompile expression)
           then Throw "Invalid mathematical expression"
           else Ok tt) ;;
     value <- evaluateExpression expression ;;
     Ok [ ("success", JBool true);
          ("input", JStr input);
          ("expression", JStr expression);
          ("result", value);
          ("operationType", JStr operationType);
          ("timestamp", JStr (isoTimestamp w));
          ("agent", JStr agentName) ])%result in
  match attempted with
  | Ok payload => payload
  | Throw message => failurePayload w input message
  end.

(** ** Notions the further properties are stated with *)

(** The last Number among the results of a run of payloads, [answer] when
    there is none. *)
Definition lastNumber (payloads : list (@object num)) (answer : option num)
  : option num :=
  List.fold_left
    (fun acc payload =>
       match lookup "result" payload with
       | Some (JNum n) => Some n
       | _ => acc
       end)
    payloads answer.



End FirstVersion.

(** ** Doubles as real numbers *)

(** What the statements about rounding are made with.  A double is read
    through [Prim2SF] as a sign, a mantissa and an exponent; the operations
    of [binary64] are those of the standard library's specification
    ([SFadd], [SFsub], [SFmul], [SFdiv]), which round to nearest, ties to
    even. *)

Section DoubleValues.

Local Open Scope R_scope.

(** [x] lies in the unit interval that starts at [m], at the place [l]
    tells: at its start, below, at or above its middle. *)
Definition inbetween (m : Z) (l : location) (x : R) : Prop :=
  match l with
  | loc_Exact => x = IZR m
  | loc_Inexact Lt => IZR m < x < IZR m + / 2
  | loc_Inexact Eq => x = IZR m + / 2
  | loc_Inexact Gt => IZR m + / 2 < x < IZR m + 1
  end.

Definition pow2 (e : Z) : R := powerRZ 2 e.

Definition sign (s : bool) : R := if s then -1 else 1.

(** The real number a double stands for; 0 for those that stand for
    none. *)
Definition SF2R (x : spec_float) : R :=
  match x with
  | S754_finite s m e => sign s * (IZR (Zpos m) * pow2 e)
  | _ => 0
  end.

(** Zero, or a finite double in canonical form. *)
Definition double (f : spec_float) : Prop :=
  match f with
  | S754_zero _ => True
  | S754_finite _ m e =>
      (Zpos m < 2 ^ 53)%Z /\ (-1074 <= e <= 971)%Z
      /\ (2 ^ 52 <= Zpos m \/ e = (-1074)%Z)%Z
  | _ => False
  end.

(** [z] is a normal double with exponent from [lo] to [hi]. *)
Definition normal (lo hi : Z) (z : spec_float) : Prop :=
  match z with
  | S754_finite _ m e => (2 ^ 52 <= Zpos m < 2 ^ 53)%Z /\ (lo <= e <= hi)%Z
  | _ => False
  end.

(** [z] is the double that [X], not zero, is rounded to: normal, within
    the relative error 2^-53 of [X], nearest to [X] among the doubles, of
    the sign of [X]. *)
Definition rounded (z : spec_float) (X : R) : Prop :=
  normal (-1074) 971 z
  /\ Rabs (SF2R z - X) <= pow2 (-53) * Rabs X
  /\ (forall f, double f -> Rabs (SF2R z - X) <= Rabs (SF2R f - X))
  /\ 0 < SF2R z * X.

(** Zero, or a normal double with exponent from [lo] to [hi]. *)
Definition moderate (lo hi : Z) (z : spec_float) : Prop :=
  match z with
  | S754_zero _ => True
  | _ => normal lo hi z
  end.

(** [z] is what an operation returns when [X] is what it computes
    exactly: a zero when [X] is zero, the double [X] is rounded to
    otherwise. *)
Definition rounding (z : spec_float) (X : R) : Prop :=
  match z with
  | S754_zero _ => X = 0
  | _ => rounded z X
  end.

(** The real number a double stands for (zero for what is not finite). *)
Definition B2R (v : float) : R := SF2R (Prim2SF v).

(** [v] is a normal double with [2^lo <= |v| < 2^hi]. *)
Definition magnitude (lo hi : Z) (v : float) : Prop :=
  normal (lo - 52) (hi - 53) (Prim2SF v).

(** [v] is a zero. *)
Definition isZero (v : float) : Prop :=
  match Prim2SF v with S754_zero _ => True | _ => False end.

(** An entry of a linear category, as a double: truthy, normal, from 2^-20
    to 2^25 in magnitude. *)
Definition isFloatFactor (entry : string * @jsval float) : bool :=
  match snd entry with
  | JNum f =>
      negb (falsy (arith := binary64) f)
      && match Prim2SF f with
         | S754_finite _ m e =>
             ((2 ^ 52 <=? Zpos m) && (Zpos m <? 2 ^ 53)
              && (-72 <=? e) && (e <=? -28))%Z
         | _ => false
         end
  | _ => false
  end.

(** [t] is a double, zero or normal with exponent from [l] to [h], that
    stands for [T] up to [k] roundings of numbers that [B] bounds. *)
Definition near (l h : Z) (k B : R) (t : float) (T : R) : Prop :=
  moderate l h (Prim2SF t) /\ 0 <= k
  /\ Rabs (B2R t - T) <= k * (pow2 (-53) * B).

End DoubleValues.

(** The three scales of [convertTemperature], and its two halves: to
    Celsius, and from Celsius. *)
Inductive Scale : Type := Celsius | Fahrenheit | Kelvin.

Definition scaleOf (unit : string) : option Scale :=
  let u := Str.toLowerCase unit in
  if isCelsius u then Some Celsius
  else if isFahrenheit u then Some Fahrenheit
  else if isKelvin u then Some Kelvin
  else None.

Definition toCelsius {num} `{Arith num} (s : Scale) (value : num) : num :=
  match s with
  | Celsius => value
  | Fahrenheit => ((value - int 32) * int 5 / int 9)%num
  | Kelvin => (value - ofDecimal 27315 2)%num
  end.

Definition fromCelsius {num} `{Arith num} (s : Scale) (celsius : num) : num :=
  match s with
  | Celsius => celsius
  | Fahrenheit => ((celsius * int 9 / int 5) + int 32)%num
  | Kelvin => (celsius + ofDecimal 27315 2)%num
  end.

(** * Properties *)

(** ** The scenarios of the specification, on the code *)

Section Scenarios.

Context {num : Type} {arith : Arith num} {host : Host (num := num)}.

Lemma clean_15_plus_27 : cleanInput "What is 15 plus 27?" = "what is 15 plus 27".
Proof. reflexivity. Qed.

(** The letters [l] (of [plus]) and [s] (of [is]) are unit names: the text
    is taken for a conversion from litres to seconds. *)
Lemma units_15_plus_27 :
  containsUnitKeywords (num := num) "what is 15 plus 27" = true
  /\ extractUnits (num := num) "what is 15 plus 27"
     = {| fromUnit := Some "l"; toUnit := Some "s"; category := Some "volume" |}.
Proof. split; reflexivity. Qed.

(** C1 (the code departs from it).  On a new agent, [calculate] answers
    "What is 15 plus 27?" with a failure: the request is routed to the unit
    conversion, which finds the units [l] and [s] and rejects them.  No
    success with result 42 is returned. *)
Theorem calculate_what_is_15_plus_27 :
  forall w : World,
    calculate w newAgent "What is 15 plus 27?"
    = (failurePayload w "What is 15 plus 27?"
         "Unsupported unit conversion: l to s", newAgent).
Proof.
  intro w.
  unfold calculate, attempt.
  rewrite clean_15_plus_27.
  change (substituteAns newAgent "what is 15 plus 27") with "what is 15 plus 27".
  assert (E : parseRequest "what is 15 plus 27"
              = Throw "Unsupported unit conversion: l to s").
  { unfold parseRequest.
    change (isNaturalLanguage "what is 15 plus 27") with true.
    change (containsGraphKeywords "what is 15 plus 27") with false.
    destruct units_15_plus_27 as [-> U].
    cbn iota. unfold parseUnitConversion. rewrite U.
    change (extractNumbers "what is 15 plus 27") with [int 15; int 27].
    cbn [fromUnit toUnit category].
    unfold convertUnit.
    change (equalsText (Some "volume") "temperature") with false.
    cbn iota.
    destruct (lookup "volume" unitConversions) as [units|] eqn:L; [|reflexivity].
    assert (F : factorOf units "s" = None)
      by (cbv in L; injection L as <-; reflexivity).
    rewrite F. destruct (factorOf units "l"); reflexivity. }
  rewrite E. reflexivity.
Qed.

Lemma calculate_text_request :
  forall w a input e t,
    parseRequest (substituteAns a (cleanInput input)) = Ok (TextRequest e t) ->
    String.eqb t "graphing" = false ->
    calculate w a input = evaluated w a input (TextRequest e t) e.
Proof.
  intros w a input e t P T.
  unfold calculate, attempt, evaluated. rewrite P. cbn [bind requestType isValidExpression].
  rewrite T. cbn [negb andb].
  destruct (mathCompile e); cbn [negb bind]; [|reflexivity].
  unfold perform, evaluateExpression.
  destruct (mathEvaluate e); reflexivity.
Qed.

(** The letter [c] of [convert] is a unit name (Celsius), and so is the
    [c] of [celsius]: both units are read as [c]. *)
Lemma units_convert_32 :
  extractUnits (num := num) "convert 32 fahrenheit to celsius"
  = {| fromUnit := Some "c"; toUnit := Some "c"; category := Some "temperature" |}.
Proof. reflexivity. Qed.

(** C2 (the code departs from it).  For "convert 32 fahrenheit to celsius"
    the extractor reads both units as [c] and converts 32 to 32, not to 0;
    [calculate] drops that value and the units, hands the text
    ["32 c to c"] to the expression evaluator and returns what it yields;
    the payload has no [toUnit]. *)
Theorem calculate_convert_32_fahrenheit :
  forall w : World,
    let input := "convert 32 fahrenheit to celsius" in
    let e := numberToString (int 32) ++ " c to c" in
    parseUnitConversion input
    = Ok {| expression := e;
            operationType := "unit conversion";
            parsedResult := Some (int 32);
            parsedUnits := {| fromUnit := Some "c"; toUnit := Some "c";
                              category := Some "temperature" |} |}
    /\ calculate w newAgent input
       = evaluated w newAgent input (TextRequest e "unit conversion") e
    /\ lookup "toUnit" (fst (calculate w newAgent input)) = None.
Proof.
  intros w input e.
  assert (P : parseUnitConversion input
              = Ok {| expression := e;
                      operationType := "unit conversion";
                      parsedResult := Some (int 32);
                      parsedUnits := {| fromUnit := Some "c"; toUnit := Some "c";
                                        category := Some "temperature" |} |}).
  { unfold parseUnitConversion, input. rewrite units_convert_32. reflexivity. }
  assert (C : calculate w newAgent input
              = evaluated w newAgent input (TextRequest e "unit conversion") e).
  { apply calculate_text_request; [|reflexivity].
    change (substituteAns newAgent (cleanInput input)) with input.
    unfold parseRequest.
    change (isNaturalLanguage input) with true.
    change (containsGraphKeywords input) with false.
    change (containsUnitKeywords (num := num) input) with true.
    cbn iota. rewrite P. reflexivity. }
  split; [exact P|]. split; [exact C|].
  rewrite C. unfold evaluated.
  destruct (mathCompile e); [destruct (mathEvaluate e)|]; reflexivity.
Qed.

(** C3 (the code departs from it).  "tan 45" is routed to the trigonometry
    extractor, which computes the tangent of 45 degrees; [calculate] uses
    that call only to see whether it throws, drops its value, and returns
    what the evaluator yields for the text ["tan(45)"], the same text a
    literal request evaluates, where the library reads the argument in
    radians. *)
Theorem calculate_tan_45 :
  forall w : World,
    let e := "tan(" ++ numberToString (int 45) ++ ")" in
    calculate w newAgent "tan 45"
    = match mathDegrees "tan" (Some (int 45)) with
      | Ok _ => evaluated w newAgent "tan 45" (TextRequest e "trigonometry") e
      | Throw m => (failurePayload w "tan 45" m, newAgent)
      end.
Proof.
  intros w e.
  assert (P : parseRequest "tan 45"
              = (parsed <- parseTrigonometryRequest "tan 45" ;; Ok (textOf parsed))%result).
  { unfold parseRequest.
    change (isNaturalLanguage "tan 45") with true.
    change (containsGraphKeywords "tan 45") with false.
    change (containsUnitKeywords (num := num) "tan 45") with false.
    reflexivity. }
  unfold parseTrigonometryRequest in P.
  change (extractNumbers "tan 45") with [int 45] in P.
  change (detectTrigFunction "tan 45") with "tan" in P.
  cbn [hd_error] in P.
  destruct (mathDegrees "tan" (Some (int 45))) as [d|m] eqn:D.
  - apply calculate_text_request; [|reflexivity].
    change (substituteAns newAgent (cleanInput "tan 45")) with "tan 45".
    rewrite P. reflexivity.
  - unfold calculate, attempt.
    change (substituteAns newAgent (cleanInput "tan 45")) with "tan 45".
    rewrite P. reflexivity.
Qed.

End Scenarios.

(** ** Failures are returned, never thrown, and leave the memory alone *)

Section Failures.

Context {num : Type} {arith : Arith num} {host : Host (num := num)}.

(** A successful run of the [try] block: the request was parsed and
    performed, and the payload and the memory are built from it. *)
Lemma attempt_ok :
  forall w a input payload a',
    attempt w a input = Ok (payload, a') ->
    exists r value additionalData,
      parseRequest (substituteAns a (cleanInput input)) = Ok r
      /\ perform w r = Ok (value, additionalData)
      /\ payload = successPayload w input r value additionalData
      /\ a' = remember w input r value a.
Proof.
  intros w a input payload a'. unfold attempt.
  destruct (parseRequest _) as [r|m] eqn:R; cbn [bind]; [|discriminate].
  destruct (negb _ && negb _); cbn [bind]; [discriminate|].
  destruct (perform w r) as [[value extra]|m] eqn:P; cbn [bind]; [|discriminate].
  intro E. injection E as <- <-.
  exists r, value, extra. repeat split; assumption.
Qed.

(** A key looked up in an object literal is one of its keys, or is not
    found. *)
Ltac own_keys k :=
  cbn [lookup];
  repeat match goal with
         | |- context [String.eqb k ?s] =>
             destruct (String.eqb_spec k s) as [->|_]; [intros _; cbn; tauto|]
         end;
  let N := fresh "N" in intro N; exfalso; apply N; reflexivity.

(** The additional data of a payload is about the plot only. *)
Lemma perform_additional :
  forall w r value additionalData,
    perform w r = Ok (value, additionalData) ->
    forall k,
      lookup k additionalData <> None ->
      In k ["graphType"; "from"; "to"; "points"; "dataPoints"].
Proof.
  intros w r value extra P k.
  destruct r as [e t|[body from to|x y|data]]; cbn [perform] in P.
  - destruct (evaluateExpression e); cbn [bind] in P; [|discriminate].
    injection P as <- <-. intro N. exfalso. apply N. reflexivity.
  - destruct (generateFunctionPlot w body from to); cbn [bind] in P; [|discriminate].
    injection P as <- <-. own_keys k.
  - destruct (generateScatterPlot w x y); cbn [bind] in P; [|discriminate].
    injection P as <- <-. own_keys k.
  - destruct (generateHistogram w data); cbn [bind] in P; [|discriminate].
    injection P as <- <-. own_keys k.
Qed.



End Failures.

(** ** The history ledger *)

Section Ledger.

Context {num : Type} {arith : Arith num} {host : Host (num := num)}.

Local Open Scope nat_scope.

Lemma lastN_length :
  forall (A : Type) (n : nat) (l : list A),
    List.length (lastN n l) = Nat.min n (List.length l).
Proof. intros A n l. unfold lastN. rewrite length_skipn. lia. Qed.

Lemma lastN_app_lastN :
  forall (A : Type) (n : nat) (l es : list A),
    lastN n (lastN n l ++ es)%list = lastN n (l ++ es)%list.
Proof.
  intros A n l es. unfold lastN.
  set (k := List.length l - n).
  assert (K : (skipn k l ++ es)%list = skipn k (l ++ es)%list).
  { rewrite skipn_app. replace (k - List.length l) with 0 by lia. reflexivity. }
  rewrite K, skipn_skipn. f_equal.
  rewrite length_skipn, length_app. lia.
Qed.

(** [addHistoryEntry] keeps the newest [historyLimit] entries. *)
Lemma addHistoryEntry_history :
  forall (e : @HistoryEntry num) (a : @CalculatorAgent num),
    List.length (history a) <= historyLimit a ->
    history (addHistoryEntry e a) = lastN (historyLimit a) (history a ++ [e])%list.
Proof.
  intros e a B. unfold addHistoryEntry, lastN. cbn [history].
  rewrite length_app. cbn [List.length].
  destruct (Nat.ltb_spec (historyLimit a) (List.length (history a) + 1)) as [L|L].
  - replace (List.length (history a) + 1 - historyLimit a) with 1 by lia.
    destruct (history a ++ [e])%list; reflexivity.
  - replace (List.length (history a) + 1 - historyLimit a) with 0 by lia.
    reflexivity.
Qed.

(** A payload has one ledger entry when it reports a success, none
    otherwise. *)
Lemma calculate_entry :
  forall (w : World) (a : CalculatorAgent) (input : string),
    let payload := fst (calculate w a input) in
    List.length (entryOf payload) = (if succeeded payload then 1 else 0).
Proof.
  intros w a input. unfold calculate.
  destruct (attempt w a input) as [[payload a']|message] eqn:E; cbn [fst snd].
  - destruct (attempt_ok _ _ _ E) as (r & value & extra & _ & _ & -> & _).
    reflexivity.
  - reflexivity.
Qed.

(** One request: a success appends its entry, the oldest entry leaving a
    full ledger; a failure appends nothing. *)
Lemma calculate_ledger :
  forall (w : World) (a : CalculatorAgent) (input : string),
    List.length (history a) <= historyLimit a ->
    let payload := fst (calculate w a input) in
    let a' := snd (calculate w a input) in
    history a' = lastN (historyLimit a) (history a ++ entryOf payload)%list
    /\ historyLimit a' = historyLimit a.
Proof.
  intros w a input B. unfold calculate.
  destruct (attempt w a input) as [[payload a']|message] eqn:E; cbn [fst snd].
  - destruct (attempt_ok _ _ _ E) as (r & value & extra & _ & _ & -> & ->).
    unfold remember.
    change (entryOf (successPayload w input r value extra))
      with [ {| entryInput := input; entryExpression := payloadExpression r;
                entryOperationType := requestType r; entryResult := value;
                entryTimestamp := isoTimestamp w |} ].
    split; [|destruct value; reflexivity].
    rewrite addHistoryEntry_history; destruct value; cbn [history historyLimit];
      solve [reflexivity | exact B].
  - cbn. rewrite app_nil_r. unfold lastN.
    replace (List.length (history a) - historyLimit a) with 0 by lia.
    repeat split; reflexivity.
Qed.

Lemma session_ledger :
  forall (requests : list (World * string)) (a : CalculatorAgent)
         (log : list (@HistoryEntry num)),
    history a = lastN (historyLimit a) log ->
    let payloads := fst (session requests a) in
    let a' := snd (session requests a) in
    history a' = lastN (historyLimit a) (log ++ List.flat_map entryOf payloads)%list
    /\ historyLimit a' = historyLimit a.
Proof.
  induction requests as [|[w input] rest IH]; intros a log H; cbn [session].
  - cbn. rewrite app_nil_r. split; [exact H | reflexivity].
  - assert (B : List.length (history a) <= historyLimit a)
      by (rewrite H, lastN_length; lia).
    destruct (@calculate_ledger w a input B) as (H1 & L1).
    destruct (calculate w a input) as [payload a1]; cbn [fst snd] in *.
    specialize (IH a1 (log ++ entryOf payload)%list).
    rewrite L1 in IH.
    destruct (session rest a1) as [payloads a2]; cbn [fst snd] in *.
    cbn [List.flat_map].
    rewrite app_assoc.
    apply IH. rewrite H1, H. apply lastN_app_lastN.
Qed.

(** C5.  After any run of requests on a new agent the ledger holds the
    newest 50 of the entries of the successful requests, one entry each, in
    their order: never more than 50 entries, and, once more than 50 requests
    have succeeded, exactly 50, the oldest entry being gone (it occurs in the
    ledger only if a later request left an equal entry). *)
Theorem history_bound :
  forall (requests : list (World * string)) (payloads : list object)
         (a : CalculatorAgent),
    session requests newAgent = (payloads, a) ->
    let ledger := List.flat_map entryOf payloads in
    List.length ledger = List.length (List.filter succeeded payloads)
    /\ List.length (history a) <= 50
    /\ history a = lastN 50 ledger
    /\ (50 < List.length ledger ->
        List.length (history a) = 50
        /\ forall oldest later,
             ledger = oldest :: later -> ~ In oldest later ->
             ~ In oldest (history a)).
Proof.
  intros requests payloads a Run ledger.
  assert (H : history a = lastN 50 ledger).
  { pose proof (@session_ledger requests newAgent [] eq_refl) as [H _].
    rewrite Run in H. exact H. }
  split; [|split; [rewrite H, lastN_length; lia | split; [exact H|]]].
  - clear H. revert payloads a Run ledger.
    generalize (@newAgent num).
    induction requests as [|[w input] rest IH]; intros a0 payloads a Run; cbn [session] in Run.
    + injection Run as <- <-. reflexivity.
    + pose proof (@calculate_entry w a0 input) as L.
      destruct (calculate w a0 input) as [payload a1]; cbn [fst snd] in L.
      destruct (session rest a1) as [ps a2] eqn:R.
      injection Run as <- <-. cbn [List.flat_map List.filter].
      rewrite length_app, (IH _ _ _ R), L.
      destruct (succeeded payload); cbn [List.length]; lia.
  - intro Big. split; [rewrite H, lastN_length; lia|].
    intros oldest later E N I. rewrite H in I. unfold lastN in I.
    rewrite E in I, Big. cbn [List.length] in *.
    replace (S (List.length later) - 50) with (S (List.length later - 50)) in I by lia.
    cbn [skipn] in I. apply N.
    rewrite <- (firstn_skipn (List.length later - 50) later).
    apply in_or_app. right. exact I.
Qed.

End Ledger.

(** ** The last answer *)

Section LastAnswer.

Context {num : Type} {arith : Arith num} {host : Host (num := num)}.

Local Open Scope nat_scope.





Lemma remember_lastAnswer :
  forall w input (r : @Request num) value (a : @CalculatorAgent num),
    lastAnswer (remember w input r value a)
    = match value with JNum n => Some n | _ => lastAnswer a end.
Proof. intros w input r value a. destruct value; reflexivity. Qed.

(** The last answer after a request is the result of the request when it
    is a Number, and the last answer before it otherwise. *)
Lemma calculate_lastAnswer :
  forall (w : World) (a : CalculatorAgent) (input : string),
    lastAnswer (snd (calculate w a input))
    = match lookup "result" (fst (calculate w a input)) with
      | Some (JNum n) => Some n
      | _ => lastAnswer a
      end.
Proof.
  intros w a input. unfold calculate.
  destruct (attempt w a input) as [[payload a']|message] eqn:E; cbn [fst snd].
  - destruct (attempt_ok _ _ _ E) as (r & value & extra & _ & _ & -> & ->).
    rewrite remember_lastAnswer. reflexivity.
  - reflexivity.
Qed.








End LastAnswer.

(** ** The scatter extractor *)

Section Scatter.

Context {num : Type} {arith : Arith num}.

Local Open Scope nat_scope.

Lemma filterByParity_step :
  forall (A : Type) (parity index : nat) (l : list A),
    filterByParity parity (S (S index)) l = filterByParity parity index l.
Proof.
  intros A parity index l. revert index.
  induction l as [|v rest IH]; intro index; cbn [filterByParity]; [reflexivity|].
  replace (S (S index) mod 2) with (index mod 2)
    by (change (S (S index)) with (2 + index);
        rewrite <- (Nat.Div0.add_mod_idemp_l 2 index 2); reflexivity).
  rewrite !IH. reflexivity.
Qed.

(** The values kept for a parity, from an even and from an odd position. *)
Lemma filterByParity_nth :
  forall (A : Type) (l : list A) (i : nat),
    nth_error (filterByParity 0 0 l) i = nth_error l (2 * i)
    /\ nth_error (filterByParity 1 0 l) i = nth_error l (2 * i + 1)
    /\ nth_error (filterByParity 0 1 l) i = nth_error l (2 * i + 1)
    /\ nth_error (filterByParity 1 1 l) i = nth_error l (2 * i).
Proof.
  induction l as [|v rest IH]; intro i.
  - cbn [filterByParity]. rewrite !nth_error_nil. tauto.
  - cbn [filterByParity]. change (0 mod 2 =? 0) with true.
    change (0 mod 2 =? 1) with false. change (1 mod 2 =? 0) with false.
    change (1 mod 2 =? 1) with true. cbn iota.
    rewrite !filterByParity_step.
    replace (2 * i + 1) with (S (2 * i)) by lia. cbn [nth_error].
    destruct (IH i) as (E0 & O0 & E1 & O1).
    destruct i as [|j].
    + cbn [nth_error Nat.mul]. repeat split; assumption.
    + replace (2 * S j) with (S (S (2 * j))) by lia. cbn [nth_error].
      destruct (IH j) as (F0 & G0 & F1 & G1).
      replace (2 * j + 1) with (S (2 * j)) in * by lia.
      replace (2 * S j) with (S (S (2 * j))) in * by lia.
      repeat split; assumption.
Qed.

Lemma filterByParity_length :
  forall (A : Type) (l : list A),
    List.length (filterByParity 0 0 l) = Nat.div2 (S (List.length l))
    /\ List.length (filterByParity 1 0 l) = Nat.div2 (List.length l)
    /\ List.length (filterByParity 0 1 l) = Nat.div2 (List.length l)
    /\ List.length (filterByParity 1 1 l) = Nat.div2 (S (List.length l)).
Proof.
  induction l as [|v rest (E0 & O0 & E1 & O1)].
  - repeat split; reflexivity.
  - cbn [filterByParity]. change (0 mod 2 =? 0) with true.
    change (0 mod 2 =? 1) with false. change (1 mod 2 =? 0) with false.
    change (1 mod 2 =? 1) with true. cbn iota.
    rewrite !filterByParity_step. cbn [List.length Nat.div2].
    rewrite E0, O0, E1, O1. repeat split; reflexivity.
Qed.

(** C8, as the code has it.  The scatter extractor rejects fewer than
    four numeric literals and accepts every larger count, even or odd.  From
    [n] literals it makes the x-values of those at the even positions and the
    y-values of those at the odd positions, in their order: the [i]-th point
    is the pair of the literals [2i] and [2i+1]; there are [n/2] y-values and
    as many x-values, one more when [n] is odd; for [2k] literals, [k] and
    [k]. *)
Theorem parseScatterPlot_parity :
  forall input : string,
    let numbers := extractNumbers input in
    let n := List.length numbers in
    (n < 4 ->
     parseScatterPlot input
     = Throw "Scatter plot requires at least 2 data points (4 numbers)")
    /\ (4 <= n ->
        exists x y : list num,
          parseScatterPlot input = Ok (ScatterPlot x y)
          /\ List.length x = Nat.div2 (S n)
          /\ List.length y = Nat.div2 n
          /\ (forall i, nth_error x i = nth_error numbers (2 * i))
          /\ (forall i, nth_error y i = nth_error numbers (2 * i + 1))
          /\ (forall k, n = 2 * k -> List.length x = k /\ List.length y = k)).
Proof.
  intros input numbers n. unfold parseScatterPlot. fold numbers. fold n.
  split; intro B.
  - destruct (Nat.ltb_spec n 4); [reflexivity|lia].
  - destruct (Nat.ltb_spec n 4); [lia|].
    exists (filterByParity 0 0 numbers), (filterByParity 1 0 numbers).
    destruct (filterByParity_length numbers) as (LX & LY & _).
    fold n in LX, LY.
    split; [reflexivity|]. split; [exact LX|]. split; [exact LY|].
    split; [intro i; apply filterByParity_nth|].
    split; [intro i; apply filterByParity_nth|].
    intros k K. rewrite LX, LY, K.
    rewrite Nat.div2_succ_double, Nat.div2_double. split; reflexivity.
Qed.

End Scatter.

(** ** Normalisation and classification *)

Section Normalisation.

Lemma lowerChar_not_upper : forall c : ascii, Str.isUpper (Str.lowerChar c) = false.
Proof. intros [[] [] [] [] [] [] [] []]; reflexivity. Qed.

Lemma lowerChar_space : forall c : ascii, Str.isSpace (Str.lowerChar c) = Str.isSpace c.
Proof. intros [[] [] [] [] [] [] [] []]; reflexivity. Qed.

Lemma toLowerCase_not_upper :
  forall s, Str.forallb (fun c => negb (Str.isUpper c)) (Str.toLowerCase s) = true.
Proof.
  induction s as [|c s IH]; [reflexivity|].
  cbn. rewrite lowerChar_not_upper. exact IH.
Qed.

Lemma forallb_trimStart :
  forall p s, Str.forallb p s = true -> Str.forallb p (Str.trimStart s) = true.
Proof.
  induction s as [|c s IH]; [reflexivity|]. cbn [Str.trimStart].
  destruct (Str.isSpace c); [|trivial].
  cbn. intro H. apply andb_prop in H. apply IH, H.
Qed.

Lemma forallb_trimEnd :
  forall p s, Str.forallb p s = true -> Str.forallb p (Str.trimEnd s) = true.
Proof.
  induction s as [|c s IH]; [reflexivity|]. cbn [Str.trimEnd Str.forallb].
  intro H. apply andb_prop in H. destruct H as [H1 H2].
  destruct (Str.isSpace c && Str.isEmpty (Str.trimEnd s)); [reflexivity|].
  cbn. rewrite H1. apply IH, H2.
Qed.

Lemma forallb_filter_kept :
  forall s,
    Str.forallb (fun c => negb (Str.isUpper c)) s = true ->
    Str.forallb (fun c => keptByCleanInput c && negb (Str.isUpper c))
      (Str.filter keptByCleanInput s) = true.
Proof.
  induction s as [|c s IH]; [reflexivity|]. cbn [Str.filter Str.forallb].
  intro H. apply andb_prop in H. destruct H as [H1 H2].
  destruct (keptByCleanInput c) eqn:K; [|apply IH, H2].
  cbn [Str.forallb]. rewrite K, H1. apply IH, H2.
Qed.


(** What [collapseSpaces] returns is in normal form. *)
Lemma collapseSpaces_normal :
  forall s b,
    Str.forallb (fun c => keptByCleanInput c && negb (Str.isUpper c)) s = true ->
    normalFrom b (collapseSpaces b s) = true.
Proof.
  induction s as [|c s IH]; intros b H; [reflexivity|].
  cbn [Str.forallb] in H. apply andb_prop in H. destruct H as [H1 H2].
  cbn [collapseSpaces].
  destruct (Str.isSpace c) eqn:W.
  - destruct b; [apply IH, H2|].
    cbn [normalFrom]. rewrite (IH true H2). reflexivity.
  - cbn [normalFrom]. rewrite H1, W. apply IH, H2.
Qed.

Lemma cleanInput_normal : forall input, normalFrom false (cleanInput input) = true.
Proof.
  intro input. unfold cleanInput. apply collapseSpaces_normal.
  apply forallb_filter_kept. unfold Str.trim.
  apply forallb_trimEnd, forallb_trimStart, toLowerCase_not_upper.
Qed.

Lemma normalFrom_weaken : forall s, normalFrom true s = true -> normalFrom false s = true.
Proof.
  intros [|c s]; [reflexivity|]. cbn [normalFrom].
  destruct (Str.isSpace c); [|trivial].
  rewrite !andb_true_iff. intros [K [[E B] N]]. discriminate B.
Qed.

Lemma normalFrom_trimStart :
  forall s b, normalFrom b s = true -> normalFrom false (Str.trimStart s) = true.
Proof.
  induction s as [|c s IH]; intros b H; [reflexivity|].
  cbn [Str.trimStart]. destruct (Str.isSpace c) eqn:W.
  - cbn [normalFrom] in H. rewrite W in H.
    rewrite !andb_true_iff in H. destruct H as [_ [_ N]]. exact (IH true N).
  - cbn [normalFrom] in *. rewrite W in *. exact H.
Qed.

Lemma normalFrom_trimEnd :
  forall s b, normalFrom b s = true -> normalFrom b (Str.trimEnd s) = true.
Proof.
  induction s as [|c s IH]; intros b H; [reflexivity|].
  cbn [Str.trimEnd].
  destruct (Str.isSpace c && Str.isEmpty (Str.trimEnd s)); [reflexivity|].
  cbn [normalFrom] in *.
  destruct (keptByCleanInput c && negb (Str.isUpper c)); [|discriminate].
  cbn [andb] in *.
  destruct (Str.isSpace c).
  - rewrite !andb_true_iff in *. destruct H as [[E B] N].
    repeat split; try assumption. apply IH, N.
  - apply IH, H.
Qed.

(** On a text in normal form the three rewriting steps of [cleanInput]
    change nothing. *)
Lemma normal_fixed :
  forall s b,
    normalFrom b s = true ->
    Str.toLowerCase s = s
    /\ Str.filter keptByCleanInput s = s
    /\ collapseSpaces b s = s.
Proof.
  induction s as [|c s IH]; intros b H; [repeat split; reflexivity|].
  cbn [normalFrom] in H. rewrite !andb_true_iff in H.
  destruct H as [[K U] N].
  cbn [Str.toLowerCase Str.map Str.filter collapseSpaces].
  fold Str.toLowerCase. unfold Str.lowerChar. rewrite K.
  apply negb_true_iff in U. rewrite U.
  destruct (Str.isSpace c) eqn:W.
  - rewrite !andb_true_iff in N. destruct N as [[E B] N].
    apply negb_true_iff in B. subst b.
    apply Ascii.eqb_eq in E. subst c.
    destruct (IH true N) as (L & F & C). rewrite L, F, C.
    repeat split; reflexivity.
  - destruct (IH false N) as (L & F & C). rewrite L, F, C.
    repeat split; reflexivity.
Qed.

Lemma cleanInput_of_normal :
  forall s, normalFrom false s = true -> cleanInput s = Str.trim s.
Proof.
  intros s N. unfold cleanInput.
  destruct (normal_fixed _ _ N) as (L & _ & _). rewrite L.
  assert (T : normalFrom false (Str.trim s) = true)
    by (apply normalFrom_trimEnd, (normalFrom_trimStart _ _ N)).
  destruct (normal_fixed _ _ T) as (_ & F & C). rewrite F, C. reflexivity.
Qed.

(** *** Trimming does not change what a text contains *)

Lemma existsb_trimStart :
  forall p s,
    (forall c, p c = true -> Str.isSpace c = false) ->
    Str.existsb p (Str.trimStart s) = Str.existsb p s.
Proof.
  intros p s P. induction s as [|c s IH]; [reflexivity|].
  cbn [Str.trimStart Str.existsb].
  destruct (Str.isSpace c) eqn:W; [|reflexivity].
  destruct (p c) eqn:E; [rewrite (P c E) in W; discriminate|exact IH].
Qed.

Lemma trimEnd_empty :
  forall s, Str.isEmpty (Str.trimEnd s) = Str.forallb Str.isSpace s.
Proof.
  induction s as [|c s IH]; [reflexivity|].
  cbn [Str.trimEnd Str.forallb]. rewrite <- IH.
  destruct (Str.isSpace c), (Str.isEmpty (Str.trimEnd s)); reflexivity.
Qed.

Lemma existsb_spaces :
  forall p s,
    (forall c, p c = true -> Str.isSpace c = false) ->
    Str.forallb Str.isSpace s = true -> Str.existsb p s = false.
Proof.
  intros p s P. induction s as [|c s IH]; [reflexivity|].
  cbn. intro H. apply andb_prop in H. destruct H as [W H].
  destruct (p c) eqn:E; [rewrite (P c E) in W; discriminate|apply IH, H].
Qed.

Lemma existsb_trimEnd :
  forall p s,
    (forall c, p c = true -> Str.isSpace c = false) ->
    Str.existsb p (Str.trimEnd s) = Str.existsb p s.
Proof.
  intros p s P. induction s as [|c s IH]; [reflexivity|].
  cbn [Str.trimEnd].
  destruct (Str.isSpace c && Str.isEmpty (Str.trimEnd s)) eqn:D.
  - apply andb_prop in D. destruct D as [W D]. rewrite trimEnd_empty in D.
    symmetry. apply existsb_spaces; [exact P|]. cbn. rewrite W. exact D.
  - cbn [Str.existsb]. rewrite IH. reflexivity.
Qed.

Lemma existsb_trim :
  forall p s,
    (forall c, p c = true -> Str.isSpace c = false) ->
    Str.existsb p (Str.trim s) = Str.existsb p s.
Proof.
  intros p s P. unfold Str.trim.
  rewrite existsb_trimEnd, existsb_trimStart by exact P. reflexivity.
Qed.

Lemma endsSolid_not_spaces :
  forall k, endsSolid k = true -> Str.forallb Str.isSpace k = false.
Proof.
  induction k as [|c k IH]; [discriminate|].
  destruct k as [|d k].
  - cbn. intro H. apply negb_true_iff in H. rewrite H. reflexivity.
  - intro H. change (endsSolid (String c (String d k))) with (endsSolid (String d k)) in H.
    cbn [Str.forallb] in *. rewrite (IH H). apply andb_false_r.
Qed.

Lemma prefix_spaces :
  forall k s,
    Str.prefix k s = true -> Str.forallb Str.isSpace s = true ->
    Str.forallb Str.isSpace k = true.
Proof.
  induction k as [|a k IH]; intros [|c s] P W; try reflexivity; try discriminate.
  cbn in P, W |- *. apply andb_prop in P. destruct P as [E P].
  apply andb_prop in W. destruct W as [W1 W2].
  apply Ascii.eqb_eq in E. subst a. rewrite W1. exact (IH _ P W2).
Qed.

Lemma prefix_of_spaces :
  forall k s,
    endsSolid k = true -> Str.forallb Str.isSpace s = true ->
    Str.prefix k s = false.
Proof.
  intros k s K W. destruct (Str.prefix k s) eqn:P; [|reflexivity].
  pose proof (prefix_spaces _ _ P W) as H. rewrite (endsSolid_not_spaces _ K) in H.
  discriminate.
Qed.

Lemma includes_of_spaces :
  forall k s,
    endsSolid k = true -> Str.forallb Str.isSpace s = true ->
    Str.includes s k = false.
Proof.
  intros k s K. induction s as [|c s IH]; intro W.
  - cbn. destruct k; [discriminate|reflexivity].
  - cbn [Str.includes]. rewrite (prefix_of_spaces _ _ K W).
    cbn in W. apply andb_prop in W. apply IH, W.
Qed.

Lemma endsSolid_tail :
  forall a k, endsSolid (String a k) = true -> k = EmptyString \/ endsSolid k = true.
Proof. intros a [|d k] H; [left; reflexivity|right; exact H]. Qed.

Lemma prefix_trimEnd :
  forall s k,
    k = EmptyString \/ endsSolid k = true ->
    Str.prefix k (Str.trimEnd s) = Str.prefix k s.
Proof.
  induction s as [|c s IH]; intros k K; [reflexivity|].
  destruct k as [|a k]; [destruct (Str.trimEnd _); reflexivity|].
  destruct K as [K|K]; [discriminate|].
  cbn [Str.trimEnd].
  destruct (Str.isSpace c && Str.isEmpty (Str.trimEnd s)) eqn:D.
  - apply andb_prop in D. destruct D as [W D]. rewrite trimEnd_empty in D.
    symmetry. apply prefix_of_spaces; [exact K|]. cbn. rewrite W. exact D.
  - cbn [Str.prefix]. rewrite (IH k (endsSolid_tail _ _ K)). reflexivity.
Qed.

Lemma includes_trimEnd :
  forall k s, endsSolid k = true -> Str.includes (Str.trimEnd s) k = Str.includes s k.
Proof.
  intros k s K. induction s as [|c s IH]; [reflexivity|].
  pose proof (@prefix_trimEnd (String c s) k (or_intror K)) as P.
  cbn [Str.trimEnd] in *.
  destruct (Str.isSpace c && Str.isEmpty (Str.trimEnd s)) eqn:D.
  - apply andb_prop in D. destruct D as [W D]. rewrite trimEnd_empty in D.
    assert (A : Str.forallb Str.isSpace (String c s) = true)
      by (cbn; rewrite W; exact D).
    rewrite (includes_of_spaces _ _ K A).
    cbn. destruct k; [discriminate|reflexivity].
  - cbn [Str.includes]. rewrite P, IH. reflexivity.
Qed.

Lemma includes_trimStart :
  forall k s, startsSolid k = true -> Str.includes (Str.trimStart s) k = Str.includes s k.
Proof.
  intros k s K. induction s as [|c s IH]; [reflexivity|].
  cbn [Str.trimStart]. destruct (Str.isSpace c) eqn:W; [|reflexivity].
  rewrite IH. cbn [Str.includes].
  destruct k as [|a k]; [discriminate|]. cbn [Str.prefix].
  destruct (Ascii.eqb_spec a c) as [->|_]; [|reflexivity].
  cbn in K. rewrite W in K. discriminate.
Qed.

Lemma includes_trim :
  forall k s, solid k = true -> Str.includes (Str.trim s) k = Str.includes s k.
Proof.
  intros k s K. apply andb_prop in K. destruct K as [K1 K2]. unfold Str.trim.
  rewrite includes_trimEnd, includes_trimStart by assumption. reflexivity.
Qed.

Lemma includes_any_trim :
  forall (keywords : list string) (s : string),
    List.forallb solid keywords = true ->
    List.existsb (Str.includes (Str.trim s)) keywords
    = List.existsb (Str.includes s) keywords.
Proof.
  induction keywords as [|k rest IH]; intros s H; [reflexivity|].
  cbn in H |- *. apply andb_prop in H. destruct H as [K H].
  rewrite (@includes_trim k s K), (IH _ H). reflexivity.
Qed.

Lemma toLowerCase_trimStart :
  forall s, Str.toLowerCase (Str.trimStart s) = Str.trimStart (Str.toLowerCase s).
Proof.
  induction s as [|c s IH]; [reflexivity|].
  cbn [Str.trimStart Str.toLowerCase Str.map]. fold Str.toLowerCase.
  rewrite lowerChar_space. destruct (Str.isSpace c); [exact IH|reflexivity].
Qed.

Lemma toLowerCase_empty :
  forall s, Str.isEmpty (Str.toLowerCase s) = Str.isEmpty s.
Proof. intros [|c s]; reflexivity. Qed.

Lemma toLowerCase_trimEnd :
  forall s, Str.toLowerCase (Str.trimEnd s) = Str.trimEnd (Str.toLowerCase s).
Proof.
  induction s as [|c s IH]; [reflexivity|].
  cbn [Str.trimEnd Str.toLowerCase Str.map]. fold Str.toLowerCase.
  rewrite lowerChar_space, <- IH, toLowerCase_empty.
  destruct (Str.isSpace c && Str.isEmpty (Str.trimEnd s)); reflexivity.
Qed.

Lemma toLowerCase_trim :
  forall s, Str.toLowerCase (Str.trim s) = Str.trim (Str.toLowerCase s).
Proof.
  intro s. unfold Str.trim. rewrite toLowerCase_trimEnd, toLowerCase_trimStart.
  reflexivity.
Qed.

End Normalisation.

Section Classification.

Context {num : Type} {arith : Arith num} {host : Host (num := num)}.

Lemma mathSymbol_not_space :
  forall c, isMathSymbol c = true -> Str.isSpace c = false.
Proof. intros [[] [] [] [] [] [] [] []] H; try reflexivity; discriminate H. Qed.

Lemma letter_not_space :
  forall c, Str.isLetter c = true -> Str.isSpace c = false.
Proof. intros [[] [] [] [] [] [] [] []] H; try reflexivity; discriminate H. Qed.

Lemma includes_any_unit_trim :
  forall (table : list (string * @object num)) (s : string),
    List.forallb (fun category => List.forallb solid (keys (snd category))) table = true ->
    List.existsb
      (fun category => List.existsb (Str.includes (Str.trim s)) (keys (snd category)))
      table
    = List.existsb
        (fun category => List.existsb (Str.includes s) (keys (snd category)))
        table.
Proof.
  induction table as [|category rest IH]; intros s H; [reflexivity|].
  cbn [List.forallb List.existsb] in *. apply andb_prop in H. destruct H as [K H].
  rewrite (includes_any_trim _ s K), (IH s H). reflexivity.
Qed.

Lemma unit_names_solid :
  List.forallb (fun category => List.forallb solid (keys (snd category)))
    (unitConversions (num := num)) = true.
Proof. reflexivity. Qed.

(** Blanks at the ends of a text do not change its class. *)
Lemma classifyCleaned_trim :
  forall s : string,
    classifyCleaned (num := num) (Str.trim s) = classifyCleaned s.
Proof.
  intro s.
  unfold classifyCleaned, isNaturalLanguage, containsGraphKeywords,
    containsUnitKeywords, containsUnitNames, containsStatsKeywords,
    containsTrigKeywords, detectOperationType.
  rewrite toLowerCase_trim.
  rewrite (includes_any_unit_trim _ _ unit_names_solid).
  rewrite !includes_any_trim by reflexivity.
  rewrite !includes_trim by reflexivity.
  rewrite (@existsb_trim isMathSymbol s mathSymbol_not_space).
  rewrite (@existsb_trim Str.isLetter s letter_not_space).
  reflexivity.
Qed.

(** [classifyCleaned] names the branch [calculate] takes. *)
Lemma parseRequest_classify :
  forall c : string,
    parseRequest c
    = match classifyCleaned (num := num) c with
      | Graphing =>
          (parsed <- parseGraphingRequest c ;; Ok (GraphingRequest parsed))%result
      | UnitConversion =>
          (parsed <- parseUnitConversion c ;; Ok (textOf parsed))%result
      | Statistics =>
          (parsed <- parseStatisticsRequest c ;; Ok (textOf parsed))%result
      | Trigonometry =>
          (parsed <- parseTrigonometryRequest c ;; Ok (textOf parsed))%result
      | Arithmetic =>
          Ok (TextRequest (arithmeticExpression (tokenize c)) "arithmetic")
      | Literal operationType => Ok (TextRequest c operationType)
      end.
Proof.
  intro c. unfold parseRequest, classifyCleaned, parseNaturalLanguage.
  destruct (isNaturalLanguage c); [|reflexivity].
  destruct (containsGraphKeywords c); [reflexivity|].
  destruct (containsUnitKeywords c); [reflexivity|].
  destruct (containsStatsKeywords c); [reflexivity|].
  destruct (containsTrigKeywords c); reflexivity.
Qed.

(** A request routed to a text extractor: [calculate] keeps the
    expression and the operation type the extractor returns, and nothing
    else of it. *)
Lemma calculate_extracted :
  forall (w : World) (a : CalculatorAgent) (input : string)
         (parse : string -> result Parsed),
    let c := substituteAns a (cleanInput input) in
    parseRequest c = (parsed <- parse c ;; Ok (textOf parsed))%result ->
    (forall p, parse c = Ok p -> String.eqb (operationType p) "graphing" = false) ->
    calculate w a input
    = match parse c with
      | Ok p => evaluated w a input (textOf p) (expression p)
      | Throw m => (failurePayload w input m, a)
      end.
Proof.
  intros w a input parse c R T.
  destruct (parse c) as [p|m] eqn:P.
  - apply calculate_text_request; [|exact (T p eq_refl)].
    fold c. rewrite R. reflexivity.
  - unfold calculate, attempt. fold c. rewrite R. reflexivity.
Qed.

(** Every request routed to the trigonometry extractor returns what the
    evaluator yields for the text [f(angle)]; the value the extractor
    computed in degrees is not used. *)
Lemma calculate_trigonometry :
  forall (w : World) (a : CalculatorAgent) (input : string),
    let c := substituteAns a (cleanInput input) in
    classifyCleaned (num := num) c = Trigonometry ->
    calculate w a input
    = match parseTrigonometryRequest c with
      | Ok p => evaluated w a input (textOf p) (expression p)
      | Throw m => (failurePayload w input m, a)
      end.
Proof.
  intros w a input c C. apply calculate_extracted.
  - fold c. rewrite parseRequest_classify, C. reflexivity.
  - fold c. unfold parseTrigonometryRequest. intros p P.
    destruct (mathDegrees _ _); [|discriminate].
    injection P as <-. reflexivity.
Qed.

(** Every request routed to the unit conversion returns what the
    evaluator yields for the text [value from to to]; the converted value
    and the units are not used. *)
Lemma calculate_unit_conversion :
  forall (w : World) (a : CalculatorAgent) (input : string),
    let c := substituteAns a (cleanInput input) in
    classifyCleaned (num := num) c = UnitConversion ->
    calculate w a input
    = match parseUnitConversion c with
      | Ok p => evaluated w a input (textOf p) (expression p)
      | Throw m => (failurePayload w input m, a)
      end.
Proof.
  intros w a input c C. apply calculate_extracted.
  - fold c. rewrite parseRequest_classify, C. reflexivity.
  - fold c. unfold parseUnitConversion. intros p P.
    destruct (extractNumbers c) as [|value rest]; [discriminate|].
    destruct (fromUnit (extractUnits c)); [|discriminate].
    destruct (toUnit (extractUnits c)); [|discriminate].
    destruct (convertUnit _ _ _ _); [|discriminate].
    injection P as <-. reflexivity.
Qed.

(** C9, as the code has it.  Cleaning a cleaned text only trims it: the
    first pass can leave a blank at an end (it trims before it removes
    characters), the second removes it and changes nothing else; so cleaning
    is idempotent on every input whose cleaned text neither starts nor ends
    with a blank.  In every case the class of an input is the class of its
    cleaned text. *)
Theorem cleanInput_twice :
  forall input : string,
    cleanInput (cleanInput input) = Str.trim (cleanInput input)
    /\ (Str.trim (cleanInput input) = cleanInput input ->
        cleanInput (cleanInput input) = cleanInput input)
    /\ classify (num := num) (cleanInput input) = classify input.
Proof.
  intro input.
  assert (T : cleanInput (cleanInput input) = Str.trim (cleanInput input))
    by (apply cleanInput_of_normal, cleanInput_normal).
  split; [exact T|]. split; [intro E; rewrite T; exact E|].
  unfold classify. rewrite T. apply classifyCleaned_trim.
Qed.

End Classification.

(** ** Unit conversion there and back, in exact arithmetic *)

Section RoundTrip.

Local Existing Instance rational.

Local Open Scope Q_scope.

Lemma truthy_nonzero : forall f : Q, ~ f == 0 -> falsy f = false.
Proof.
  intros f N. unfold falsy, int. cbn.
  destruct (Qle_bool (0 # 1) f) eqn:A, (Qle_bool f (0 # 1)) eqn:B; try reflexivity.
  apply Qle_bool_iff in A, B. exfalso. apply N. lra.
Qed.

Lemma factorOf_entry :
  forall (units : @object Q) (u : string),
    List.forallb isFactor units = true -> In u (keys units) ->
    exists f, factorOf units u = Some f /\ ~ f == 0.
Proof.
  induction units as [|[k v] rest IH]; intros u F I; [contradiction|].
  cbn [List.forallb] in F. apply andb_prop in F. destruct F as [Fk F].
  unfold factorOf. cbn [lookup].
  destruct (String.eqb_spec u k) as [->|N].
  - unfold isFactor in Fk. cbn [snd] in Fk. destruct v; try discriminate.
    apply negb_true_iff in Fk.
    assert (Z : ~ n == 0) by (intro E; apply Qeq_bool_iff in E; congruence).
    exists n. rewrite (truthy_nonzero Z). split; [reflexivity|exact Z].
  - destruct I as [E|I]; [cbn in E; congruence|]. exact (IH u F I).
Qed.

Lemma roundTrip_linear :
  forall (v : Q) (cat : string) (units : @object Q) (u1 u2 : string),
    String.eqb cat "temperature" = false ->
    lookup cat unitConversions = Some units ->
    List.forallb isFactor units = true ->
    In u1 (keys units) -> In u2 (keys units) ->
    exists r, roundTrip v u1 u2 (Some cat) = Ok r /\ r == v.
Proof.
  intros v cat units u1 u2 T L F I1 I2.
  destruct (factorOf_entry _ _ F I1) as (f1 & E1 & N1).
  destruct (factorOf_entry _ _ F I2) as (f2 & E2 & N2).
  unfold roundTrip, convertUnit. cbn [equalsText]. rewrite T, L, E1, E2.
  cbn [bind].
  eexists. split; [reflexivity|]. cbn. field. split; assumption.
Qed.

Lemma roundTrip_temperature :
  forall (v : Q) (u1 u2 : string),
    In u1 ["c"; "celsius"; "°c"; "f"; "fahrenheit"; "°f"; "k"; "kelvin"] ->
    In u2 ["c"; "celsius"; "°c"; "f"; "fahrenheit"; "°f"; "k"; "kelvin"] ->
    exists r, roundTrip v u1 u2 (Some "temperature") = Ok r /\ r == v.
Proof.
  intros v u1 u2 I1 I2. cbn [In] in I1, I2.
  repeat (destruct I1 as [<-|I1]; [|]); try contradiction;
    repeat (destruct I2 as [<-|I2]; [|]); try contradiction;
    (eexists; split;
     [cbv -[Qplus Qminus Qmult Qdiv]; reflexivity
     | field_simplify; reflexivity || (try field)]).
Qed.

End RoundTrip.

(** ** Binary64: the rounding of the four operations *)

Section Shifting.

Local Open Scope R_scope.

Lemma iter_pos_nat :
  forall (A : Type) (f : A -> A) (p : positive) (x : A),
    iter_pos f p x = Nat.iter (Pos.to_nat p) f x.
Proof.
  intros A f. induction p as [p IH|p IH|]; intro x; cbn [iter_pos].
  - rewrite !IH.
    replace (Pos.to_nat p~1) with (Pos.to_nat p + (Pos.to_nat p + 1))%nat by lia.
    rewrite !Nat.iter_add. reflexivity.
  - rewrite !IH.
    replace (Pos.to_nat p~0) with (Pos.to_nat p + Pos.to_nat p)%nat by lia.
    rewrite Nat.iter_add. reflexivity.
  - reflexivity.
Qed.

Lemma IZR_xO : forall p, IZR (Zpos p~0) = 2 * IZR (Zpos p).
Proof. intro p. change (Zpos p~0) with (2 * Zpos p)%Z. rewrite mult_IZR. reflexivity. Qed.

Lemma IZR_xI : forall p, IZR (Zpos p~1) = 2 * IZR (Zpos p) + 1.
Proof.
  intro p. change (Zpos p~1) with (2 * Zpos p + 1)%Z.
  rewrite plus_IZR, mult_IZR. reflexivity.
Qed.

(** One shift to the right halves what the record stands for. *)
Lemma shr_1_inbetween :
  forall (mrs : shr_record) (x : R),
    (0 <= shr_m mrs)%Z ->
    inbetween (shr_m mrs) (loc_of_shr_record mrs) x ->
    inbetween (shr_m (shr_1 mrs)) (loc_of_shr_record (shr_1 mrs)) (x / 2)
    /\ shr_m (shr_1 mrs) = (shr_m mrs / 2)%Z.
Proof.
  intros [m r s] x P H. cbn [shr_m] in *.
  destruct m as [|p|p]; [| |lia].
  - destruct r, s; cbn in H |- *; split; try reflexivity; Lra.lra.
  - destruct p as [p|p|].
    + assert (D : (Zpos p~1 / 2 = Zpos p)%Z)
        by (change (Zpos p~1) with (2 * Zpos p + 1)%Z; symmetry; apply Z.div_unique with 1%Z; lia).
      rewrite D. pose proof (IZR_xI p) as E.
      destruct r, s; cbn in H |- *; rewrite E in H; split; try reflexivity; Lra.lra.
    + assert (D : (Zpos p~0 / 2 = Zpos p)%Z)
        by (change (Zpos p~0) with (2 * Zpos p)%Z; symmetry; apply Z.div_unique with 0%Z; lia).
      rewrite D. pose proof (IZR_xO p) as E.
      destruct r, s; cbn in H |- *; rewrite E in H; split; try reflexivity; Lra.lra.
    + destruct r, s; cbn in H |- *; split; try reflexivity; Lra.lra.
Qed.

Lemma shr_iter_inbetween :
  forall (k : nat) (mrs : shr_record) (x : R),
    (0 <= shr_m mrs)%Z ->
    inbetween (shr_m mrs) (loc_of_shr_record mrs) x ->
    let mrs' := Nat.iter k shr_1 mrs in
    inbetween (shr_m mrs') (loc_of_shr_record mrs') (x / 2 ^ k)
    /\ shr_m mrs' = (shr_m mrs / 2 ^ Z.of_nat k)%Z.
Proof.
  induction k as [|k IH]; intros mrs x P H; cbv zeta.
  - change (Nat.iter 0 shr_1 mrs) with mrs. cbn [pow Z.of_nat Z.pow].
    rewrite Z.div_1_r. split; [|reflexivity].
    replace (x / 1) with x by field. exact H.
  - destruct (IH mrs x P H) as [I E]. cbv zeta in I, E.
    change (Nat.iter (S k) shr_1 mrs) with (shr_1 (Nat.iter k shr_1 mrs)).
    assert (P' : (0 <= shr_m (Nat.iter k shr_1 mrs))%Z).
    { rewrite E. apply Z.div_pos; [exact P|]. apply Z.pow_pos_nonneg; lia. }
    destruct (@shr_1_inbetween _ _ P' I) as [I' E']. split.
    + replace (x / 2 ^ S k) with (x / 2 ^ k / 2); [exact I'|].
      cbn [pow]. field. apply pow_nonzero. Lra.lra.
    + rewrite E', E, Nat2Z.inj_succ, Z.pow_succ_r by lia.
      rewrite Z.div_div by (try apply Z.pow_pos_nonneg; lia).
      f_equal. lia.
Qed.

Lemma loc_of_record_of_loc :
  forall m l, loc_of_shr_record (shr_record_of_loc m l) = l
              /\ shr_m (shr_record_of_loc m l) = m.
Proof. intros m [|[| |]]; split; reflexivity. Qed.

(** Rounding to the nearest integer, to the even one from the middle. *)
Lemma round_nearest_even_spec :
  forall (m : Z) (l : location) (x : R),
    inbetween m l x ->
    Rabs (IZR (round_nearest_even m l) - x) <= / 2
    /\ (m <= round_nearest_even m l <= m + 1)%Z
    /\ (forall k : Z, Rabs (IZR (round_nearest_even m l) - x) <= Rabs (IZR k - x)).
Proof.
  intros m l x H.
  assert (N : forall k : Z, (k <= m)%Z \/ (m + 1 <= k)%Z) by (intro k; lia).
  assert (K : forall k : Z,
             (k <= m)%Z -> IZR k <= IZR m) by (intros k L; apply IZR_le, L).
  assert (K' : forall k : Z,
             (m + 1 <= k)%Z -> IZR m + 1 <= IZR k).
  { intros k L. apply IZR_le in L. rewrite plus_IZR in L. exact L. }
  destruct l as [|[| |]]; cbn [inbetween round_nearest_even] in *.
  - subst x. split; [|split; [lia|]].
    + rewrite Rminus_diag. rewrite Rabs_R0. Lra.lra.
    + intro k. rewrite Rminus_diag, Rabs_R0. apply Rabs_pos.
  - destruct (Z.even m).
    + split; [|split; [lia|]].
      * apply Rabs_le. Lra.lra.
      * intro k. destruct (N k) as [L|L]; [apply K in L|apply K' in L];
          unfold Rabs; repeat destruct Rcase_abs; Lra.lra.
    + split; [|split; [lia|]].
      * rewrite plus_IZR. apply Rabs_le. Lra.lra.
      * intro k. rewrite plus_IZR.
        destruct (N k) as [L|L]; [apply K in L|apply K' in L];
          unfold Rabs; repeat destruct Rcase_abs; Lra.lra.
  - split; [|split; [lia|]].
    + apply Rabs_le. Lra.lra.
    + intro k. destruct (N k) as [L|L]; [apply K in L|apply K' in L];
        unfold Rabs; repeat destruct Rcase_abs; Lra.lra.
  - split; [|split; [lia|]].
    + rewrite plus_IZR. apply Rabs_le. Lra.lra.
    + intro k. rewrite plus_IZR.
      destruct (N k) as [L|L]; [apply K in L|apply K' in L];
        unfold Rabs; repeat destruct Rcase_abs; Lra.lra.
Qed.

End Shifting.

Section Rounding.

Local Open Scope R_scope.


Lemma pow2_pos : forall e, 0 < pow2 e.
Proof. intro e. apply powerRZ_lt. Lra.lra. Qed.

Lemma pow2_add : forall a b, pow2 (a + b) = pow2 a * pow2 b.
Proof. intros a b. apply powerRZ_add. Lra.lra. Qed.

Lemma pow2_IZR : forall n, (0 <= n)%Z -> pow2 n = IZR (2 ^ n).
Proof.
  intros n N. unfold pow2. rewrite <- (Z2Nat.id n N), <- pow_powerRZ.
  rewrite pow_IZR. reflexivity.
Qed.

Lemma pow2_1 : pow2 1 = 2.
Proof. rewrite pow2_IZR by lia. reflexivity. Qed.

Lemma pow2_m1 : pow2 (-1) = / 2.
Proof. unfold pow2. simpl. rewrite Rmult_1_r. reflexivity. Qed.

Lemma pow2_opp : forall e, pow2 (- e) = / pow2 e.
Proof.
  intro e. pose proof (pow2_pos e).
  apply Rmult_eq_reg_r with (pow2 e); [|Lra.lra].
  rewrite <- pow2_add, Rinv_l by Lra.lra.
  replace (- e + e)%Z with 0%Z by lia. reflexivity.
Qed.

Lemma pow2_le : forall a b, (a <= b)%Z -> pow2 a <= pow2 b.
Proof.
  intros a b L. replace b with (a + (b - a))%Z by lia.
  rewrite pow2_add, (@pow2_IZR (b - a)%Z) by lia.
  assert (1 <= IZR (2 ^ (b - a))).
  { apply IZR_le. assert (0 < 2 ^ (b - a))%Z by (apply Z.pow_pos_nonneg; lia). lia. }
  pose proof (pow2_pos a). Lra.nra.
Qed.

Lemma pow2_lt : forall a b, (a < b)%Z -> pow2 a < pow2 b.
Proof.
  intros a b L. replace b with (a + (b - a))%Z by lia.
  rewrite pow2_add, (@pow2_IZR (b - a)%Z) by lia.
  assert (2 <= IZR (2 ^ (b - a))).
  { apply IZR_le. replace (b - a)%Z with (Z.succ (b - a - 1)) by lia.
    rewrite Z.pow_succ_r by lia.
    assert (0 < 2 ^ (b - a - 1))%Z by (apply Z.pow_pos_nonneg; lia). lia. }
  pose proof (pow2_pos a). Lra.nra.
Qed.

Lemma digits2_pos_spec :
  forall p : positive,
    (2 ^ (Zpos (digits2_pos p) - 1) <= Zpos p < 2 ^ Zpos (digits2_pos p))%Z.
Proof.
  induction p as [p IH|p IH|]; cbn [digits2_pos].
  - rewrite Pos2Z.inj_succ. change (Zpos p~1) with (2 * Zpos p + 1)%Z.
    replace (Z.succ (Zpos (digits2_pos p)) - 1)%Z
      with (Z.succ (Zpos (digits2_pos p) - 1)) by lia.
    rewrite !Z.pow_succ_r by lia.
    generalize dependent (2 ^ (Zpos (digits2_pos p) - 1))%Z.
    generalize (2 ^ Zpos (digits2_pos p))%Z. intros; lia.
  - rewrite Pos2Z.inj_succ. change (Zpos p~0) with (2 * Zpos p)%Z.
    replace (Z.succ (Zpos (digits2_pos p)) - 1)%Z
      with (Z.succ (Zpos (digits2_pos p) - 1)) by lia.
    rewrite !Z.pow_succ_r by lia.
    generalize dependent (2 ^ (Zpos (digits2_pos p) - 1))%Z.
    generalize (2 ^ Zpos (digits2_pos p))%Z. intros; lia.
  - cbn. lia.
Qed.

Lemma digits2_pos_unique :
  forall (p : positive) (k : Z),
    (2 ^ (k - 1) <= Zpos p < 2 ^ k)%Z -> Zpos (digits2_pos p) = k.
Proof.
  intros p k [L U]. pose proof (digits2_pos_spec p) as [L' U'].
  set (d := Zpos (digits2_pos p)) in *.
  assert (K : (0 < k)%Z).
  { destruct (Z.lt_ge_cases 0 k) as [K|K]; [exact K|].
    exfalso. destruct (Z.eq_dec k 0) as [->|N].
    - cbn in U. lia.
    - rewrite Z.pow_neg_r in U by lia. lia. }
  destruct (Z.lt_trichotomy d k) as [C|[C|C]]; [|exact C|]; exfalso.
  - assert (2 ^ d <= 2 ^ (k - 1))%Z by (apply Z.pow_le_mono_r; lia). lia.
  - assert (2 ^ k <= 2 ^ (d - 1))%Z by (apply Z.pow_le_mono_r; lia). lia.
Qed.

Lemma fexp_normal :
  forall e : Z, (-1021 <= e)%Z -> fexp prec emax e = (e - 53)%Z.
Proof. intros e N. unfold fexp, emin, prec, emax. lia. Qed.

Lemma shr_fexp_spec :
  forall (mx ex : Z) (lx : location) (x : R) (n : Z),
    (0 <= mx)%Z -> inbetween mx lx x ->
    (fexp prec emax (Zdigits2 mx + ex) - ex = n)%Z -> (0 <= n)%Z ->
    exists mrs,
      shr_fexp prec emax mx ex lx = (mrs, (ex + n)%Z)
      /\ inbetween (shr_m mrs) (loc_of_shr_record mrs) (x / IZR (2 ^ n))
      /\ shr_m mrs = (mx / 2 ^ n)%Z.
Proof.
  intros mx ex lx x n P H F N. unfold shr_fexp. rewrite F.
  destruct (loc_of_record_of_loc mx lx) as [L M].
  destruct n as [|p|p]; [| |lia].
  - exists (shr_record_of_loc mx lx). cbn [shr]. rewrite Z.add_0_r, L, M.
    cbn [Z.pow]. rewrite Z.div_1_r. replace (x / 1) with x by field.
    repeat split. exact H.
  - exists (iter_pos shr_1 p (shr_record_of_loc mx lx)). cbn [shr].
    split; [reflexivity|]. rewrite iter_pos_nat.
    assert (P' : (0 <= shr_m (shr_record_of_loc mx lx))%Z) by (rewrite M; exact P).
    assert (H' : inbetween (shr_m (shr_record_of_loc mx lx))
                   (loc_of_shr_record (shr_record_of_loc mx lx)) x)
      by (rewrite L, M; exact H).
    destruct (@shr_iter_inbetween (Pos.to_nat p) _ _ P' H') as [I E].
    cbv zeta in I, E. rewrite positive_nat_Z in E. rewrite M in E.
    split; [|exact E].
    rewrite <- (positive_nat_Z p), <- pow_IZR. exact I.
Qed.

(** The heart of every operation: a positive mantissa with a place,
    standing for [x * 2^ex], of at least 53 digits and in the range of the
    normal doubles, is rounded to a double of 53 digits, the multiple of the
    unit [2^(ex + d - 53)] nearest to it. *)
Lemma binary_round_aux_spec :
  forall (sx : bool) (mx ex : Z) (lx : location) (x : R),
    (0 < mx)%Z -> inbetween mx lx x ->
    let d := Zdigits2 mx in
    let e0 := (ex + d - 53)%Z in
    (53 <= d)%Z -> (-1074 <= e0)%Z -> (d + ex <= 1023)%Z ->
    exists m e,
      binary_round_aux prec emax sx mx ex lx = S754_finite sx m e
      /\ (2 ^ 52 <= Zpos m < 2 ^ 53)%Z
      /\ (e0 <= e <= e0 + 1)%Z
      /\ Rabs (IZR (Zpos m) * pow2 e - x * pow2 ex) <= / 2 * pow2 e0
      /\ (forall k : Z,
            Rabs (IZR (Zpos m) * pow2 e - x * pow2 ex)
            <= Rabs (IZR k * pow2 e0 - x * pow2 ex))
      /\ pow2 (e0 + 52) <= x * pow2 ex < pow2 (e0 + 53).
Proof.
  intros sx mx ex lx x P H d e0 D N U.
  destruct mx as [|p|p]; [lia| |lia].
  pose proof (digits2_pos_spec p) as [DL DU]. fold (Zdigits2 (Zpos p)) in DL, DU.
  fold d in DL, DU.
  set (n := (d - 53)%Z).
  assert (F : (fexp prec emax (Zdigits2 (Zpos p) + ex) - ex = n)%Z).
  { fold d. rewrite fexp_normal by lia. unfold n. lia. }
  destruct (@shr_fexp_spec (Zpos p) ex lx x n ltac:(lia) H F ltac:(unfold n; lia))
    as (mrs1 & S1 & I1 & M1).
  assert (Pn : (0 < 2 ^ n)%Z) by (apply Z.pow_pos_nonneg; unfold n; lia).
  assert (E2 : (2 ^ d = 2 ^ n * 2 ^ 53)%Z).
  { rewrite <- Z.pow_add_r by (unfold n; lia). f_equal. unfold n. lia. }
  assert (E3 : (2 ^ (d - 1) = 2 ^ n * 2 ^ 52)%Z).
  { rewrite <- Z.pow_add_r by (unfold n; lia). f_equal. unfold n. lia. }
  assert (B1 : (2 ^ 52 <= shr_m mrs1 < 2 ^ 53)%Z).
  { rewrite M1. split.
    - apply Z.div_le_lower_bound; [exact Pn|]. rewrite <- E3. exact DL.
    - apply Z.div_lt_upper_bound; [exact Pn|]. rewrite <- E2. exact DU. }
  destruct (@round_nearest_even_spec _ _ _ I1) as (R1 & R2 & R3).
  set (m2 := round_nearest_even (shr_m mrs1) (loc_of_shr_record mrs1)) in *.
  assert (B2 : (2 ^ 52 <= m2 <= 2 ^ 53)%Z) by lia.
  (* the value and the scale *)
  assert (En : (ex + n = e0)%Z) by (unfold e0, n; lia).
  assert (Sc : x * pow2 ex = x / IZR (2 ^ n) * pow2 e0).
  { rewrite <- En, pow2_add, (@pow2_IZR n) by (unfold n; lia).
    field. apply not_0_IZR. lia. }
  assert (X : pow2 (e0 + 52) <= x * pow2 ex < pow2 (e0 + 53)).
  { assert (IZR (2 ^ (d - 1)) <= x < IZR (2 ^ d)).
    { assert (IZR (Zpos p) <= x < IZR (Zpos p) + 1).
      { destruct lx as [|[| |]]; cbn [inbetween] in H; Lra.lra. }
      assert (IZR (Zpos p) + 1 <= IZR (2 ^ d)).
      { rewrite <- (plus_IZR _ 1). apply IZR_le. lia. }
      pose proof (IZR_le _ _ DL). Lra.lra. }
    rewrite <- !pow2_IZR in H0 by lia.
    replace (e0 + 52)%Z with (d - 1 + ex)%Z by (unfold e0; lia).
    replace (e0 + 53)%Z with (d + ex)%Z by (unfold e0; lia).
    rewrite !pow2_add. pose proof (pow2_pos ex). Lra.nra. }
  assert (V : forall m e,
             IZR (Zpos m) * pow2 e = IZR m2 * pow2 e0 ->
             Rabs (IZR (Zpos m) * pow2 e - x * pow2 ex) <= / 2 * pow2 e0
             /\ (forall k : Z,
                   Rabs (IZR (Zpos m) * pow2 e - x * pow2 ex)
                   <= Rabs (IZR k * pow2 e0 - x * pow2 ex))).
  { intros m e ->. rewrite Sc. pose proof (pow2_pos e0) as Pe.
    assert (A : forall a : R,
               Rabs (a * pow2 e0 - x / IZR (2 ^ n) * pow2 e0)
               = Rabs (a - x / IZR (2 ^ n)) * pow2 e0).
    { intro a. rewrite <- Rmult_minus_distr_r, Rabs_mult.
      rewrite (Rabs_right (pow2 e0)) by Lra.lra. reflexivity. }
    split.
    - rewrite A. Lra.nra.
    - intro k. rewrite !A. specialize (R3 k). Lra.nra. }
  unfold binary_round_aux. rewrite S1. fold m2.
  destruct (Z.eq_dec m2 (2 ^ 53)) as [T|T].
  - (* the mantissa has reached [2^53] *)
    rewrite T.
    assert (F2 : shr_fexp prec emax (2 ^ 53) (ex + n) loc_Exact
                 = ({| shr_m := 2 ^ 52; shr_r := false; shr_s := false |},
                    (ex + n + 1)%Z)).
    { unfold shr_fexp.
      assert (D54 : Zdigits2 (2 ^ 53)%Z = 54%Z) by (vm_compute; reflexivity).
      rewrite D54, fexp_normal by lia.
      replace (54 + (ex + n) - 53 - (ex + n))%Z with 1%Z by lia.
      reflexivity. }
    rewrite F2. cbn [shr_m].
    change (2 ^ 52)%Z with (Zpos (2 ^ 52)).
    assert (Le : ((ex + n + 1) <=? emax - prec)%Z = true).
    { apply Z.leb_le. unfold emax, prec. lia. }
    rewrite Le. exists (2 ^ 52)%positive, (ex + n + 1)%Z.
    split; [reflexivity|]. split; [cbn; lia|]. split; [lia|].
    assert (Vm : IZR (Zpos (2 ^ 52)) * pow2 (ex + n + 1) = IZR m2 * pow2 e0).
    { rewrite T, En, pow2_add.
      rewrite pow2_1.
      change (Zpos (2 ^ 52)) with (2 ^ 52)%Z.
      replace (IZR (2 ^ 53)) with (2 * IZR (2 ^ 52)); [ring|].
      rewrite <- mult_IZR. reflexivity. }
    destruct (V _ _ Vm) as [V1 V2]. split; [exact V1|]. split; [exact V2|exact X].
  - assert (B3 : (2 ^ 52 <= m2 < 2 ^ 53)%Z) by lia.
    destruct m2 as [|q|q] eqn:Q; [lia| |lia].
    assert (Dq : Zdigits2 (Zpos q) = 53%Z).
    { cbn [Zdigits2]. apply digits2_pos_unique. exact B3. }
    assert (F2 : shr_fexp prec emax (Zpos q) (ex + n) loc_Exact
                 = ({| shr_m := Zpos q; shr_r := false; shr_s := false |},
                    (ex + n)%Z)).
    { unfold shr_fexp. rewrite Dq, fexp_normal by lia.
      replace (53 + (ex + n) - 53 - (ex + n))%Z with 0%Z by lia.
      reflexivity. }
    rewrite F2. cbn [shr_m].
    assert (Le : ((ex + n) <=? emax - prec)%Z = true).
    { apply Z.leb_le. unfold emax, prec. lia. }
    rewrite Le. exists q, (ex + n)%Z.
    split; [reflexivity|]. split; [exact B3|]. split; [lia|].
    assert (Vm : IZR (Zpos q) * pow2 (ex + n) = IZR (Zpos q) * pow2 e0)
      by (rewrite En; reflexivity).
    destruct (V _ _ Vm) as [V1 V2]. split; [exact V1|]. split; [exact V2|exact X].
Qed.

End Rounding.

Section Values.

Local Open Scope R_scope.


Lemma sign_xorb : forall a b, sign (xorb a b) = sign a * sign b.
Proof. intros [|] [|]; unfold sign; cbn; Lra.lra. Qed.

Lemma sign_negb : forall a, sign (negb a) = - sign a.
Proof. intros [|]; unfold sign; cbn; Lra.lra. Qed.

Lemma sign_square : forall a, sign a * sign a = 1.
Proof. intros [|]; unfold sign; Lra.lra. Qed.

Lemma Rabs_sign : forall s a, Rabs (sign s * a) = Rabs a.
Proof.
  intros [|] a; unfold sign.
  - replace (-1 * a) with (- a) by ring. apply Rabs_Ropp.
  - f_equal. ring.
Qed.

Lemma SF2R_opp : forall f, SF2R (SFopp f) = - SF2R f.
Proof.
  intros [s|s| |s m e]; cbn [SFopp SF2R]; try ring.
  rewrite sign_negb. ring.
Qed.

Lemma double_opp : forall f, double f -> double (SFopp f).
Proof. intros [s|s| |s m e]; cbn; tauto. Qed.

Lemma normal_double : forall lo hi z,
    (-1074 <= lo)%Z -> (hi <= 971)%Z -> normal lo hi z -> double z.
Proof.
  intros lo hi [s|s| |s m e] L U; cbn; try tauto.
  intros [[A B] [C D]]. split; [exact B|]. split; [lia|]. left. exact A.
Qed.

Lemma normal_weaken : forall lo hi lo' hi' z,
    (lo' <= lo)%Z -> (hi <= hi')%Z -> normal lo hi z -> normal lo' hi' z.
Proof. intros lo hi lo' hi' [s|s| |s m e] L U; cbn; try tauto. lia. Qed.

(** A mantissa with a place, rounded and signed. *)
Lemma round_signed :
  forall (sx : bool) (mx ex : Z) (lx : location) (x : R),
    (0 < mx)%Z -> inbetween mx lx x ->
    let d := Zdigits2 mx in
    let e0 := (ex + d - 53)%Z in
    (53 <= d)%Z -> (-1074 <= e0)%Z -> (d + ex <= 1023)%Z ->
    let z := binary_round_aux prec emax sx mx ex lx in
    let X := sign sx * (x * pow2 ex) in
    normal e0 (e0 + 1) z /\ rounded z X.
Proof.
  intros sx mx ex lx x P H d e0 D N U z X.
  destruct (@binary_round_aux_spec sx mx ex lx x P H D N U)
    as (m & e & Z & B & E & A & G & I).
  fold d e0 in E, A, G, I. unfold z. rewrite Z. clear z Z.
  assert (Xp : 0 < x * pow2 ex) by (pose proof (pow2_pos (e0 + 52)); Lra.lra).
  assert (Mp : 0 < IZR (Zpos m) * pow2 e).
  { apply Rmult_lt_0_compat; [apply IZR_lt; lia|apply pow2_pos]. }
  split; [split; assumption|].
  split; [split; [exact B|lia]|].
  assert (D1 : forall a b, Rabs (sign sx * a - sign sx * b) = Rabs (a - b)).
  { intros a b. rewrite <- Rmult_minus_distr_l. apply Rabs_sign. }
  cbn [SF2R]. unfold X. rewrite D1.
  split; [|split].
  - rewrite Rabs_sign, (Rabs_right (x * pow2 ex)) by Lra.lra.
    assert (/ 2 * pow2 e0 = pow2 (-53) * pow2 (e0 + 52)).
    { rewrite <- pow2_add. replace (-53 + (e0 + 52))%Z with (-1 + e0)%Z by lia.
      rewrite pow2_add, pow2_m1. reflexivity. }
    pose proof (pow2_pos (-53)). Lra.nra.
  - (* nearest among the doubles *)
    assert (Pos : forall f, double f ->
                            Rabs (IZR (Zpos m) * pow2 e - x * pow2 ex)
                            <= Rabs (SF2R f - x * pow2 ex)).
    { intros f Df.
      assert (Low : SF2R f <= pow2 (e0 + 52) ->
                    Rabs (IZR (Zpos m) * pow2 e - x * pow2 ex)
                    <= Rabs (SF2R f - x * pow2 ex)).
      { intro L. specialize (G (2 ^ 52)%Z).
        rewrite <- pow2_IZR, <- pow2_add in G by lia.
        replace (52 + e0)%Z with (e0 + 52)%Z in G by lia.
        eapply Rle_trans; [exact G|].
        rewrite (Rabs_left1 (pow2 (e0 + 52) - x * pow2 ex)) by Lra.lra.
        rewrite (Rabs_left1 (SF2R f - x * pow2 ex)) by Lra.lra. Lra.lra. }
      destruct f as [s|s| |s mf ef]; cbn [double] in Df; try contradiction.
      - apply Low. cbn [SF2R]. pose proof (pow2_pos (e0 + 52)). Lra.lra.
      - destruct Df as (Df1 & Df2 & Df3).
        destruct s.
        + apply Low. cbn [SF2R]. unfold sign.
          assert (0 < IZR (Zpos mf) * pow2 ef).
          { apply Rmult_lt_0_compat; [apply IZR_lt; lia|apply pow2_pos]. }
          pose proof (pow2_pos (e0 + 52)). Lra.lra.
        + destruct (Z.lt_ge_cases ef e0) as [C|C].
          * apply Low. cbn [SF2R]. unfold sign.
            assert (IZR (Zpos mf) <= pow2 53).
            { rewrite pow2_IZR by lia. apply IZR_le. lia. }
            assert (pow2 53 * pow2 ef <= pow2 (e0 + 52)).
            { rewrite <- pow2_add. apply pow2_le. lia. }
            pose proof (pow2_pos ef). Lra.nra.
          * specialize (G (Zpos mf * 2 ^ (ef - e0))%Z).
            rewrite mult_IZR, <- pow2_IZR in G by lia.
            rewrite Rmult_assoc, <- pow2_add in G.
            replace (ef - e0 + e0)%Z with ef in G by lia.
            cbn [SF2R]. unfold sign. rewrite Rmult_1_l. exact G. }
    intros f Df. rewrite <- (D1 (IZR (Zpos m) * pow2 e) (x * pow2 ex)) at 1.
    rewrite D1.
    replace (SF2R f - sign sx * (x * pow2 ex))
      with (sign sx * (sign sx * SF2R f - x * pow2 ex))
      by (destruct sx; unfold sign; ring).
    rewrite Rabs_sign.
    destruct sx.
    + replace (sign true * SF2R f) with (SF2R (SFopp f))
        by (rewrite SF2R_opp; unfold sign; ring).
      apply Pos, double_opp, Df.
    + replace (sign false * SF2R f) with (SF2R f) by (unfold sign; ring).
      apply Pos, Df.
  - replace (sign sx * (IZR (Zpos m) * pow2 e) * (sign sx * (x * pow2 ex)))
      with (sign sx * sign sx * ((IZR (Zpos m) * pow2 e) * (x * pow2 ex))) by ring.
    rewrite sign_square. Lra.nra.
Qed.

End Values.

Section Operations.

Local Open Scope R_scope.

Lemma mantissa_product :
  forall mx my : positive,
    (2 ^ 52 <= Zpos mx < 2 ^ 53)%Z -> (2 ^ 52 <= Zpos my < 2 ^ 53)%Z ->
    (105 <= Zdigits2 (Zpos (mx * my)) <= 106)%Z.
Proof.
  intros mx my X Y. cbn [Zdigits2].
  assert (L : (2 ^ 104 <= Zpos (mx * my) < 2 ^ 106)%Z).
  { rewrite Pos2Z.inj_mul.
    change (2 ^ 104)%Z with (2 ^ 52 * 2 ^ 52)%Z.
    change (2 ^ 106)%Z with (2 ^ 53 * 2 ^ 53)%Z. nia. }
  destruct (Z.lt_ge_cases (Zpos (mx * my)) (2 ^ 105)) as [C|C].
  - rewrite (@digits2_pos_unique (mx * my) 105); [lia|].
    change (105 - 1)%Z with 104%Z. lia.
  - rewrite (@digits2_pos_unique (mx * my) 106); [lia|].
    change (106 - 1)%Z with 105%Z. lia.
Qed.

(** The product of two normal doubles, in the range of the normal
    doubles. *)
Lemma SFmul_rounded :
  forall (l1 h1 l2 h2 : Z) (x y : spec_float),
    normal l1 h1 x -> normal l2 h2 y ->
    (-1074 <= l1 + l2 + 52)%Z -> (h1 + h2 + 106 <= 1023)%Z ->
    normal (l1 + l2 + 52) (h1 + h2 + 54) (SFmul prec emax x y)
    /\ rounded (SFmul prec emax x y) (SF2R x * SF2R y).
Proof.
  intros l1 h1 l2 h2 [| | |sx mx ex] [| | |sy my ey]; cbn [normal]; try tauto.
  intros [Mx Ex] [My Ey] L U. cbn [SFmul].
  pose proof (mantissa_product Mx My) as D.
  assert (I : inbetween (Zpos (mx * my)) loc_Exact (IZR (Zpos (mx * my))))
    by reflexivity.
  destruct (@round_signed (xorb sx sy) (Zpos (mx * my)) (ex + ey) loc_Exact
              (IZR (Zpos (mx * my))) ltac:(lia) I ltac:(lia) ltac:(lia) ltac:(lia))
    as [N R].
  split.
  - eapply normal_weaken; [| |exact N]; lia.
  - replace (SF2R (S754_finite sx mx ex) * SF2R (S754_finite sy my ey))
      with (sign (xorb sx sy) * (IZR (Zpos (mx * my)) * pow2 (ex + ey)));
      [exact R|].
    cbn [SF2R]. rewrite sign_xorb, Pos2Z.inj_mul, mult_IZR, pow2_add. ring.
Qed.

Lemma new_location_spec :
  forall (nb k q : Z),
    (0 < nb)%Z -> (0 <= k < nb)%Z ->
    inbetween q (new_location nb k) (IZR q + IZR k / IZR nb).
Proof.
  intros nb k q P K.
  assert (Pn : 0 < IZR nb) by (apply IZR_lt; lia).
  assert (F : forall a : R, a / IZR nb * IZR nb = a) by (intro a; field; Lra.lra).
  assert (Kp : 0 <= IZR k < IZR nb).
  { split; [apply IZR_le|apply IZR_lt]; lia. }
  assert (Half : forall c : comparison,
             (2 * k ?= nb)%Z = c ->
             match c with
             | Lt => IZR k / IZR nb < / 2
             | Eq => IZR k / IZR nb = / 2
             | Gt => / 2 < IZR k / IZR nb
             end).
  { intros c C. destruct c.
    - apply Z.compare_eq in C. apply (f_equal IZR) in C. rewrite mult_IZR in C.
      apply Rmult_eq_reg_r with (IZR nb); [|Lra.lra]. rewrite F. Lra.lra.
    - rewrite Z.compare_lt_iff in C. apply IZR_lt in C. rewrite mult_IZR in C.
      apply Rmult_lt_reg_r with (IZR nb); [Lra.lra|]. rewrite F. Lra.lra.
    - rewrite Z.compare_gt_iff in C. apply IZR_lt in C. rewrite mult_IZR in C.
      apply Rmult_lt_reg_r with (IZR nb); [Lra.lra|]. rewrite F. Lra.lra. }
  assert (Zero : k = 0%Z -> IZR q + IZR k / IZR nb = IZR q).
  { intros ->. unfold Rdiv. rewrite Rmult_0_l. ring. }
  assert (Frac : k <> 0%Z -> 0 < IZR k / IZR nb < 1).
  { intro Nz. assert (0 < IZR k) by (apply IZR_lt; lia). split.
    - apply Rdiv_lt_0_compat; Lra.lra.
    - apply Rmult_lt_reg_r with (IZR nb); [Lra.lra|]. rewrite F. Lra.lra. }
  unfold new_location, new_location_even, new_location_odd.
  destruct (Z.even nb) eqn:Ev.
  - destruct (Z.eqb_spec k 0) as [Z|Nz]; [cbn; apply Zero, Z|].
    specialize (Frac Nz). specialize (Half _ eq_refl).
    destruct (2 * k ?= nb)%Z; cbn [inbetween]; Lra.lra.
  - destruct (Z.eqb_spec k 0) as [Z|Nz]; [cbn; apply Zero, Z|].
    specialize (Frac Nz).
    assert (Odd : (2 * k <> nb)%Z).
    { intro E. rewrite <- E, Z.even_mul in Ev. discriminate Ev. }
    destruct (2 * k + 1 ?= nb)%Z eqn:C; cbn [inbetween].
    + apply Z.compare_eq in C.
      assert (H : (2 * k ?= nb)%Z = Lt) by (apply Z.compare_lt_iff; lia).
      specialize (Half _ H). cbn in Half. Lra.lra.
    + rewrite Z.compare_lt_iff in C.
      assert (H : (2 * k ?= nb)%Z = Lt) by (apply Z.compare_lt_iff; lia).
      specialize (Half _ H). cbn in Half. Lra.lra.
    + rewrite Z.compare_gt_iff in C.
      assert (H : (2 * k ?= nb)%Z = Gt) by (apply Z.compare_gt_iff; lia).
      specialize (Half _ H). cbn in Half. Lra.lra.
Qed.

(** The quotient of two normal doubles, in the range of the normal
    doubles. *)
Lemma SFdiv_rounded :
  forall (l1 h1 l2 h2 : Z) (x y : spec_float),
    normal l1 h1 x -> normal l2 h2 y ->
    (-1021 <= l1 - h2)%Z -> (h1 - l2 <= 1022)%Z ->
    normal (l1 - h2 - 53) (h1 - l2 - 51) (SFdiv prec emax x y)
    /\ rounded (SFdiv prec emax x y) (SF2R x / SF2R y).
Proof.
  intros l1 h1 l2 h2 [| | |sx mx ex] [| | |sy my ey]; cbn [normal]; try tauto.
  intros [Mx Ex] [My Ey] L U. cbn [SFdiv].
  assert (Dx : Zdigits2 (Zpos mx) = 53%Z)
    by (cbn [Zdigits2]; apply digits2_pos_unique; exact Mx).
  assert (Dy : Zdigits2 (Zpos my) = 53%Z)
    by (cbn [Zdigits2]; apply digits2_pos_unique; exact My).
  unfold SFdiv_core_binary. rewrite Dx, Dy.
  replace (53 + ex - (53 + ey))%Z with (ex - ey)%Z by lia.
  rewrite fexp_normal by lia.
  replace (Z.min (ex - ey - 53) (ex - ey)) with (ex - ey - 53)%Z by lia.
  replace (ex - ey - (ex - ey - 53))%Z with 53%Z by lia.
  cbv iota. rewrite Z.shiftl_mul_pow2 by lia.
  pose proof (Z_div_mod (Zpos mx * 2 ^ 53) (Zpos my) ltac:(lia)) as DM.
  destruct (Z.div_eucl (Zpos mx * 2 ^ 53) (Zpos my)) as [q r].
  destruct DM as [DM Rr].
  assert (Q : (2 ^ 52 <= q < 2 ^ 54)%Z).
  { change (2 ^ 54)%Z with (2 * 2 ^ 53)%Z. change (2 ^ 53)%Z with (2 * 2 ^ 52)%Z in *.
    nia. }
  assert (Dq : (53 <= Zdigits2 q <= 54)%Z).
  { destruct q as [|q|q]; [lia| |lia]. cbn [Zdigits2].
    destruct (Z.lt_ge_cases (Zpos q) (2 ^ 53)) as [C|C].
    - rewrite (@digits2_pos_unique q 53); [lia|].
      change (53 - 1)%Z with 52%Z. lia.
    - rewrite (@digits2_pos_unique q 54); [lia|].
      change (54 - 1)%Z with 53%Z. lia. }
  pose proof (@new_location_spec (Zpos my) r q ltac:(lia) Rr) as I.
  destruct (@round_signed (xorb sx sy) q (ex - ey - 53) (new_location (Zpos my) r)
              _ ltac:(lia) I ltac:(lia) ltac:(lia) ltac:(lia))
    as [N R].
  split.
  - eapply normal_weaken; [| |exact N]; lia.
  - replace (SF2R (S754_finite sx mx ex) / SF2R (S754_finite sy my ey))
      with (sign (xorb sx sy)
            * ((IZR q + IZR r / IZR (Zpos my)) * pow2 (ex - ey - 53)));
      [exact R|].
    cbn [SF2R]. rewrite sign_xorb.
    assert (Py : 0 < IZR (Zpos my)) by (apply IZR_lt; lia).
    assert (E1 : IZR q + IZR r / IZR (Zpos my)
                 = IZR (Zpos mx) * pow2 53 / IZR (Zpos my)).
    { rewrite pow2_IZR, <- mult_IZR, DM, plus_IZR, mult_IZR by lia.
      field. Lra.lra. }
    rewrite E1.
    replace (ex - ey - 53)%Z with (ex + (- ey) + (-53))%Z by lia.
    rewrite !pow2_add.
    rewrite pow2_opp. replace (pow2 (-53)) with (/ pow2 53) by (symmetry; exact (pow2_opp 53)).
    pose proof (pow2_pos ey). pose proof (pow2_pos 53).
    destruct sx, sy; unfold sign; field; repeat split; Lra.lra.
Qed.

End Operations.

Section Sums.

Local Open Scope R_scope.


Lemma iter_xO :
  forall (d m : positive), Zpos (Pos.iter xO m d) = (Zpos m * 2 ^ Zpos d)%Z.
Proof.
  intros d m. induction d as [|d IH] using Pos.peano_ind.
  - cbn [Pos.iter]. change (Zpos m~0) with (2 * Zpos m)%Z. cbn. lia.
  - rewrite Pos.iter_succ, Pos2Z.inj_succ, Z.pow_succ_r by lia.
    change (Zpos (Pos.iter xO m d)~0) with (2 * Zpos (Pos.iter xO m d))%Z.
    rewrite IH. ring.
Qed.

Lemma shl_align_spec :
  forall (m : positive) (e e' : Z),
    (e' <= e)%Z ->
    Zpos (fst (shl_align m e e')) = (Zpos m * 2 ^ (e - e'))%Z
    /\ snd (shl_align m e e') = e'.
Proof.
  intros m e e' L. unfold shl_align.
  destruct (e' - e)%Z as [|d|d] eqn:D; cbn [fst snd].
  - replace (e - e')%Z with 0%Z by lia. cbn. split; lia.
  - lia.
  - rewrite iter_xO. replace (e - e')%Z with (Zpos d) by lia. split; reflexivity.
Qed.

Lemma shl_align_above :
  forall (m : positive) (e e' : Z), (e <= e')%Z -> shl_align m e e' = (m, e).
Proof.
  intros m e e' L. unfold shl_align.
  destruct (e' - e)%Z as [|d|d] eqn:D; [reflexivity|reflexivity|lia].
Qed.

Lemma digits_shift :
  forall (m : positive) (k : Z) (q : positive),
    (0 <= k)%Z -> Zpos q = (Zpos m * 2 ^ k)%Z ->
    Zpos (digits2_pos q) = (Zpos (digits2_pos m) + k)%Z.
Proof.
  intros m k q K E. apply digits2_pos_unique. rewrite E.
  pose proof (digits2_pos_spec m) as [L U].
  assert (P : (0 < 2 ^ k)%Z) by (apply Z.pow_pos_nonneg; lia).
  replace (Zpos (digits2_pos m) + k - 1)%Z
    with ((Zpos (digits2_pos m) - 1) + k)%Z by lia.
  rewrite !Z.pow_add_r by lia. split; nia.
Qed.

(** A mantissa at an exponent, put in canonical form and rounded. *)
Lemma binary_round_rounded :
  forall (sx : bool) (m : positive) (ex : Z),
    let d := Zpos (digits2_pos m) in
    (-1021 <= d + ex)%Z -> (d + ex <= 1023)%Z ->
    let z := binary_round prec emax sx m ex in
    normal (d + ex - 53) (d + ex - 52) z
    /\ rounded z (sign sx * (IZR (Zpos m) * pow2 ex)).
Proof.
  intros sx m ex d L U z. unfold z, binary_round. fold d.
  rewrite fexp_normal by lia.
  destruct (Z.lt_ge_cases (d + ex - 53) ex) as [C|C].
  - destruct (@shl_align_spec m ex (d + ex - 53) ltac:(lia)) as [A1 A2].
    destruct (shl_align m ex (d + ex - 53)) as [mz ez]. cbn [fst snd] in A1, A2.
    subst ez.
    assert (Dz : Zdigits2 (Zpos mz) = 53%Z).
    { cbn [Zdigits2]. rewrite (@digits_shift m (ex - (d + ex - 53)) mz ltac:(lia) A1).
      fold d. lia. }
    assert (I : inbetween (Zpos mz) loc_Exact (IZR (Zpos mz))) by reflexivity.
    destruct (@round_signed sx (Zpos mz) (d + ex - 53) loc_Exact (IZR (Zpos mz))
                ltac:(lia) I ltac:(lia) ltac:(lia) ltac:(lia)) as [N R].
    rewrite Dz in N. split.
    + eapply normal_weaken; [| |exact N]; lia.
    + replace (sign sx * (IZR (Zpos m) * pow2 ex))
        with (sign sx * (IZR (Zpos mz) * pow2 (d + ex - 53))); [exact R|].
      rewrite A1, mult_IZR, <- pow2_IZR by lia.
      rewrite Rmult_assoc, <- pow2_add. do 3 f_equal. lia.
  - rewrite shl_align_above by lia.
    assert (I : inbetween (Zpos m) loc_Exact (IZR (Zpos m))) by reflexivity.
    destruct (@round_signed sx (Zpos m) ex loc_Exact (IZR (Zpos m))
                ltac:(lia) I ltac:(cbn [Zdigits2]; fold d; lia)
                ltac:(cbn [Zdigits2]; fold d; lia)
                ltac:(cbn [Zdigits2]; fold d; lia)) as [N R].
    cbn [Zdigits2] in N. fold d in N. split; [|exact R].
    eapply normal_weaken; [| |exact N]; lia.
Qed.

Lemma IZR_cond_Zopp :
  forall (s : bool) (m : Z), IZR (cond_Zopp s m) = sign s * IZR m.
Proof. intros [|] m; unfold cond_Zopp, sign; [rewrite opp_IZR|]; ring. Qed.

(** An integer at an exponent, put in canonical form and rounded. *)
Lemma binary_normalize_rounding :
  forall (M ez : Z) (bound : Z),
    (-1022 <= ez)%Z -> (Z.abs M < 2 ^ bound)%Z -> (0 <= bound)%Z ->
    (bound + ez <= 1023)%Z ->
    let z := binary_normalize prec emax M ez false in
    moderate (ez - 52) (bound + ez - 52) z
    /\ rounding z (IZR M * pow2 ez).
Proof.
  intros M ez bound L B Bp U z. unfold z, binary_normalize.
  assert (D : forall m : positive,
             (Zpos m < 2 ^ bound)%Z ->
             (1 <= Zpos (digits2_pos m) <= bound)%Z).
  { intros m Bm. split; [lia|].
    pose proof (digits2_pos_spec m) as [Lm _].
    destruct (Z.le_gt_cases (Zpos (digits2_pos m)) bound) as [C|C]; [exact C|].
    exfalso.
    assert (2 ^ bound <= 2 ^ (Zpos (digits2_pos m) - 1))%Z
      by (apply Z.pow_le_mono_r; lia).
    lia. }
  destruct M as [|m|m].
  - cbn [moderate rounding]. split; [exact I|]. rewrite Rmult_0_l. reflexivity.
  - specialize (D m ltac:(lia)).
    destruct (@binary_round_rounded false m ez ltac:(lia) ltac:(lia)) as [N R].
    assert (Nz : normal (ez - 52) (bound + ez - 52) (binary_round prec emax false m ez))
      by (eapply normal_weaken; [| |exact N]; lia).
    replace (IZR (Zpos m) * pow2 ez) with (sign false * (IZR (Zpos m) * pow2 ez))
      by (unfold sign; ring).
    destruct (binary_round prec emax false m ez); cbn [normal] in Nz;
      try contradiction. split; [exact Nz|exact R].
  - specialize (D m ltac:(lia)).
    destruct (@binary_round_rounded true m ez ltac:(lia) ltac:(lia)) as [N R].
    assert (Nz : normal (ez - 52) (bound + ez - 52) (binary_round prec emax true m ez))
      by (eapply normal_weaken; [| |exact N]; lia).
    replace (IZR (Zneg m) * pow2 ez) with (sign true * (IZR (Zpos m) * pow2 ez))
      by (change (Zneg m) with (- Zpos m)%Z; rewrite opp_IZR; unfold sign; ring).
    destruct (binary_round prec emax true m ez); cbn [normal] in Nz;
      try contradiction. split; [exact Nz|exact R].
Qed.

Lemma moderate_weaken :
  forall lo hi lo' hi' z,
    (lo' <= lo)%Z -> (hi <= hi')%Z -> moderate lo hi z -> moderate lo' hi' z.
Proof.
  intros lo hi lo' hi' z L H M. destruct z; cbn [moderate] in *;
    try exact I; eapply normal_weaken; eassumption.
Qed.

Lemma normal_moderate : forall lo hi z, normal lo hi z -> moderate lo hi z.
Proof. intros lo hi z N. destruct z; cbn [moderate]; try exact I; exact N. Qed.

Lemma normal_nonzero : forall lo hi z, normal lo hi z -> SF2R z <> 0.
Proof.
  intros lo hi [s|s| |s m e] N; cbn [normal] in N; try contradiction.
  cbn [SF2R]. pose proof (pow2_pos e).
  assert (0 < IZR (Zpos m)) by (apply IZR_lt; lia).
  assert (0 < IZR (Zpos m) * pow2 e) by (apply Rmult_lt_0_compat; assumption).
  destruct s; unfold sign; Lra.lra.
Qed.

(** A normal double is what its own value is rounded to. *)
Lemma rounded_self :
  forall lo hi z,
    (-1074 <= lo)%Z -> (hi <= 971)%Z -> normal lo hi z -> rounded z (SF2R z).
Proof.
  intros lo hi z L H N. pose proof (normal_nonzero _ _ _ N) as NZ.
  unfold rounded. replace (SF2R z - SF2R z) with 0 by ring. rewrite Rabs_R0.
  split; [eapply normal_weaken; [| |exact N]; lia|].
  split; [pose proof (pow2_pos (-53)); pose proof (Rabs_pos (SF2R z)); Lra.nra|].
  split; [intros f _; apply Rabs_pos|].
  destruct (Rtotal_order (SF2R z) 0) as [C|[C|C]]; [Lra.nra|contradiction|Lra.nra].
Qed.

Lemma rounding_self :
  forall lo hi z,
    (-1074 <= lo)%Z -> (hi <= 971)%Z -> moderate lo hi z -> rounding z (SF2R z).
Proof.
  intros lo hi z L H M. destruct z; cbn [moderate] in M; cbn [rounding];
    try reflexivity; eapply rounded_self; eassumption.
Qed.

Lemma aligned_value :
  forall (s : bool) (m : positive) (e ez : Z),
    (ez <= e)%Z ->
    IZR (cond_Zopp s (Zpos (fst (shl_align m e ez)))) * pow2 ez
    = SF2R (S754_finite s m e).
Proof.
  intros s m e ez L. destruct (shl_align_spec m L) as [A _].
  rewrite IZR_cond_Zopp, A, mult_IZR, <- pow2_IZR by lia. cbn [SF2R].
  rewrite !Rmult_assoc, <- pow2_add. do 3 f_equal. lia.
Qed.

Lemma aligned_bound :
  forall (s : bool) (m : positive) (e ez h : Z),
    (ez <= e)%Z -> (e <= h)%Z -> (Zpos m < 2 ^ 53)%Z ->
    (Z.abs (cond_Zopp s (Zpos (fst (shl_align m e ez)))) < 2 ^ (53 + h - ez))%Z.
Proof.
  intros s m e ez h L H B. destruct (shl_align_spec m L) as [A _].
  assert (Z.abs (cond_Zopp s (Zpos (fst (shl_align m e ez))))
          = Zpos (fst (shl_align m e ez))) as -> by (destruct s; cbn; lia).
  rewrite A. replace (53 + h - ez)%Z with (53 + (h - ez))%Z by lia.
  rewrite Z.pow_add_r by lia.
  assert (2 ^ (e - ez) <= 2 ^ (h - ez))%Z by (apply Z.pow_le_mono_r; lia).
  assert (0 < 2 ^ (e - ez))%Z by (apply Z.pow_pos_nonneg; lia).
  nia.
Qed.

(** The sum or difference of two aligned mantissas, rounded. *)
Lemma aligned_sum_rounding :
  forall (l h : Z) (sx sy : bool) (mx my : positive) (ex ey : Z) (A B : Z)
    (X Y : R),
    (-1022 <= l)%Z -> (h <= 969)%Z ->
    (l <= ex <= h)%Z -> (l <= ey <= h)%Z ->
    (Zpos mx < 2 ^ 53)%Z -> (Zpos my < 2 ^ 53)%Z ->
    A = cond_Zopp sx (Zpos (fst (shl_align mx ex (Z.min ex ey)))) ->
    (B = cond_Zopp sy (Zpos (fst (shl_align my ey (Z.min ex ey))))
     \/ B = (- cond_Zopp sy (Zpos (fst (shl_align my ey (Z.min ex ey)))))%Z) ->
    X = IZR A * pow2 (Z.min ex ey) -> Y = IZR B * pow2 (Z.min ex ey) ->
    let z := binary_normalize prec emax (A + B) (Z.min ex ey) false in
    moderate (l - 52) (h + 2) z /\ rounding z (X + Y).
Proof.
  intros l h sx sy mx my ex ey A B X Y L H Ex Ey Mx My EA EB EX EY z.
  set (ez := Z.min ex ey) in *.
  pose proof (@aligned_bound sx mx ex ez h ltac:(lia) ltac:(lia) Mx) as BA.
  pose proof (@aligned_bound sy my ey ez h ltac:(lia) ltac:(lia) My) as BB.
  rewrite <- EA in BA.
  assert (BB' : (Z.abs B < 2 ^ (53 + h - ez))%Z) by (destruct EB; subst B; lia).
  assert (P : (2 ^ (54 + h - ez) = 2 * 2 ^ (53 + h - ez))%Z).
  { replace (54 + h - ez)%Z with (Z.succ (53 + h - ez)) by lia.
    apply Z.pow_succ_r. lia. }
  destruct (@binary_normalize_rounding (A + B) ez (54 + h - ez)
              ltac:(lia) ltac:(lia) ltac:(lia) ltac:(lia)) as [M R].
  split.
  - eapply moderate_weaken; [| |exact M]; lia.
  - replace (X + Y) with (IZR (A + B) * pow2 ez); [exact R|].
    rewrite plus_IZR, EX, EY. ring.
Qed.

Lemma SFadd_rounding :
  forall l h x y,
    moderate l h x -> moderate l h y ->
    (-1022 <= l)%Z -> (h <= 969)%Z ->
    moderate (l - 52) (h + 2) (SFadd prec emax x y)
    /\ rounding (SFadd prec emax x y) (SF2R x + SF2R y).
Proof.
  intros l h x y Mx My L H.
  destruct x as [sx|sx| |sx mx ex], y as [sy|sy| |sy my ey];
    cbn [moderate normal] in Mx, My; try contradiction.
  - cbn [SFadd SF2R]. destruct sx, sy; cbn [moderate rounding]; split;
      try exact I; ring.
  - cbn [SFadd]. split.
    + apply normal_moderate. eapply normal_weaken; [| |exact My]; lia.
    + replace (SF2R (S754_zero sx) + SF2R (S754_finite sy my ey))
        with (SF2R (S754_finite sy my ey)) by (cbn [SF2R]; ring).
      apply (@rounded_self l h); [lia|lia|exact My].
  - cbn [SFadd]. split.
    + apply normal_moderate. eapply normal_weaken; [| |exact Mx]; lia.
    + replace (SF2R (S754_finite sx mx ex) + SF2R (S754_zero sy))
        with (SF2R (S754_finite sx mx ex)) by (cbn [SF2R]; ring).
      apply (@rounded_self l h); [lia|lia|exact Mx].
  - cbn [SFadd]. destruct Mx as [[_ Bx] Ex], My as [[_ By] Ey].
    refine (@aligned_sum_rounding l h sx sy mx my ex ey _ _ _ _
              L H Ex Ey Bx By eq_refl (or_introl eq_refl) _ _).
    + symmetry. apply aligned_value. lia.
    + symmetry. apply aligned_value. lia.
Qed.

Lemma SFsub_rounding :
  forall l h x y,
    moderate l h x -> moderate l h y ->
    (-1022 <= l)%Z -> (h <= 969)%Z ->
    moderate (l - 52) (h + 2) (SFsub prec emax x y)
    /\ rounding (SFsub prec emax x y) (SF2R x - SF2R y).
Proof.
  intros l h x y Mx My L H.
  destruct x as [sx|sx| |sx mx ex], y as [sy|sy| |sy my ey];
    cbn [moderate normal] in Mx, My; try contradiction.
  - cbn [SFsub SF2R]. destruct sx, sy; cbn [moderate rounding]; split;
      try exact I; ring.
  - cbn [SFsub]. assert (N : normal l h (S754_finite (negb sy) my ey)) by exact My.
    split.
    + apply normal_moderate. eapply normal_weaken; [| |exact N]; lia.
    + replace (SF2R (S754_zero sx) - SF2R (S754_finite sy my ey))
        with (SF2R (S754_finite (negb sy) my ey))
        by (cbn [SF2R]; rewrite sign_negb; ring).
      apply (@rounded_self l h); [lia|lia|exact N].
  - cbn [SFsub]. split.
    + apply normal_moderate. eapply normal_weaken; [| |exact Mx]; lia.
    + replace (SF2R (S754_finite sx mx ex) - SF2R (S754_zero sy))
        with (SF2R (S754_finite sx mx ex)) by (cbn [SF2R]; ring).
      apply (@rounded_self l h); [lia|lia|exact Mx].
  - cbn [SFsub].
    replace (SF2R (S754_finite sx mx ex) - SF2R (S754_finite sy my ey))
      with (SF2R (S754_finite sx mx ex) + - SF2R (S754_finite sy my ey)) by ring.
    rewrite <- Z.add_opp_r. destruct Mx as [[_ Bx] Ex], My as [[_ By] Ey].
    refine (@aligned_sum_rounding l h sx sy mx my ex ey _ _ _ _
              L H Ex Ey Bx By eq_refl (or_intror eq_refl) _ _).
    + symmetry. apply aligned_value. lia.
    + rewrite opp_IZR, <- (@aligned_value sy my ey (Z.min ex ey)) by lia. ring.
Qed.

End Sums.

Section Results.

Local Open Scope R_scope.

Lemma SFmul_rounding :
  forall l1 h1 l2 h2 x y,
    moderate l1 h1 x -> moderate l2 h2 y ->
    (-1074 <= l1 + l2 + 52)%Z -> (h1 + h2 + 106 <= 1023)%Z ->
    moderate (l1 + l2 + 52) (h1 + h2 + 54) (SFmul prec emax x y)
    /\ rounding (SFmul prec emax x y) (SF2R x * SF2R y).
Proof.
  intros l1 h1 l2 h2 x y Mx My L H.
  destruct x as [sx|sx| |sx mx ex], y as [sy|sy| |sy my ey];
    cbn [moderate normal] in Mx, My; try contradiction;
    try (cbn [SFmul SF2R moderate rounding]; split; [exact I|ring]).
  destruct (@SFmul_rounded l1 h1 l2 h2 (S754_finite sx mx ex)
              (S754_finite sy my ey) Mx My L H) as [N R].
  split; [apply normal_moderate; exact N|].
  destruct (SFmul prec emax (S754_finite sx mx ex) (S754_finite sy my ey));
    cbn [normal] in N; try contradiction. exact R.
Qed.

Lemma SFdiv_rounding :
  forall l1 h1 l2 h2 x y,
    moderate l1 h1 x -> normal l2 h2 y ->
    (-1021 <= l1 - h2)%Z -> (h1 - l2 <= 1022)%Z ->
    moderate (l1 - h2 - 53) (h1 - l2 - 51) (SFdiv prec emax x y)
    /\ rounding (SFdiv prec emax x y) (SF2R x / SF2R y).
Proof.
  intros l1 h1 l2 h2 x y Mx Ny L H.
  pose proof (normal_nonzero _ _ _ Ny) as NZ.
  destruct x as [sx|sx| |sx mx ex], y as [sy|sy| |sy my ey];
    cbn [moderate normal] in Mx, Ny; try contradiction.
  - cbn [SFdiv moderate rounding]. split; [exact I|].
    cbn [SF2R]. unfold Rdiv. ring.
  - destruct (@SFdiv_rounded l1 h1 l2 h2 (S754_finite sx mx ex)
                (S754_finite sy my ey) Mx Ny L H) as [N R].
    split; [apply normal_moderate; exact N|].
    destruct (SFdiv prec emax (S754_finite sx mx ex) (S754_finite sy my ey));
      cbn [normal] in N; try contradiction. exact R.
Qed.

(** What is rounded is zero only when it was zero. *)
Lemma rounding_zero : forall z, rounding z 0 -> SF2R z = 0.
Proof.
  intros z R. destruct z; cbn [rounding] in R; try reflexivity;
    destruct R as (_ & _ & _ & P); Lra.lra.
Qed.

(** A rounding has a relative error of at most 2^-53. *)
Lemma rounding_relative :
  forall z X, rounding z X -> Rabs (SF2R z - X) <= pow2 (-53) * Rabs X.
Proof.
  intros z X R. destruct z; cbn [rounding] in R;
    try (destruct R as (_ & E & _); exact E).
  subst X. cbn [SF2R]. replace (0 - 0) with 0 by ring. rewrite Rabs_R0. Lra.lra.
Qed.

Lemma rounding_factor :
  forall z X, rounding z X ->
    exists d, SF2R z = X * (1 + d) /\ Rabs d <= pow2 (-53).
Proof.
  intros z X R. pose proof (rounding_relative _ _ R) as E.
  destruct (Req_dec X 0) as [->|NZ].
  - exists 0. rewrite (rounding_zero _ R). split; [ring|].
    rewrite Rabs_R0. pose proof (pow2_pos (-53)). Lra.lra.
  - exists ((SF2R z - X) / X). split; [field; exact NZ|].
    unfold Rdiv. rewrite Rabs_mult, Rabs_inv.
    pose proof (Rabs_pos_lt _ NZ) as P.
    apply Rmult_le_reg_r with (Rabs X); [exact P|].
    rewrite Rmult_assoc, Rinv_l, Rmult_1_r by Lra.lra. exact E.
Qed.

Lemma moderate_double :
  forall lo hi z,
    (-1074 <= lo)%Z -> (hi <= 971)%Z -> moderate lo hi z -> double z.
Proof.
  intros lo hi z L H M. destruct z; cbn [moderate] in M; try exact I;
    eapply normal_double; eassumption.
Qed.

Lemma rounding_double : forall z X, rounding z X -> double z.
Proof.
  intros z X R. destruct z; cbn [rounding] in R; try exact I;
    destruct R as (N & _); cbn [normal] in N; try contradiction.
  apply (@normal_double (-1074) 971); [lia|lia|exact N].
Qed.

(** Rounding keeps the order. *)
Lemma rounding_monotone :
  forall z1 z2 X Y,
    rounding z1 X -> rounding z2 Y -> X < Y -> SF2R z1 <= SF2R z2.
Proof.
  intros z1 z2 X Y R1 R2 L.
  pose proof (rounding_double _ _ R1) as D1.
  pose proof (rounding_double _ _ R2) as D2.
  assert (A1 : X = 0 /\ SF2R z1 = 0 \/ rounded z1 X).
  { destruct z1; cbn [rounding] in R1; try (right; exact R1).
    left. split; [exact R1|reflexivity]. }
  assert (A2 : Y = 0 /\ SF2R z2 = 0 \/ rounded z2 Y).
  { destruct z2; cbn [rounding] in R2; try (right; exact R2).
    left. split; [exact R2|reflexivity]. }
  destruct A1 as [[X0 Z1]|(_ & _ & N1 & S1)], A2 as [[Y0 Z2]|(_ & _ & N2 & S2)].
  - Lra.lra.
  - rewrite Z1. subst X. Lra.nra.
  - rewrite Z2. subst Y. Lra.nra.
  - specialize (N1 z2 D2). specialize (N2 z1 D1).
    destruct (Rle_or_lt (SF2R z1) (SF2R z2)) as [C|C]; [exact C|exfalso].
    unfold Rabs in N1, N2.
    repeat match goal with
           | H : context [Rcase_abs ?a] |- _ => destruct (Rcase_abs a)
           end; Lra.lra.
Qed.

(** Two normal doubles of one value are the same. *)
Lemma normal_unique :
  forall lo hi lo' hi' x y,
    normal lo hi x -> normal lo' hi' y -> SF2R x = SF2R y -> x = y.
Proof.
  intros lo hi lo' hi' [sx|sx| |sx mx ex] [sy|sy| |sy my ey] Nx Ny E;
    cbn [normal] in Nx, Ny; try contradiction.
  destruct Nx as [[Lx Ux] _], Ny as [[Ly Uy] _]. cbn [SF2R] in E.
  assert (Px : 0 < IZR (Zpos mx) * pow2 ex)
    by (apply Rmult_lt_0_compat; [apply IZR_lt; lia|apply pow2_pos]).
  assert (Py : 0 < IZR (Zpos my) * pow2 ey)
    by (apply Rmult_lt_0_compat; [apply IZR_lt; lia|apply pow2_pos]).
  assert (Es : sx = sy) by (destruct sx, sy; unfold sign in E; try reflexivity; Lra.lra).
  subst sy.
  assert (Em : IZR (Zpos mx) * pow2 ex = IZR (Zpos my) * pow2 ey)
    by (destruct sx; unfold sign in E; Lra.lra).
  assert (W : forall (a b : positive) (ea eb : Z),
             (2 ^ 52 <= Zpos a < 2 ^ 53)%Z -> (2 ^ 52 <= Zpos b < 2 ^ 53)%Z ->
             IZR (Zpos a) * pow2 ea = IZR (Zpos b) * pow2 eb ->
             (ea < eb)%Z -> False).
  { intros a b ea eb Ba Bb Eab Lab.
    replace eb with (ea + (eb - ea))%Z in Eab by lia.
    rewrite pow2_add, (@pow2_IZR (eb - ea)%Z) in Eab by lia.
    pose proof (pow2_pos ea) as Pa.
    assert (Ei : IZR (Zpos a) = IZR (Zpos b * 2 ^ (eb - ea)))
      by (rewrite mult_IZR; Lra.nra).
    apply eq_IZR in Ei.
    assert (2 ^ 1 <= 2 ^ (eb - ea))%Z by (apply Z.pow_le_mono_r; lia).
    change (2 ^ 1)%Z with 2%Z in *. nia. }
  destruct (Z.lt_trichotomy ex ey) as [C|[C|C]].
  - exfalso. exact (W mx my ex ey (conj Lx Ux) (conj Ly Uy) Em C).
  - subst ey. pose proof (pow2_pos ex) as Pe.
    assert (Ei : IZR (Zpos mx) = IZR (Zpos my)) by Lra.nra.
    apply eq_IZR in Ei. congruence.
  - exfalso. exact (W my mx ey ex (conj Ly Uy) (conj Lx Ux) (eq_sym Em) C).
Qed.

End Results.

Section Order.

Local Open Scope R_scope.

Lemma magnitude_lt :
  forall (a b : positive) (ea eb : Z),
    (Zpos a < 2 ^ 53)%Z -> (2 ^ 52 <= Zpos b)%Z -> (ea < eb)%Z ->
    IZR (Zpos a) * pow2 ea < IZR (Zpos b) * pow2 eb.
Proof.
  intros a b ea eb Ua Lb L.
  replace eb with (ea + 1 + (eb - ea - 1))%Z by lia.
  rewrite !pow2_add, pow2_1, (@pow2_IZR (eb - ea - 1)%Z) by lia.
  pose proof (pow2_pos ea) as Pa.
  assert (1 <= IZR (2 ^ (eb - ea - 1)))
    by (apply IZR_le; assert (0 < 2 ^ (eb - ea - 1))%Z
          by (apply Z.pow_pos_nonneg; lia); lia).
  apply IZR_lt in Ua. apply IZR_le in Lb.
  change (2 ^ 53)%Z with (2 * 2 ^ 52)%Z in Ua. rewrite mult_IZR in Ua.
  assert (0 < IZR (2 ^ 52)) by (apply IZR_lt; reflexivity).
  assert (IZR (Zpos a) * pow2 ea < 2 * IZR (Zpos b) * pow2 ea) by Lra.nra.
  assert (0 < IZR (Zpos b) * pow2 ea) by Lra.nra.
  Lra.nra.
Qed.

(** The comparison of two doubles, neither subnormal, is that of their
    values. *)
Lemma SFcompare_spec :
  forall lo hi lo' hi' x y,
    moderate lo hi x -> moderate lo' hi' y ->
    match SFcompare x y with
    | Some Lt => SF2R x < SF2R y
    | Some Eq => SF2R x = SF2R y
    | Some Gt => SF2R y < SF2R x
    | None => False
    end.
Proof.
  intros lo hi lo' hi' [sx|sx| |sx mx ex] [sy|sy| |sy my ey] Mx My;
    cbn [moderate normal] in Mx, My; try contradiction.
  - reflexivity.
  - pose proof (@normal_nonzero lo' hi' (S754_finite sy my ey) My) as NZ.
    cbn [SFcompare SF2R] in *.
    assert (P : 0 < IZR (Zpos my) * pow2 ey)
      by (apply Rmult_lt_0_compat; [apply IZR_lt; lia|apply pow2_pos]).
    destruct sy; unfold sign; Lra.lra.
  - cbn [SFcompare SF2R] in *.
    assert (P : 0 < IZR (Zpos mx) * pow2 ex)
      by (apply Rmult_lt_0_compat; [apply IZR_lt; lia|apply pow2_pos]).
    destruct sx; unfold sign; Lra.lra.
  - destruct Mx as [[Lx Ux] _], My as [[Ly Uy] _].
    assert (Px : 0 < IZR (Zpos mx) * pow2 ex)
      by (apply Rmult_lt_0_compat; [apply IZR_lt; lia|apply pow2_pos]).
    assert (Py : 0 < IZR (Zpos my) * pow2 ey)
      by (apply Rmult_lt_0_compat; [apply IZR_lt; lia|apply pow2_pos]).
    assert (C : match Z.compare ex ey with
                | Lt => IZR (Zpos mx) * pow2 ex < IZR (Zpos my) * pow2 ey
                | Gt => IZR (Zpos my) * pow2 ey < IZR (Zpos mx) * pow2 ex
                | Eq => match Pos.compare_cont Eq mx my with
                        | Lt => IZR (Zpos mx) * pow2 ex < IZR (Zpos my) * pow2 ey
                        | Gt => IZR (Zpos my) * pow2 ey < IZR (Zpos mx) * pow2 ex
                        | Eq => IZR (Zpos mx) * pow2 ex = IZR (Zpos my) * pow2 ey
                        end
                end).
    { destruct (Z.compare_spec ex ey) as [E|L|L].
      - subst ey. pose proof (pow2_pos ex) as Pe.
        change (Pos.compare_cont Eq mx my) with (Pos.compare mx my).
        destruct (Pos.compare_spec mx my) as [E|L|L].
        + subst my. reflexivity.
        + apply Rmult_lt_compat_r; [exact Pe|]. apply IZR_lt. lia.
        + apply Rmult_lt_compat_r; [exact Pe|]. apply IZR_lt. lia.
      - apply magnitude_lt; assumption.
      - apply magnitude_lt; [assumption|assumption|lia]. }
    cbn [SFcompare SF2R].
    destruct sx, sy; unfold sign; try Lra.lra;
      destruct (Z.compare ex ey); try Lra.lra;
      destruct (Pos.compare_cont Eq mx my); cbn [CompOpp]; Lra.lra.
Qed.

Lemma SFltb_spec :
  forall lo hi lo' hi' x y,
    moderate lo hi x -> moderate lo' hi' y ->
    (SFltb x y = true <-> SF2R x < SF2R y).
Proof.
  intros lo hi lo' hi' x y Mx My.
  pose proof (SFcompare_spec _ _ _ _ _ _ Mx My) as C. unfold SFltb.
  destruct (SFcompare x y) as [[| |]|]; try contradiction;
    split; intro A; try reflexivity; try discriminate; Lra.lra.
Qed.

Lemma SFleb_spec :
  forall lo hi lo' hi' x y,
    moderate lo hi x -> moderate lo' hi' y ->
    (SFleb x y = true <-> SF2R x <= SF2R y).
Proof.
  intros lo hi lo' hi' x y Mx My.
  pose proof (SFcompare_spec _ _ _ _ _ _ Mx My) as C. unfold SFleb.
  destruct (SFcompare x y) as [[| |]|]; try contradiction;
    split; intro A; try reflexivity; try discriminate; Lra.lra.
Qed.

End Order.

(** ** Unit conversion there and back *)

Section Doubles.

Local Open Scope R_scope.

Lemma magnitude_bounds :
  forall lo hi v, magnitude lo hi v -> pow2 lo <= Rabs (B2R v) < pow2 hi.
Proof.
  intros lo hi v. unfold magnitude, B2R.
  destruct (Prim2SF v) as [s|s| |s m e]; cbn [normal]; try contradiction.
  intros [[Lm Um] [Le Ue]]. cbn [SF2R]. rewrite Rabs_sign.
  assert (P : 0 < IZR (Zpos m) * pow2 e)
    by (apply Rmult_lt_0_compat; [apply IZR_lt; lia|apply pow2_pos]).
  rewrite Rabs_pos_eq by Lra.lra.
  apply IZR_le in Lm. apply IZR_lt in Um.
  rewrite <- !pow2_IZR in Lm, Um by lia.
  pose proof (pow2_pos e) as Pe. split.
  - replace lo with (52 + (lo - 52))%Z by lia. rewrite pow2_add.
    pose proof (pow2_le Le) as A. pose proof (pow2_pos 52).
    pose proof (pow2_pos (lo - 52)). Lra.nra.
  - replace hi with (53 + (hi - 53))%Z by lia. rewrite pow2_add.
    pose proof (pow2_le Ue) as A. pose proof (pow2_pos 53).
    pose proof (pow2_pos (hi - 53)). Lra.nra.
Qed.

Lemma isZero_value : forall v, isZero v -> B2R v = 0.
Proof.
  intros v. unfold isZero, B2R.
  destruct (Prim2SF v); try contradiction. reflexivity.
Qed.

(** The doubles this development follows are finite for [isFinite]. *)
Lemma moderate_finite :
  forall lo hi v, moderate lo hi (Prim2SF v) -> PrimFloat.is_finite v = true.
Proof.
  intros lo hi v M. unfold PrimFloat.is_finite, is_nan, is_infinity.
  rewrite !FloatAxioms.eqb_spec, abs_spec.
  change (Prim2SF infinity) with (S754_infinity false).
  destruct (Prim2SF v) as [s|s| |s m e]; cbn [moderate normal] in M;
    try contradiction.
  - reflexivity.
  - unfold SFeqb. cbn [SFabs SFcompare].
    rewrite Z.compare_refl.
    change (Pos.compare_cont Eq m m) with (Pos.compare m m).
    rewrite Pos.compare_refl. destruct s; reflexivity.
Qed.

Lemma ranged_moderate :
  forall v, isZero v \/ magnitude (-900) 900 v -> moderate (-952) 847 (Prim2SF v).
Proof.
  intros v [Z|B].
  - unfold isZero in Z. destruct (Prim2SF v); try contradiction. exact I.
  - apply normal_moderate. exact B.
Qed.

End Doubles.

Section RoundTripDoubles.

Local Open Scope R_scope.

Local Existing Instance binary64.

Lemma unit_roundoff : pow2 (-53) <= 12 / 100000000000000000.
Proof.
  replace (pow2 (-53)) with (/ pow2 53) by (symmetry; exact (pow2_opp 53)).
  rewrite (@pow2_IZR 53%Z) by lia.
  change (2 ^ 53)%Z with 9007199254740992%Z.
  apply Rmult_le_reg_r with 9007199254740992; [Lra.lra|].
  rewrite Rinv_l by Lra.lra. Lra.lra.
Qed.

Lemma Rabs_bound : forall a b, Rabs a <= b -> - b <= a <= b.
Proof. intros a b. unfold Rabs. destruct (Rcase_abs a); Lra.lra. Qed.

(** One more rounding after roundings that add up to [a]. *)
Lemma rounding_composed :
  forall (p d a : R),
    Rabs (p - 1) <= a -> Rabs d <= pow2 (-53) -> 0 <= a <= 1 ->
    Rabs (p * (1 + d) - 1) <= a + 2 * pow2 (-53).
Proof.
  intros p d a P D A. pose proof unit_roundoff as U.
  pose proof (pow2_pos (-53)) as Up.
  apply Rabs_le. apply Rabs_bound in P. apply Rabs_bound in D.
  split; Lra.nra.
Qed.

Lemma float_factor_entry :
  forall (units : @object float) (u : string),
    List.forallb isFloatFactor units = true -> In u (keys units) ->
    exists f, factorOf units u = Some f /\ normal (-72) (-28) (Prim2SF f).
Proof.
  induction units as [|[k x] rest IH]; intros u F I; [contradiction|].
  cbn [List.forallb] in F. apply andb_prop in F. destruct F as [Fk F].
  unfold factorOf. cbn [lookup].
  destruct (String.eqb_spec u k) as [->|N].
  - unfold isFloatFactor in Fk. cbn [snd] in Fk. destruct x; try discriminate.
    apply andb_prop in Fk. destruct Fk as [T S].
    apply negb_true_iff in T. rewrite T. exists n. split; [reflexivity|].
    destruct (Prim2SF n) as [s|s| |s m e]; try discriminate. cbn [normal].
    repeat (apply andb_prop in S; destruct S as [S ?]). lia.
  - destruct I as [E|I]; [cbn in E; congruence|]. exact (IH u F I).
Qed.

(** There and back in a linear category: four roundings. *)
Lemma linear_there_and_back :
  forall (v f1 f2 : float),
    moderate (-952) 847 (Prim2SF v) ->
    normal (-72) (-28) (Prim2SF f1) -> normal (-72) (-28) (Prim2SF f2) ->
    let r := (((v * f1) / f2) * f2 / f1)%float in
    moderate (-1074) 971 (Prim2SF r)
    /\ Rabs (B2R r - B2R v) <= 1 / 1000000000 * Rabs (B2R v).
Proof.
  intros v f1 f2 Mv N1 N2 r. unfold r, B2R.
  rewrite !div_spec, !mul_spec, !div_spec, !mul_spec.
  unfold SF64div, SF64mul.
  set (V := Prim2SF v) in *. set (F1 := Prim2SF f1) in *.
  set (F2 := Prim2SF f2) in *.
  pose proof (normal_moderate _ _ _ N1) as M1.
  pose proof (normal_moderate _ _ _ N2) as M2.
  destruct (@SFmul_rounding _ _ _ _ V F1 Mv M1 ltac:(lia) ltac:(lia)) as [Ma Ra].
  set (a := SFmul prec emax V F1) in *.
  destruct (@SFdiv_rounding _ _ _ _ a F2 Ma N2 ltac:(lia) ltac:(lia)) as [Mb Rb].
  set (b := SFdiv prec emax a F2) in *.
  destruct (@SFmul_rounding _ _ _ _ b F2 Mb M2 ltac:(lia) ltac:(lia)) as [Mc Rc].
  set (c := SFmul prec emax b F2) in *.
  destruct (@SFdiv_rounding _ _ _ _ c F1 Mc N1 ltac:(lia) ltac:(lia)) as [Md Rd].
  set (d := SFdiv prec emax c F1) in *.
  split; [eapply moderate_weaken; [| |exact Md]; lia|].
  destruct (rounding_factor _ _ Ra) as (da & Ea & Da).
  destruct (rounding_factor _ _ Rb) as (db & Eb & Db).
  destruct (rounding_factor _ _ Rc) as (dc & Ec & Dc).
  destruct (rounding_factor _ _ Rd) as (dd & Ed & Dd).
  pose proof (normal_nonzero _ _ _ N1) as Z1.
  pose proof (normal_nonzero _ _ _ N2) as Z2.
  assert (E : SF2R d - SF2R V
              = SF2R V * ((1 + da) * (1 + db) * (1 + dc) * (1 + dd) - 1)).
  { rewrite Ed, Ec, Eb, Ea. field. split; assumption. }
  rewrite E, Rabs_mult, Rmult_comm.
  apply Rmult_le_compat_r; [apply Rabs_pos|].
  pose proof unit_roundoff as U. pose proof (pow2_pos (-53)) as Up.
  assert (A1 : Rabs ((1 + da) - 1) <= pow2 (-53))
    by (replace (1 + da - 1) with da by ring; exact Da).
  pose proof (@rounding_composed _ db _ A1 Db ltac:(Lra.lra)) as A2.
  pose proof (@rounding_composed _ dc _ A2 Dc ltac:(Lra.lra)) as A3.
  pose proof (@rounding_composed _ dd _ A3 Dd ltac:(Lra.lra)) as A4.
  Lra.lra.
Qed.

End RoundTripDoubles.

Section Temperature.

Local Open Scope R_scope.

Local Existing Instance binary64.

Lemma convertTemperature_scales :
  forall (num : Type) (arith : Arith num) (v : num) (u1 u2 : string)
    (s1 s2 : Scale),
    scaleOf u1 = Some s1 -> scaleOf u2 = Some s2 ->
    convertTemperature v u1 u2 = Ok (fromCelsius s2 (toCelsius s1 v)).
Proof.
  intros num arith v u1 u2 s1 s2. unfold scaleOf, convertTemperature.
  cbv zeta.
  destruct (isCelsius (Str.toLowerCase u1));
    [|destruct (isFahrenheit (Str.toLowerCase u1));
      [|destruct (isKelvin (Str.toLowerCase u1))]];
    intro E1; try discriminate; injection E1 as <-;
    (destruct (isCelsius (Str.toLowerCase u2));
     [|destruct (isFahrenheit (Str.toLowerCase u2));
       [|destruct (isKelvin (Str.toLowerCase u2))]]);
    intro E2; try discriminate; injection E2 as <-; reflexivity.
Qed.

(** The error of one operation more: the operands' error, taken [g] times,
    and one rounding. *)
Lemma near_core :
  forall (z : spec_float) (X T g k B : R),
    rounding z X -> Rabs (X - T) <= g * (k * (pow2 (-53) * B)) ->
    Rabs T <= B -> 0 <= g -> 0 <= k -> 0 <= B -> g * k <= 1000 ->
    Rabs (SF2R z - T) <= (g * k + 2) * (pow2 (-53) * B).
Proof.
  intros z X T g k B R E TB G K Bp GK.
  pose proof (rounding_relative _ _ R) as Q.
  pose proof unit_roundoff as U. pose proof (pow2_pos (-53)) as Up.
  assert (XB : Rabs X <= B + g * (k * (pow2 (-53) * B))).
  { replace X with (T + (X - T)) by ring.
    eapply Rle_trans; [apply Rabs_triang|]. Lra.lra. }
  replace (SF2R z - T) with ((SF2R z - X) + (X - T)) by ring.
  eapply Rle_trans; [apply Rabs_triang|].
  assert (0 <= g * k) by Lra.nra.
  assert (0 <= pow2 (-53) * B) by Lra.nra.
  assert (pow2 (-53) * Rabs X
          <= pow2 (-53) * (B + g * (k * (pow2 (-53) * B)))) by Lra.nra.
  assert (g * k * pow2 (-53) * (pow2 (-53) * B)
          <= g * k * (12 / 100000000000000000) * (pow2 (-53) * B)).
  { apply Rmult_le_compat_r; [assumption|]. Lra.nra. }
  assert (g * k * (12 / 100000000000000000) * (pow2 (-53) * B)
          <= 1 * (pow2 (-53) * B)).
  { apply Rmult_le_compat_r; [assumption|]. Lra.lra. }
  Lra.nra.
Qed.

Lemma near_add :
  forall l h l2 h2 k B t T c,
    near l h k B t T -> normal l2 h2 (Prim2SF c) -> 0 <= B ->
    (-1022 <= Z.min l l2)%Z -> (Z.max h h2 <= 969)%Z ->
    Rabs (T + B2R c) <= B -> 1 * k <= 1000 ->
    near (Z.min l l2 - 52) (Z.max h h2 + 2)
      (1 * k + 2) B
      (t + c)%float (T + B2R c).
Proof.
  intros l h l2 h2 k B t T c (M & K & E) N Bp L H TB GK. unfold near, B2R in *.
  rewrite add_spec. unfold SF64add.
  destruct (@SFadd_rounding (Z.min l l2) (Z.max h h2) (Prim2SF t) (Prim2SF c))
    as [Mz Rz]; try assumption.
  - eapply moderate_weaken; [| |exact M]; lia.
  - apply normal_moderate. eapply normal_weaken; [| |exact N]; lia.
  - split; [exact Mz|]. split; [Lra.nra|].
    apply (@near_core _ _ _ 1 k B Rz); try Lra.lra.
    replace (SF2R (Prim2SF t) + SF2R (Prim2SF c) - (T + SF2R (Prim2SF c)))
      with (SF2R (Prim2SF t) - T) by ring. Lra.lra.
Qed.

Lemma near_sub :
  forall l h l2 h2 k B t T c,
    near l h k B t T -> normal l2 h2 (Prim2SF c) -> 0 <= B ->
    (-1022 <= Z.min l l2)%Z -> (Z.max h h2 <= 969)%Z ->
    Rabs (T - B2R c) <= B -> 1 * k <= 1000 ->
    near (Z.min l l2 - 52) (Z.max h h2 + 2)
      (1 * k + 2) B
      (t - c)%float (T - B2R c).
Proof.
  intros l h l2 h2 k B t T c (M & K & E) N Bp L H TB GK. unfold near, B2R in *.
  rewrite sub_spec. unfold SF64sub.
  destruct (@SFsub_rounding (Z.min l l2) (Z.max h h2) (Prim2SF t) (Prim2SF c))
    as [Mz Rz]; try assumption.
  - eapply moderate_weaken; [| |exact M]; lia.
  - apply normal_moderate. eapply normal_weaken; [| |exact N]; lia.
  - split; [exact Mz|]. split; [Lra.nra|].
    apply (@near_core _ _ _ 1 k B Rz); try Lra.lra.
    replace (SF2R (Prim2SF t) - SF2R (Prim2SF c) - (T - SF2R (Prim2SF c)))
      with (SF2R (Prim2SF t) - T) by ring. Lra.lra.
Qed.

Lemma near_mul :
  forall l h l2 h2 k B t T c g,
    near l h k B t T -> normal l2 h2 (Prim2SF c) -> 0 <= B ->
    (-1074 <= l + l2 + 52)%Z -> (h + h2 + 106 <= 1023)%Z ->
    Rabs (B2R c) <= g ->
    Rabs (T * B2R c) <= B -> g * k <= 1000 ->
    near (l + l2 + 52) (h + h2 + 54)
      (g * k + 2) B
      (t * c)%float (T * B2R c).
Proof.
  intros l h l2 h2 k B t T c g (M & K & E) N Bp L H G TB GK.
  unfold near, B2R in *. rewrite mul_spec. unfold SF64mul.
  destruct (@SFmul_rounding l h l2 h2 (Prim2SF t) (Prim2SF c))
    as [Mz Rz]; try assumption.
  - apply normal_moderate. exact N.
  - pose proof (Rabs_pos (SF2R (Prim2SF c))) as Cp.
    pose proof (pow2_pos (-53)) as Up.
    split; [exact Mz|]. split; [Lra.nra|].
    apply (@near_core _ _ _ g k B Rz); try Lra.lra.
    replace (SF2R (Prim2SF t) * SF2R (Prim2SF c) - T * SF2R (Prim2SF c))
      with ((SF2R (Prim2SF t) - T) * SF2R (Prim2SF c)) by ring.
    rewrite Rabs_mult.
    pose proof (Rabs_pos (SF2R (Prim2SF t) - T)). Lra.nra.
Qed.

Lemma near_div :
  forall l h l2 h2 k B t T c g,
    near l h k B t T -> normal l2 h2 (Prim2SF c) -> 0 <= B ->
    (-1021 <= l - h2)%Z -> (h - l2 <= 1022)%Z ->
    0 < g -> / g <= Rabs (B2R c) ->
    Rabs (T / B2R c) <= B -> g * k <= 1000 ->
    near (l - h2 - 53) (h - l2 - 51)
      (g * k + 2) B
      (t / c)%float (T / B2R c).
Proof.
  intros l h l2 h2 k B t T c g (M & K & E) N Bp L H G GC TB GK.
  unfold near, B2R in *. rewrite div_spec. unfold SF64div.
  destruct (@SFdiv_rounding l h l2 h2 (Prim2SF t) (Prim2SF c))
    as [Mz Rz]; try assumption.
  pose proof (normal_nonzero _ _ _ N) as NZ.
  pose proof (Rabs_pos_lt _ NZ) as Cp.
  pose proof (pow2_pos (-53)) as Up.
  split; [exact Mz|]. split; [Lra.nra|].
  apply (@near_core _ _ _ g k B Rz); try Lra.lra.
  replace (SF2R (Prim2SF t) / SF2R (Prim2SF c) - T / SF2R (Prim2SF c))
    with ((SF2R (Prim2SF t) - T) * / SF2R (Prim2SF c)) by (field; exact NZ).
  rewrite Rabs_mult, Rabs_inv.
  assert (I : / Rabs (SF2R (Prim2SF c)) <= g).
  { rewrite <- (Rinv_inv g). apply Rinv_le_contravar; [|exact GC].
    apply Rinv_0_lt_compat. exact G. }
  pose proof (Rabs_pos (SF2R (Prim2SF t) - T)).
  assert (0 < / Rabs (SF2R (Prim2SF c))) by (apply Rinv_0_lt_compat; exact Cp).
  assert (0 <= k * (pow2 (-53) * B)) by Lra.nra.
  apply Rle_trans with (k * (pow2 (-53) * B) * g); [|Lra.lra].
  apply Rmult_le_compat; Lra.lra.
Qed.

Lemma finite_value :
  forall c s m e,
    Prim2SF c = S754_finite s m e -> B2R c = sign s * (IZR (Zpos m) * pow2 e).
Proof. intros c s m e E. unfold B2R. rewrite E. reflexivity. Qed.

Lemma thirty_two :
  normal (-47) (-47) (Prim2SF (int 32)) /\ B2R (int 32) = 32.
Proof.
  assert (E : Prim2SF (int 32) = S754_finite false 4503599627370496 (-47))
    by (vm_compute; reflexivity).
  rewrite (finite_value _ E), E. split; [cbn; lia|].
  replace (pow2 (-47)) with (/ pow2 47) by (symmetry; exact (pow2_opp 47)).
  rewrite (@pow2_IZR 47%Z) by lia. change (2 ^ 47)%Z with 140737488355328%Z.
  unfold sign. Lra.lra.
Qed.

Lemma five : normal (-50) (-50) (Prim2SF (int 5)) /\ B2R (int 5) = 5.
Proof.
  assert (E : Prim2SF (int 5) = S754_finite false 5629499534213120 (-50))
    by (vm_compute; reflexivity).
  rewrite (finite_value _ E), E. split; [cbn; lia|].
  replace (pow2 (-50)) with (/ pow2 50) by (symmetry; exact (pow2_opp 50)).
  rewrite (@pow2_IZR 50%Z) by lia. change (2 ^ 50)%Z with 1125899906842624%Z.
  unfold sign. Lra.lra.
Qed.

Lemma nine : normal (-49) (-49) (Prim2SF (int 9)) /\ B2R (int 9) = 9.
Proof.
  assert (E : Prim2SF (int 9) = S754_finite false 5066549580791808 (-49))
    by (vm_compute; reflexivity).
  rewrite (finite_value _ E), E. split; [cbn; lia|].
  replace (pow2 (-49)) with (/ pow2 49) by (symmetry; exact (pow2_opp 49)).
  rewrite (@pow2_IZR 49%Z) by lia. change (2 ^ 49)%Z with 562949953421312%Z.
  unfold sign. Lra.lra.
Qed.

Lemma absolute_zero :
  normal (-44) (-44) (Prim2SF (ofDecimal 27315 2))
  /\ 273 <= B2R (ofDecimal 27315 2) <= 274.
Proof.
  assert (E : Prim2SF (ofDecimal 27315 2)
              = S754_finite false 4805305618032230 (-44))
    by (vm_compute; reflexivity).
  rewrite (finite_value _ E), E. split; [cbn; lia|].
  replace (pow2 (-44)) with (/ pow2 44) by (symmetry; exact (pow2_opp 44)).
  rewrite (@pow2_IZR 44%Z) by lia. change (2 ^ 44)%Z with 17592186044416%Z.
  unfold sign. Lra.lra.
Qed.

Ltac closed_order := vm_compute; discriminate.

Ltac bounded :=
  apply Rabs_le;
  repeat match goal with E : B2R _ = _ |- _ => rewrite E end; Lra.lra.

Ltac walk :=
  lazymatch goal with
  | |- near _ _ _ _ (PrimFloat.add _ ?c) _ =>
      eapply (@near_add _ _ _ _ _ _ _ _ c);
      [walk | eassumption | Lra.lra | closed_order | closed_order | bounded | Lra.lra]
  | |- near _ _ _ _ (PrimFloat.sub _ ?c) _ =>
      eapply (@near_sub _ _ _ _ _ _ _ _ c);
      [walk | eassumption | Lra.lra | closed_order | closed_order | bounded | Lra.lra]
  | |- near _ _ _ _ (PrimFloat.mul _ ?c) _ =>
      lazymatch goal with
      | E : B2R c = ?q |- _ =>
          eapply (@near_mul _ _ _ _ _ _ _ _ c q);
          [walk | eassumption | Lra.lra | closed_order | closed_order
          | rewrite E; rewrite Rabs_pos_eq by Lra.lra; apply Rle_refl
          | bounded | Lra.lra]
      end
  | |- near _ _ _ _ (PrimFloat.div _ ?c) _ =>
      lazymatch goal with
      | E : B2R c = ?q |- _ =>
          eapply (@near_div _ _ _ _ _ _ _ _ c (/ q));
          [walk | eassumption | Lra.lra | closed_order | closed_order | Lra.lra
          | rewrite E; rewrite Rabs_pos_eq by Lra.lra; Lra.lra
          | bounded | Lra.lra]
      end
  | |- near _ _ _ _ _ _ => eassumption
  end.

Lemma temperature_there_and_back :
  forall (s1 s2 : Scale) (v : float),
    magnitude (-6) 900 v ->
    let r := fromCelsius s1 (toCelsius s2 (fromCelsius s2 (toCelsius s1 v))) in
    moderate (-1074) 971 (Prim2SF r)
    /\ Rabs (B2R r - B2R v) <= 1 / 1000000000 * Rabs (B2R v).
Proof.
  intros s1 s2 v Bv r.
  destruct (@magnitude_bounds _ _ _ Bv) as [Lv _].
  assert (L6 : / 64 <= Rabs (B2R v)).
  { replace (pow2 (-6)) with (/ pow2 6) in Lv by (symmetry; exact (pow2_opp 6)).
    rewrite (@pow2_IZR 6%Z) in Lv by lia. exact Lv. }
  destruct thirty_two as [N32 E32]. destruct five as [N5 E5].
  destruct nine as [N9 E9]. destruct absolute_zero as [NK BK].
  set (c32 := int 32) in *. set (c5 := int 5) in *. set (c9 := int 9) in *.
  set (cK := ofDecimal 27315 2) in *.
  set (V := B2R v) in *. set (A := Rabs V) in *.
  assert (VA : - A <= V <= A) by (apply Rabs_bound; apply Rle_refl).
  remember (9 * A + 2500) as B eqn:HB.
  assert (N0 : near (-58) 847 0 B v V).
  { split; [apply normal_moderate; exact Bv|]. split; [Lra.lra|].
    unfold V. replace (B2R v - B2R v) with 0 by ring. rewrite Rabs_R0. Lra.lra. }
  assert (W : exists l h k T,
             near l h k B r T /\ T = V /\ k <= 21
             /\ (-1074 <= l)%Z /\ (h <= 971)%Z).
  { unfold r. destruct s1, s2;
      cbn [toCelsius fromCelsius nadd nsub nmul ndiv binary64];
      fold c32 c5 c9 cK;
      (do 4 eexists; split; [walk|];
       split; [rewrite ?E32, ?E5, ?E9; Lra.lra|];
       split; [Lra.lra|]; split; closed_order). }
  destruct W as (l & h & k & T & (M & K & E) & -> & K21 & Ll & Hh).
  split; [eapply moderate_weaken; [| |exact M]; lia|].
  fold V A. pose proof unit_roundoff as U. pose proof (pow2_pos (-53)) as Up.
  eapply Rle_trans; [exact E|].
  assert (k * pow2 (-53) <= 21 * (12 / 100000000000000000)).
  { apply Rmult_le_compat; Lra.lra. }
  subst B. Lra.nra.
Qed.

End Temperature.

Section RoundTripTheorem.

Local Open Scope R_scope.

Local Existing Instance binary64.

Lemma linear_table :
  forall (cat : string) (units : @object float),
    lookup cat unitConversions = Some units ->
    String.eqb cat "temperature" = false ->
    List.forallb isFloatFactor units = true.
Proof.
  intros cat units L T. unfold unitConversions in L. cbn [lookup] in L.
  repeat match type of L with
         | (if String.eqb cat ?k then _ else _) = _ =>
             destruct (String.eqb_spec cat k) as [->|_];
             [first [discriminate T
                    | injection L as <-; vm_compute; reflexivity]|]
         end.
  discriminate L.
Qed.

Lemma temperature_table :
  forall (units : @object float) (u : string),
    lookup "temperature" unitConversions = Some units ->
    In u (keys units) -> exists s, scaleOf u = Some s.
Proof.
  intros units u L I. unfold unitConversions in L. cbn [lookup] in L.
  cbn in L. injection L as <-. cbn [keys List.map fst In] in I.
  repeat (destruct I as [<-|I]; [eexists; vm_compute; reflexivity|]).
  contradiction.
Qed.

(** C7, in the interpreter's arithmetic.  For two units of one category,
    converting a double there and back succeeds and returns a finite double
    within 1e-9 relative tolerance of the value: in a linear category when
    the value is zero or between 2^-900 and 2^900 in magnitude, for
    temperature when it is between 2^-6 and 2^900 in magnitude. *)
Theorem roundTrip_binary64 :
  forall (v : float) (cat : string) (units : @object float) (u1 u2 : string),
    lookup cat unitConversions = Some units ->
    In u1 (keys units) -> In u2 (keys units) ->
    (if String.eqb cat "temperature" then magnitude (-6) 900 v
     else isZero v \/ magnitude (-900) 900 v) ->
    exists r,
      roundTrip v u1 u2 (Some cat) = Ok r
      /\ PrimFloat.is_finite r = true
      /\ Rabs (B2R r - B2R v) <= 1 / 1000000000 * Rabs (B2R v).
Proof.
  intros v cat units u1 u2 L I1 I2 R.
  destruct (String.eqb cat "temperature") eqn:T.
  - apply String.eqb_eq in T. subst cat.
    destruct (@temperature_table units u1 L I1) as [s1 S1].
    destruct (@temperature_table units u2 L I2) as [s2 S2].
    unfold roundTrip, convertUnit. cbn [equalsText String.eqb Ascii.eqb Bool.eqb].
    rewrite (@convertTemperature_scales float binary64 v u1 u2 s1 s2 S1 S2).
    cbn [bind].
    rewrite (@convertTemperature_scales float binary64 _ u2 u1 s2 s1 S2 S1).
    destruct (@temperature_there_and_back s1 s2 v R) as [M E].
    eexists. split; [reflexivity|]. split; [|exact E].
    exact (@moderate_finite _ _ _ M).
  - pose proof (@linear_table cat units L T) as F.
    destruct (@float_factor_entry units u1 F I1) as (f1 & E1 & N1).
    destruct (@float_factor_entry units u2 F I2) as (f2 & E2 & N2).
    unfold roundTrip, convertUnit. cbn [equalsText]. rewrite T, L, E1, E2.
    cbn [bind]. rewrite ?T, ?L, ?E1, ?E2.
    destruct (@linear_there_and_back v f1 f2 (@ranged_moderate v R) N1 N2) as [M E].
    eexists. split; [reflexivity|]. split; [|exact E].
    exact (@moderate_finite _ _ _ M).
Qed.

End RoundTripTheorem.

(** ** Histogram bins *)

Section HistogramDoubles.

Local Open Scope R_scope.

Local Existing Instance binary64.

Context {host : Host (num := float)}.

Lemma ltb_value :
  forall lo hi lo' hi' (x y : float),
    moderate lo hi (Prim2SF x) -> moderate lo' hi' (Prim2SF y) ->
    (PrimFloat.ltb x y = true <-> B2R x < B2R y).
Proof.
  intros lo hi lo' hi' x y Mx My. rewrite ltb_spec.
  exact (SFltb_spec _ _ _ _ _ _ Mx My).
Qed.

Lemma leb_value :
  forall lo hi lo' hi' (x y : float),
    moderate lo hi (Prim2SF x) -> moderate lo' hi' (Prim2SF y) ->
    (PrimFloat.leb x y = true <-> B2R x <= B2R y).
Proof.
  intros lo hi lo' hi' x y Mx My. rewrite leb_spec.
  exact (SFleb_spec _ _ _ _ _ _ Mx My).
Qed.

Lemma ltb_false_value :
  forall lo hi lo' hi' (x y : float),
    moderate lo hi (Prim2SF x) -> moderate lo' hi' (Prim2SF y) ->
    (PrimFloat.ltb x y = false <-> B2R y <= B2R x).
Proof.
  intros lo hi lo' hi' x y Mx My.
  pose proof (ltb_value _ _ _ _ x y Mx My) as [A B].
  destruct (PrimFloat.ltb x y).
  - split; [discriminate|]. specialize (A eq_refl). Lra.lra.
  - split; [|reflexivity]. intros _.
    destruct (Rle_or_lt (B2R y) (B2R x)) as [C|C]; [exact C|].
    specialize (B C). discriminate.
Qed.

Lemma minOf_least :
  forall lo hi (rest : list float) (d : float),
    Forall (fun v => moderate lo hi (Prim2SF v)) (d :: rest) ->
    moderate lo hi (Prim2SF (minOf d rest))
    /\ B2R (minOf d rest) <= B2R d
    /\ forall v, In v rest -> B2R (minOf d rest) <= B2R v.
Proof.
  intros lo hi. induction rest as [|x rest IH]; intros d F;
    cbn [minOf List.fold_left].
  - inversion F; subst. split; [assumption|]. split; [Lra.lra|intros v []].
  - fold (minOf (if (x <? d)%num then x else d) rest).
    inversion F as [|? ? Md F']; subst. inversion F' as [|? ? Mx F'']; subst.
    cbn [nltb binary64].
    destruct (PrimFloat.ltb x d) eqn:C.
    + apply (ltb_value _ _ _ _ x d Mx Md) in C.
      destruct (IH x (@Forall_cons _ (fun v => moderate lo hi (Prim2SF v)) x rest Mx F'')) as (M & H1 & H2).
      split; [exact M|]. split; [Lra.lra|].
      intros v [<-|I]; [exact H1|exact (H2 v I)].
    + apply (ltb_false_value _ _ _ _ x d Mx Md) in C.
      destruct (IH d (@Forall_cons _ (fun v => moderate lo hi (Prim2SF v)) d rest Md F'')) as (M & H1 & H2).
      split; [exact M|]. split; [exact H1|].
      intros v [<-|I]; [Lra.lra|exact (H2 v I)].
Qed.

Lemma maxOf_greatest :
  forall lo hi (rest : list float) (d : float),
    Forall (fun v => moderate lo hi (Prim2SF v)) (d :: rest) ->
    moderate lo hi (Prim2SF (maxOf d rest))
    /\ B2R d <= B2R (maxOf d rest)
    /\ forall v, In v rest -> B2R v <= B2R (maxOf d rest).
Proof.
  intros lo hi. induction rest as [|x rest IH]; intros d F;
    cbn [maxOf List.fold_left].
  - inversion F; subst. split; [assumption|]. split; [Lra.lra|intros v []].
  - fold (maxOf (if (d <? x)%num then x else d) rest).
    inversion F as [|? ? Md F']; subst. inversion F' as [|? ? Mx F'']; subst.
    cbn [nltb binary64].
    destruct (PrimFloat.ltb d x) eqn:C.
    + apply (ltb_value _ _ _ _ d x Md Mx) in C.
      destruct (IH x (@Forall_cons _ (fun v => moderate lo hi (Prim2SF v)) x rest Mx F'')) as (M & H1 & H2).
      split; [exact M|]. split; [Lra.lra|].
      intros v [<-|I]; [exact H1|exact (H2 v I)].
    + apply (ltb_false_value _ _ _ _ d x Md Mx) in C.
      destruct (IH d (@Forall_cons _ (fun v => moderate lo hi (Prim2SF v)) d rest Md F'')) as (M & H1 & H2).
      split; [exact M|]. split; [exact H1|].
      intros v [<-|I]; [Lra.lra|exact (H2 v I)].
Qed.

(** What is rounded has the sign of what it is rounded from. *)
Lemma rounding_nonnegative :
  forall z X, rounding z X -> 0 <= X -> 0 <= SF2R z.
Proof.
  intros z X R P. destruct z; cbn [rounding] in R; cbn [SF2R]; try Lra.lra;
    destruct R as (_ & _ & _ & S); cbn [SF2R] in S; Lra.nra.
Qed.

Lemma rounding_monotone_equal :
  forall z1 z2 X Y,
    rounding z1 X -> rounding z2 Y -> X <= Y ->
    (X = Y -> SF2R z1 = SF2R z2) -> SF2R z1 <= SF2R z2.
Proof.
  intros z1 z2 X Y R1 R2 [L|E] Q.
  - exact (rounding_monotone _ _ R1 R2 L).
  - rewrite (Q E). Lra.lra.
Qed.

(** A sum depends on the value of its second term only. *)
Lemma SFadd_value :
  forall lo hi lo' hi' lo'' hi'' m a b,
    moderate lo hi m -> moderate lo' hi' a -> moderate lo'' hi'' b ->
    SF2R a = SF2R b ->
    SF2R (SFadd prec emax m a) = SF2R (SFadd prec emax m b).
Proof.
  intros lo hi lo' hi' lo'' hi'' m a b Mm Ma Mb E.
  destruct a as [sa|sa| |sa ma ea], b as [sb|sb| |sb mb eb];
    cbn [moderate normal] in Ma, Mb; try contradiction.
  - destruct m as [sm|sm| |sm mm em]; cbn [moderate normal] in Mm;
      try contradiction; [|reflexivity].
    destruct sm, sa, sb; reflexivity.
  - exfalso. symmetry in E. revert E.
    apply (@normal_nonzero lo'' hi'' (S754_finite sb mb eb) Mb).
  - exfalso. revert E.
    apply (@normal_nonzero lo' hi' (S754_finite sa ma ea) Ma).
  - rewrite (@normal_unique lo' hi' lo'' hi'' (S754_finite sa ma ea)
               (S754_finite sb mb eb) Ma Mb E). reflexivity.
Qed.

(** The values in a bin, counted over the bins: a value on or above the
    first edge is in one bin when it is below the last edge, in none
    otherwise. *)
Lemma edges_count :
  forall (e : nat -> R) (p : nat -> bool) (x : R) (k : nat),
    (forall i, (i < k)%nat -> e i <= e (S i)) ->
    (forall i, (i < k)%nat -> (p i = true <-> e i <= x < e (S i))) ->
    e 0%nat <= x ->
    let h := list_sum (List.map (fun i => if p i then 1 else 0)%nat (seq 0 k)) in
    (x < e k -> h = 1%nat) /\ (e k <= x -> h = 0%nat).
Proof.
  intros e p x. induction k as [|k IH]; intros Mono P L; cbv zeta.
  - split; [Lra.lra|reflexivity].
  - rewrite seq_S, List.map_app, list_sum_app.
    cbn [List.map list_sum fold_right Nat.add]. rewrite Nat.add_0_r.
    destruct IH as [I1 I2];
      [intros i Hi; apply Mono; lia|intros i Hi; apply P; lia|exact L|].
    pose proof (Mono k (Nat.lt_succ_diag_r k)) as M.
    pose proof (P k (Nat.lt_succ_diag_r k)) as [Pk1 Pk2].
    destruct (Rle_or_lt (e k) x) as [C|C].
    + rewrite (I2 C). destruct (p k) eqn:B.
      * specialize (Pk1 eq_refl). split; [reflexivity|Lra.lra].
      * split; [|reflexivity]. intro U.
        assert (false = true) by (apply Pk2; Lra.lra). discriminate.
    + rewrite (I1 C). destruct (p k) eqn:B.
      * specialize (Pk1 eq_refl). Lra.lra.
      * split; [reflexivity|Lra.lra].
Qed.

Lemma pow2_negative : forall k : positive, pow2 (Zneg k) = / IZR (2 ^ Zpos k).
Proof.
  intro k. change (Zneg k) with (- Zpos k)%Z.
  rewrite pow2_opp, pow2_IZR by lia. reflexivity.
Qed.

(** The numbers of bins and of edges, as doubles. *)
Lemma ofNat_small :
  forall n : nat,
    (n <= 10)%nat ->
    moderate (-52) (-49) (Prim2SF (ofNat n))
    /\ B2R (ofNat n) = INR n
    /\ ((0 < n)%nat -> normal (-52) (-49) (Prim2SF (ofNat n))).
Proof.
  intros n L.
  do 11 (destruct n as [|n];
         [match goal with
          | |- context [Prim2SF ?c] =>
              let r := eval vm_compute in (Prim2SF c) in
              assert (E : Prim2SF c = r) by (vm_compute; reflexivity)
          end;
          unfold B2R; rewrite E; cbn [moderate normal SF2R];
          split; [try exact I; lia|];
          split; [|intro; try lia];
          rewrite ?pow2_negative;
          repeat match goal with
                 | |- context [(2 ^ Zpos ?k)%Z] =>
                     let q := eval vm_compute in (2 ^ Zpos k)%Z in
                     change (2 ^ Zpos k)%Z with q
                 end;
          unfold sign; simpl INR; Lra.lra|]).
  lia.
Qed.

Section Edges.

Local Open Scope R_scope.

Variables (min max binWidth : float) (n : nat).

Hypothesis Mmin : moderate (-952) 847 (Prim2SF min).
Hypothesis Mmax : moderate (-952) 847 (Prim2SF max).
Hypothesis ordered : B2R min <= B2R max.
Hypothesis bins : (0 < n <= 10)%nat.

Hypothesis width : binWidth = ((max - min) / ofNat n)%float.

Lemma binWidth_moderate :
  moderate (-1008) 850 (Prim2SF binWidth) /\ 0 <= B2R binWidth.
Proof.
  rewrite width. unfold B2R. rewrite div_spec, sub_spec.
  unfold SF64div, SF64sub.
  destruct (@SFsub_rounding (-952) 847 (Prim2SF max) (Prim2SF min) Mmax Mmin
              ltac:(lia) ltac:(lia)) as [Ms Rs].
  destruct (@ofNat_small n ltac:(lia)) as (_ & Vn & Nn).
  specialize (Nn ltac:(lia)).
  destruct (@SFdiv_rounding _ _ _ _ _ _ Ms Nn ltac:(lia) ltac:(lia)) as [Md Rd].
  split; [eapply moderate_weaken; [| |exact Md]; lia|].
  apply (rounding_nonnegative _ Rd).
  assert (0 <= SF2R (SFsub prec emax (Prim2SF max) (Prim2SF min)))
    by (apply (rounding_nonnegative _ Rs); unfold B2R in ordered; Lra.lra).
  fold (B2R (ofNat n)). rewrite Vn.
  assert (0 < INR n) by (apply lt_0_INR; lia).
  apply Rmult_le_pos; [assumption|]. apply Rlt_le, Rinv_0_lt_compat. assumption.
Qed.

Lemma step_moderate :
  forall i : nat,
    (i <= 10)%nat ->
    moderate (-1008) 855 (Prim2SF (ofNat i * binWidth)%float)
    /\ rounding (Prim2SF (ofNat i * binWidth)%float) (INR i * B2R binWidth).
Proof.
  intros i L. destruct binWidth_moderate as [Mw _].
  destruct (ofNat_small L) as (Mi & Vi & _).
  rewrite mul_spec. unfold SF64mul.
  destruct (@SFmul_rounding _ _ _ _ _ _ Mi Mw ltac:(lia) ltac:(lia)) as [M R].
  split; [eapply moderate_weaken; [| |exact M]; lia|].
  rewrite <- Vi. exact R.
Qed.

Lemma step_monotone :
  forall i j : nat,
    (i <= j <= 10)%nat ->
    B2R (ofNat i * binWidth)%float <= B2R (ofNat j * binWidth)%float.
Proof.
  intros i j L. destruct binWidth_moderate as [_ W].
  destruct (@step_moderate i ltac:(lia)) as [_ Ri].
  destruct (@step_moderate j ltac:(lia)) as [_ Rj].
  destruct (Nat.eq_dec i j) as [->|N]; [Lra.lra|].
  assert (I : INR i < INR j) by (apply lt_INR; lia).
  destruct W as [W|W].
  - apply (rounding_monotone _ _ Ri Rj). Lra.nra.
  - rewrite <- W in Ri, Rj. rewrite Rmult_0_r in Ri, Rj. unfold B2R.
    rewrite (rounding_zero _ Ri), (rounding_zero _ Rj). Lra.lra.
Qed.

Lemma edge_moderate :
  forall i : nat,
    (i <= 10)%nat ->
    moderate (-1060) 857 (Prim2SF (binStart min binWidth i))
    /\ rounding (Prim2SF (binStart min binWidth i))
         (B2R min + B2R (ofNat i * binWidth)%float).
Proof.
  intros i L. unfold binStart. cbn [nadd nmul binary64].
  destruct (step_moderate L) as [Ms _].
  rewrite add_spec. unfold SF64add.
  destruct (@SFadd_rounding (-1008) 855 (Prim2SF min)
              (Prim2SF (ofNat i * binWidth)%float)) as [M R];
    [eapply moderate_weaken; [| |exact Mmin]; lia|exact Ms|lia|lia|].
  split; [eapply moderate_weaken; [| |exact M]; lia|exact R].
Qed.

Lemma edge_monotone :
  forall i j : nat,
    (i <= j <= 10)%nat ->
    B2R (binStart min binWidth i) <= B2R (binStart min binWidth j).
Proof.
  intros i j L.
  destruct (@edge_moderate i ltac:(lia)) as [_ Ri].
  destruct (@edge_moderate j ltac:(lia)) as [_ Rj].
  destruct (@step_moderate i ltac:(lia)) as [Mi _].
  destruct (@step_moderate j ltac:(lia)) as [Mj _].
  pose proof (step_monotone L) as S.
  apply (rounding_monotone_equal _ _ Ri Rj); [Lra.lra|].
  intro E. unfold binStart. cbn [nadd nmul binary64]. unfold B2R.
  rewrite !add_spec. unfold SF64add.
  apply (@SFadd_value _ _ _ _ _ _ _ _ _ Mmin Mi Mj). unfold B2R in E. Lra.lra.
Qed.

Lemma edge_first : B2R (binStart min binWidth 0) = B2R min.
Proof.
  unfold binStart. cbn [nadd nmul binary64]. unfold B2R.
  rewrite add_spec, mul_spec. unfold SF64add, SF64mul.
  destruct (@ofNat_small 0 ltac:(lia)) as (_ & _ & _).
  assert (E : Prim2SF (ofNat 0) = S754_zero false) by (vm_compute; reflexivity).
  rewrite E. destruct binWidth_moderate as [Mw _].
  destruct (Prim2SF binWidth) as [s|s| |s m e]; cbn [moderate normal] in Mw;
    try contradiction; cbn [SFmul].
  - destruct (Prim2SF min) as [s'|s'| |s' m' e']; cbn [moderate normal] in Mmin;
      try contradiction; [destruct s', s; reflexivity|reflexivity].
  - destruct (Prim2SF min) as [s'|s'| |s' m' e']; cbn [moderate normal] in Mmin;
      try contradiction; [destruct s', s; reflexivity|reflexivity].
Qed.

End Edges.

Lemma eqb_value :
  forall lo hi lo' hi' (x y : float),
    moderate lo hi (Prim2SF x) -> moderate lo' hi' (Prim2SF y) ->
    PrimFloat.eqb x y = true -> B2R x = B2R y.
Proof.
  intros lo hi lo' hi' x y Mx My. rewrite FloatAxioms.eqb_spec. unfold SFeqb.
  pose proof (SFcompare_spec _ _ _ _ _ _ Mx My) as C.
  destruct (SFcompare (Prim2SF x) (Prim2SF y)) as [[| |]|]; try discriminate.
  intros _. exact C.
Qed.

Lemma countIf_step :
  forall (p : float -> bool) (v : float) (l : list float),
    countIf p (v :: l) = ((if p v then 1 else 0) + countIf p l)%nat.
Proof.
  intros p v l. unfold countIf. cbn [List.filter]. destruct (p v); reflexivity.
Qed.

Lemma sum_of_sums :
  forall (A : Type) (f g : A -> nat) (l : list A),
    list_sum (List.map (fun i => f i + g i)%nat l)
    = (list_sum (List.map f l) + list_sum (List.map g l))%nat.
Proof.
  intros A f g l. unfold list_sum. induction l as [|x l IH]; [reflexivity|].
  cbn [List.map fold_right]. rewrite IH. lia.
Qed.

(** The counts of the bins add up to the number of values that are in
    some bin. *)
Lemma total_by_value :
  forall (q : nat -> float -> bool) (r : float -> bool) (k : nat)
    (l : list float),
    (forall v, In v l ->
       list_sum (List.map (fun i => if q i v then 1 else 0)%nat (seq 0 k))
       = if r v then 1%nat else 0%nat) ->
    list_sum (List.map (fun i => countIf (q i) l) (seq 0 k)) = countIf r l.
Proof.
  intros q r k. induction l as [|v l IH]; intro P.
  - unfold countIf. cbn [List.filter List.length]. clear P.
    induction (seq 0 k) as [|i s IHs]; [reflexivity|exact IHs].
  - rewrite (List.map_ext _ (fun i => (if q i v then 1 else 0)
                                       + countIf (q i) l)%nat)
      by (intro i; apply countIf_step).
    rewrite sum_of_sums, countIf_step.
    rewrite IH by (intros v' I; apply P; right; exact I).
    rewrite (P v) by (left; reflexivity). reflexivity.
Qed.

Lemma counted_somewhere :
  forall (p : nat -> bool) (l : list nat),
    (0 < list_sum (List.map (fun i => if p i then 1 else 0)%nat l))%nat ->
    exists i, In i l /\ p i = true.
Proof.
  intros p. induction l as [|i l IH]; cbn [List.map list_sum fold_right].
  - lia.
  - intro S. destruct (p i) eqn:B.
    + exists i. split; [left; reflexivity|exact B].
    + destruct (IH S) as (j & I & Bj). exists j. split; [right; exact I|exact Bj].
Qed.

Lemma countIf_exclusive :
  forall (p q : float -> bool) (l : list float),
    (forall v, In v l -> p v = true -> q v = false) ->
    (countIf p l + countIf q l <= List.length l)%nat.
Proof.
  intros p q. induction l as [|v l IH]; intro X; [cbn; lia|].
  rewrite !countIf_step. cbn [List.length].
  specialize (IH (fun v' I => X v' (or_intror I))).
  pose proof (X v (or_introl eq_refl)) as Xv.
  destruct (p v); [rewrite (Xv eq_refl)|destruct (q v)]; lia.
Qed.

Lemma numBinsFor_pos : forall n : nat, (0 < n)%nat -> (0 < numBinsFor n)%nat.
Proof.
  intros n H. unfold numBinsFor.
  apply Nat.min_glb_lt; [lia|]. apply Nat.sqrt_up_pos, H.
Qed.

Lemma numBinsFor_small : forall n : nat, (numBinsFor n <= 10)%nat.
Proof. intro n. unfold numBinsFor. apply Nat.le_min_l. Qed.

(** C10, in the interpreter's arithmetic.  For a sample of doubles that are
    zero or between 2^-900 and 2^900 in magnitude, the edges of the bins do
    not decrease, so a value is counted in at most one bin; the counts add
    up to the number of values below the last edge.  That edge
    [min + numBins * binWidth] is rounded: when it is above the maximum
    every value is counted, the maximum in the last bin; when it is not,
    the values equal to the maximum are counted in no bin. *)
Theorem histogram_bins_binary64 :
  forall (d : float) (rest : list float),
    let data := d :: rest in
    let min := minOf d rest in
    let max := maxOf d rest in
    let numBins := numBinsFor (List.length data) in
    let binWidth := ((max - min) / ofNat numBins)%float in
    let last := binEnd min binWidth (numBins - 1) in
    let total := list_sum (counts (createHistogramBins data)) in
    Forall (fun v => isZero v \/ magnitude (-900) 900 v) data ->
    (forall i j, (i <= j <= numBins)%nat ->
       PrimFloat.leb (binStart min binWidth i) (binStart min binWidth j) = true)
    /\ (forall i j v, In v data -> (i < j < numBins)%nat ->
          inBin min binWidth i v = true -> inBin min binWidth j v = false)
    /\ total = countIf (fun v => PrimFloat.ltb v last) data
    /\ (PrimFloat.ltb max last = true ->
        total = List.length data
        /\ exists i, (i < numBins)%nat /\ inBin min binWidth i max = true)
    /\ (PrimFloat.ltb max last = false ->
        (total + countIf (fun v => PrimFloat.eqb v max) data
         <= List.length data)%nat
        /\ forall i, (i < numBins)%nat -> inBin min binWidth i max = false).
Proof.
  intros d rest data min max numBins binWidth last total F.
  assert (FM : Forall (fun v => moderate (-952) 847 (Prim2SF v)) data).
  { eapply Forall_impl; [|exact F]. intros v. apply ranged_moderate. }
  destruct (@minOf_least _ _ rest d FM) as (Mmin & Ld & Lrest).
  destruct (@maxOf_greatest _ _ rest d FM) as (Mmax & Gd & Grest).
  fold min in Mmin, Ld, Lrest. fold max in Mmax, Gd, Grest.
  assert (O : B2R min <= B2R max) by Lra.lra.
  assert (Lo : forall v, In v data -> B2R min <= B2R v)
    by (intros v [<-|I]; [exact Ld|exact (Lrest v I)]).
  assert (Hi : forall v, In v data -> B2R v <= B2R max)
    by (intros v [<-|I]; [exact Gd|exact (Grest v I)]).
  assert (Mv : forall v, In v data -> moderate (-952) 847 (Prim2SF v))
    by (intros v I; exact (proj1 (Forall_forall _ _) FM v I)).
  assert (P : (0 < numBins <= 10)%nat).
  { split; [apply numBinsFor_pos; cbn; lia|apply numBinsFor_small]. }
  assert (EM : forall i, (i <= 10)%nat ->
                 moderate (-1060) 857 (Prim2SF (binStart min binWidth i))).
  { intros i L. exact (proj1 (@edge_moderate min max binWidth numBins Mmin Mmax O P eq_refl i L)). }
  assert (Mono : forall i j, (i <= j <= 10)%nat ->
                   B2R (binStart min binWidth i) <= B2R (binStart min binWidth j)).
  { intros i j L. exact (@edge_monotone min max binWidth numBins Mmin Mmax O P eq_refl i j L). }
  assert (E0 : B2R (binStart min binWidth 0) = B2R min)
    by exact (@edge_first min max binWidth numBins Mmin Mmax O P eq_refl).
  assert (EL : last = binStart min binWidth numBins).
  { unfold last, binEnd, binStart.
    replace (numBins - 1 + 1)%nat with numBins by lia. reflexivity. }
  assert (ML : moderate (-1060) 857 (Prim2SF last))
    by (rewrite EL; apply EM; lia).
  assert (IB : forall i v, In v data -> (i < numBins)%nat ->
                 (inBin min binWidth i v = true
                  <-> B2R (binStart min binWidth i) <= B2R v
                      < B2R (binStart min binWidth (S i)))).
  { intros i v I L. unfold inBin. cbn [nleb nltb binary64].
    assert (EE : binEnd min binWidth i = binStart min binWidth (S i)).
    { unfold binEnd, binStart. rewrite Nat.add_1_r. reflexivity. }
    rewrite EE, andb_true_iff.
    rewrite (leb_value _ _ _ _ _ _ (EM i ltac:(lia)) (Mv v I)).
    rewrite (ltb_value _ _ _ _ _ _ (Mv v I) (EM (S i) ltac:(lia))).
    reflexivity. }
  assert (CV : forall v, In v data ->
                 list_sum (List.map (fun i => if inBin min binWidth i v
                                              then 1 else 0)%nat (seq 0 numBins))
                 = if PrimFloat.ltb v last then 1%nat else 0%nat).
  { intros v I.
    destruct (@edges_count (fun i => B2R (binStart min binWidth i))
                (fun i => inBin min binWidth i v) (B2R v) numBins) as [C1 C2].
    - intros i L. apply Mono. lia.
    - intros i L. exact (IB i v I L).
    - rewrite E0. exact (Lo v I).
    - destruct (PrimFloat.ltb v last) eqn:C.
      + apply (ltb_value _ _ _ _ _ _ (Mv v I) ML) in C. rewrite EL in C.
        exact (C1 C).
      + apply (ltb_false_value _ _ _ _ _ _ (Mv v I) ML) in C. rewrite EL in C.
        exact (C2 C). }
  assert (T : total = countIf (fun v => PrimFloat.ltb v last) data).
  { unfold total, createHistogramBins, data. cbn [counts].
    rewrite List.map_map. cbn [snd].
    apply total_by_value. exact CV. }
  assert (Imax : In max data).
  { unfold max, data. clear. revert d.
    induction rest as [|x rest IH]; intro d; [left; reflexivity|].
    cbn [maxOf List.fold_left].
    fold (maxOf (if (d <? x)%num then x else d) rest).
    destruct (IH (if (d <? x)%num then x else d)) as [E|I].
    - destruct (d <? x)%num; [right; left; exact E|left; exact E].
    - right. right. exact I. }
  split.
  { intros i j L. apply (leb_value _ _ _ _ _ _ (EM i ltac:(lia)) (EM j ltac:(lia))).
    apply Mono. lia. }
  split.
  { intros i j v I L B. apply (IB i v I ltac:(lia)) in B.
    destruct (inBin min binWidth j v) eqn:B'; [|reflexivity].
    apply (IB j v I ltac:(lia)) in B'.
    pose proof (Mono (S i) j ltac:(lia)). Lra.lra. }
  split; [exact T|]. split.
  - intro C. apply (ltb_value _ _ _ _ _ _ Mmax ML) in C. split.
    + rewrite T. unfold countIf. rewrite forallb_filter_id; [reflexivity|].
      apply forallb_forall. intros v I.
      apply (ltb_value _ _ _ _ _ _ (Mv v I) ML). specialize (Hi v I). Lra.lra.
    + pose proof (CV max Imax) as S.
      rewrite (proj2 (ltb_value _ _ _ _ _ _ Mmax ML) C) in S.
      destruct (@counted_somewhere (fun i => inBin min binWidth i max)
                  (seq 0 numBins) ltac:(lia)) as (i & Ii & Bi).
      exists i. apply in_seq in Ii. split; [lia|exact Bi].
  - intro C. apply (ltb_false_value _ _ _ _ _ _ Mmax ML) in C. split.
    + rewrite T. apply countIf_exclusive. intros v I B.
      apply (ltb_value _ _ _ _ _ _ (Mv v I) ML) in B.
      destruct (PrimFloat.eqb v max) eqn:Q; [|reflexivity].
      apply (@eqb_value _ _ _ _ v max (Mv v I) Mmax) in Q. Lra.lra.
    + intros i L. destruct (inBin min binWidth i max) eqn:B; [|reflexivity].
      apply (IB i max Imax L) in B.
      pose proof (Mono (S i) numBins ltac:(lia)). rewrite EL in C. Lra.lra.
Qed.

End HistogramDoubles.

(** ** The statements at concrete inputs *)

(** C7 as stated fails in the interpreter's arithmetic.  1e-18 degrees
    Fahrenheit, converted to Celsius and back, is 0: the value is absorbed
    when 32 is subtracted.  A millionth of a degree comes back with a
    relative error above 1e-9.  In a linear category the bound fails where
    the base value overflows or underflows: 1e308 km, to millimetres and
    back, is infinite, and 5e-324 mm, to kilometres and back, is 0.  So is
    1e308 degrees Celsius, to Fahrenheit and back, infinite. *)
Lemma roundTrip_binary64_near_zero :
  roundTrip (arith := binary64) (floatOfDecimal 1 18) "fahrenheit" "celsius"
    (Some "temperature") = Ok 0%float
  /\ roundTrip (arith := binary64) (floatOfDecimal (10 ^ 308) 0) "km" "mm"
       (Some "length") = Ok infinity
  /\ withinRelative (arith := binary64) (floatOfDecimal 1 9) 0%float
       (floatOfDecimal 1 18) = false
  /\ match roundTrip (arith := binary64) (floatOfDecimal 1 6) "fahrenheit"
             "celsius" (Some "temperature") with
     | Ok r =>
         withinRelative (arith := binary64) (floatOfDecimal 1 9) r
           (floatOfDecimal 1 6)
     | Throw _ => true
     end = false
  /\ roundTrip (arith := binary64) (floatOfDecimal 5 324) "mm" "km"
       (Some "length") = Ok 0%float
  /\ PrimFloat.eqb (floatOfDecimal 5 324) 0%float = false
  /\ roundTrip (arith := binary64) (floatOfDecimal (10 ^ 308) 0) "c" "f"
       (Some "temperature") = Ok infinity.
Proof. vm_compute. repeat split; reflexivity. Qed.

(** C7 at three feet, to yards and back (which is 3.0000000000000004),
    and at 98.6 degrees Fahrenheit, to Celsius and back. *)
Lemma roundTrip_binary64_witness :
  (exists r,
     roundTrip (arith := binary64) (floatOfDecimal 3 0) "ft" "yd" (Some "length")
     = Ok r
     /\ PrimFloat.is_finite r = true
     /\ (Rabs (B2R r - B2R (floatOfDecimal 3 0))
         <= 1 / 1000000000 * Rabs (B2R (floatOfDecimal 3 0)))%R)
  /\ (exists r,
        roundTrip (arith := binary64) (floatOfDecimal 986 1) "f" "c"
          (Some "temperature") = Ok r
        /\ PrimFloat.is_finite r = true
        /\ (Rabs (B2R r - B2R (floatOfDecimal 986 1))
            <= 1 / 1000000000 * Rabs (B2R (floatOfDecimal 986 1)))%R).
Proof.
  split.
  - refine (@roundTrip_binary64 (floatOfDecimal 3 0) "length" _ "ft" "yd" _ _ _ _).
    + reflexivity.
    + simpl. tauto.
    + simpl. tauto.
    + right. vm_compute. repeat split; discriminate.
  - refine (@roundTrip_binary64 (floatOfDecimal 986 1) "temperature" _ "f" "c"
              _ _ _ _).
    + reflexivity.
    + simpl. tauto.
    + simpl. tauto.
    + vm_compute. repeat split; discriminate.
Defined.

(** C8 as stated fails: five numeric literals, an odd count, are accepted;
    the last one is an x-value without y-value. *)
Lemma parseScatterPlot_five_numbers :
  extractNumbers (arith := rational) "scatter 1 2 3 4 5"
  = [1 # 1; 2 # 1; 3 # 1; 4 # 1; 5 # 1]
  /\ parseScatterPlot (arith := rational) "scatter 1 2 3 4 5"
     = Ok (ScatterPlot [1 # 1; 3 # 1; 5 # 1] [2 # 1; 4 # 1]).
Proof. split; reflexivity. Qed.

(** C9 as stated fails: the question mark goes after the trim, and the
    blank before it stays; a second pass trims it. *)
Lemma cleanInput_leaves_blank :
  cleanInput "What is 5 plus 3 ?" = "what is 5 plus 3 "
  /\ cleanInput (cleanInput "What is 5 plus 3 ?") = "what is 5 plus 3".
Proof. split; reflexivity. Qed.

(** C10 as stated fails in the interpreter's arithmetic: for the sample
    0.1, 0.1, 0.1, 0.1, 0.3 the bin width is a rounded 0.2/3, the last edge
    is 0.30000000000000004, above the maximum, and the maximum is counted in
    the last bin; the counts add up to the five values. *)
Lemma histogram_binary64_counts_maximum :
  let data := List.map (fun m => floatOfDecimal m 1) [1; 1; 1; 1; 3]%Z in
  let min := minOf (arith := binary64) (floatOfDecimal 1 1) data in
  let max := maxOf (arith := binary64) (floatOfDecimal 1 1) data in
  let binWidth := ((max - min) / ofNat (arith := binary64) 3)%float in
  counts (createHistogramBins (arith := binary64) (host := floatHost) data)
  = [4; 0; 1]%nat
  /\ max = floatOfDecimal 3 1
  /\ PrimFloat.ltb max (binEnd (arith := binary64) min binWidth 2) = true
  /\ inBin (arith := binary64) min binWidth 2 max = true
  /\ (list_sum (counts (createHistogramBins (arith := binary64)
                          (host := floatHost) data))
      + countIf (fun v => PrimFloat.eqb v max) data
      = 6)%nat.
Proof. vm_compute. repeat split; reflexivity. Qed.

(** C10 at the sample 0.1, 0.1, 0.1, 0.1, 0.3. *)
Lemma histogram_bins_binary64_witness :
  let d := floatOfDecimal 1 1 in
  let rest := List.map (fun m => floatOfDecimal m 1) [1; 1; 1; 3]%Z in
  let data := d :: rest in
  let min := minOf (arith := binary64) d rest in
  let max := maxOf (arith := binary64) d rest in
  let numBins := numBinsFor (List.length data) in
  let binWidth := ((max - min) / ofNat (arith := binary64) numBins)%float in
  let last := binEnd (arith := binary64) min binWidth (numBins - 1) in
  let total :=
    list_sum (counts (createHistogramBins (arith := binary64)
                        (host := floatHost) data)) in
  (forall i j, (i <= j <= numBins)%nat ->
     PrimFloat.leb (binStart (arith := binary64) min binWidth i)
       (binStart (arith := binary64) min binWidth j) = true)
  /\ (forall i j v, In v data -> (i < j < numBins)%nat ->
        inBin (arith := binary64) min binWidth i v = true ->
        inBin (arith := binary64) min binWidth j v = false)
  /\ total = countIf (fun v => PrimFloat.ltb v last) data
  /\ (PrimFloat.ltb max last = true ->
      total = List.length data
      /\ exists i, (i < numBins)%nat
                   /\ inBin (arith := binary64) min binWidth i max = true)
  /\ (PrimFloat.ltb max last = false ->
      (total + countIf (fun v => PrimFloat.eqb v max) data
       <= List.length data)%nat
      /\ forall i, (i < numBins)%nat ->
           inBin (arith := binary64) min binWidth i max = false).
Proof.
  refine (@histogram_bins_binary64 floatHost (floatOfDecimal 1 1)
            (List.map (fun m => floatOfDecimal m 1) [1; 1; 1; 3]%Z) _).
  repeat (apply Forall_cons; [right; vm_compute; repeat split; discriminate|]).
  apply Forall_nil.
Defined.

(** C5 at 51 requests that succeed, each at its own time: the ledger
    holds 50 entries, from the second request on. *)
Lemma history_bound_witness :
  let run :=
    session (arith := rational) (host := rationalHost)
      (List.map tick (seq 0 51)) newAgent in
  let ledger := List.flat_map entryOf (fst run) in
  (50 < List.length ledger)%nat
  /\ List.length (history (snd run)) = 50%nat
  /\ history (snd run) = lastN 50 ledger
  /\ List.map (@entryTimestamp Q) (firstn 2 (history (snd run))) = ["1"; "2"].
Proof.
  intros run ledger.
  destruct (@history_bound Q rational rationalHost (List.map tick (seq 0 51))
              (fst run) (snd run))
    as (_ & _ & H & Big).
  - vm_compute. reflexivity.
  - assert (B : (50 < List.length ledger)%nat) by (vm_compute; lia).
    split; [exact B|]. split; [exact (proj1 (Big B))|]. split; [exact H|].
    vm_compute. reflexivity.
Defined.



(** * Further properties of the agent *)

(** ** Reading and clearing the memory *)

Section Memory.

Context {num : Type} {arith : Arith num} {host : Host (num := num)}.

Local Open Scope nat_scope.

Lemma getHistory_firstn :
  forall (n : nat) (a : @CalculatorAgent num),
    getHistory n a = firstn n (List.rev (history a)).
Proof.
  intros n a. destruct n as [|n]; [reflexivity|].
  unfold getHistory. symmetry. apply firstn_rev.
Qed.

(** X1.  [getHistory(n)] is the [n] most recent entries of the ledger,
    the newest first; all of them when the ledger holds fewer, none for
    [n = 0]. *)
Theorem getHistory_newest_first :
  forall (n : nat) (a : @CalculatorAgent num),
    getHistory n a = firstn n (List.rev (history a))
    /\ List.length (getHistory n a) = Nat.min n (List.length (history a)).
Proof.
  intros n a. pose proof (getHistory_firstn n a) as E.
  split; [exact E|]. rewrite E, length_firstn, length_rev. reflexivity.
Qed.

Lemma firstn_rev_lastN :
  forall (A : Type) (n cap : nat) (l : list A),
    n <= cap -> firstn n (List.rev (lastN cap l)) = firstn n (List.rev l).
Proof.
  intros A n cap l B. unfold lastN.
  replace (List.rev (skipn (List.length l - cap) l))
    with (firstn (List.length l - (List.length l - cap)) (List.rev l)).
  - rewrite firstn_firstn.
    destruct (Nat.le_gt_cases n (List.length l)) as [S|S].
    + f_equal. lia.
    + rewrite !firstn_all2 by (rewrite length_rev; lia). reflexivity.
  - rewrite firstn_rev. do 2 f_equal. lia.
Qed.

(** X2.  Whatever the requests served so far, [getHistory(n)], for [n] up
    to the cap, lists the last [n] successful requests, the newest first. *)
Theorem getHistory_after_session :
  forall (requests : list (World * string)) (n : nat),
    n <= 50 ->
    getHistory n (snd (session requests newAgent))
    = firstn n (List.rev (List.flat_map entryOf (fst (session requests newAgent)))).
Proof.
  intros requests n B.
  rewrite getHistory_firstn.
  destruct (@session_ledger _ _ _ requests newAgent [] eq_refl) as [H _].
  cbn [app historyLimit newAgent] in H. rewrite H.
  apply firstn_rev_lastN, B.
Qed.

(** X3.  [clearHistory] after any run of requests leaves the agent the
    constructor makes: an empty ledger, no last answer, the same cap. *)
Theorem clearHistory_is_new :
  forall requests : list (World * string),
    clearHistory (snd (session requests newAgent)) = newAgent.
Proof.
  intro requests.
  destruct (@session_ledger _ _ _ requests newAgent [] eq_refl) as [_ L].
  unfold clearHistory. rewrite L. reflexivity.
Qed.

(** X4.  No payload of [calculate] carries the units of a conversion:
    the keys [fromUnit], [toUnit] and [category], which
    [parseUnitConversion] returns and [formatResult] reads, are absent. *)
Theorem payload_has_no_units :
  forall (w : World) (a : CalculatorAgent) (input : string),
    let payload := fst (calculate w a input) in
    lookup "fromUnit" payload = None
    /\ lookup "toUnit" payload = None
    /\ lookup "category" payload = None.
Proof.
  intros w a input. unfold calculate.
  destruct (attempt w a input) as [[payload a']|message] eqn:E; cbn [fst snd].
  - destruct (attempt_ok _ _ _ E) as (r & value & extra & _ & P & -> & _).
    assert (K : forall k,
               ~ In k ["graphType"; "from"; "to"; "points"; "dataPoints"] ->
               lookup k extra = None).
    { intros k N. destruct (lookup k extra) eqn:L; [|reflexivity].
      exfalso. apply N. apply (perform_additional _ _ P). rewrite L. discriminate. }
    unfold successPayload. cbn [app lookup String.eqb Ascii.eqb Bool.eqb].
    repeat split; apply K; cbn; intuition discriminate.
  - repeat split; reflexivity.
Qed.

End Memory.

(** ** What the unit detection takes over *)

Section UnitDetection.

Context {num : Type} {arith : Arith num} {host : Host (num := num)}.

Lemma prefix_trans :
  forall j k s, Str.prefix j k = true -> Str.prefix k s = true -> Str.prefix j s = true.
Proof.
  induction j as [|a j IH]; intros k s J K; [reflexivity|].
  destruct k as [|b k]; [discriminate|]. destruct s as [|c s]; [discriminate|].
  cbn in J, K |- *. apply andb_prop in J. apply andb_prop in K.
  destruct J as [E1 J], K as [E2 K].
  apply Ascii.eqb_eq in E1, E2. subst b c. rewrite Ascii.eqb_refl.
  exact (IH _ _ J K).
Qed.

Lemma includes_tail :
  forall c s j, Str.includes s j = true -> Str.includes (String c s) j = true.
Proof. intros c s j H. cbn [Str.includes]. rewrite H. apply orb_true_r. Qed.

Lemma includes_of_prefix :
  forall k s j,
    Str.prefix k s = true -> Str.includes k j = true -> Str.includes s j = true.
Proof.
  induction k as [|b k IH]; intros s j P I.
  - cbn in I. rewrite orb_false_r in I.
    destruct j; [|discriminate]. destruct s; reflexivity.
  - destruct s as [|c s]; [discriminate|].
    cbn [Str.includes] in I. apply orb_prop in I. destruct I as [I|I].
    + cbn [Str.includes]. rewrite (prefix_trans _ _ _ I P). reflexivity.
    + cbn in P. apply andb_prop in P. apply includes_tail, (IH _ _ (proj2 P) I).
Qed.

(** A part of a part is a part. *)
Lemma includes_trans :
  forall s k j,
    Str.includes s k = true -> Str.includes k j = true -> Str.includes s j = true.
Proof.
  induction s as [|c s IH]; intros k j K J.
  - cbn in K. rewrite orb_false_r in K. exact (includes_of_prefix _ _ _ K J).
  - cbn [Str.includes] in K. apply orb_prop in K. destruct K as [K|K].
    + exact (includes_of_prefix _ _ _ K J).
    + apply includes_tail, (IH _ _ K J).
Qed.

Lemma prefix_toLowerCase :
  forall k s,
    Str.prefix k s = true ->
    Str.prefix (Str.toLowerCase k) (Str.toLowerCase s) = true.
Proof.
  induction k as [|a k IH]; intros s P; [reflexivity|].
  destruct s as [|c s]; [discriminate|]. cbn in P |- *.
  apply andb_prop in P. destruct P as [E P]. apply Ascii.eqb_eq in E. subst c.
  rewrite Ascii.eqb_refl. exact (IH _ P).
Qed.

Lemma includes_toLowerCase :
  forall s k,
    Str.includes s k = true ->
    Str.includes (Str.toLowerCase s) (Str.toLowerCase k) = true.
Proof.
  induction s as [|c s IH]; intros k I.
  - cbn in I. rewrite orb_false_r in I. destruct k; [reflexivity|discriminate].
  - cbn [Str.includes] in I. apply orb_prop in I. destruct I as [I|I].
    + change (Str.toLowerCase (String c s))
        with (String (Str.lowerChar c) (Str.toLowerCase s)).
      cbn [Str.includes].
      pose proof (prefix_toLowerCase _ (String c s) I) as P.
      change (Str.toLowerCase (String c s))
        with (String (Str.lowerChar c) (Str.toLowerCase s)) in P.
      rewrite P. reflexivity.
    + change (Str.toLowerCase (String c s))
        with (String (Str.lowerChar c) (Str.toLowerCase s)).
      apply includes_tail, IH, I.
Qed.

Lemma keyword_of_part :
  forall (keywords : list string) (text part : string),
    Str.includes text part = true ->
    List.existsb (Str.includes part) keywords = true ->
    List.existsb (Str.includes text) keywords = true.
Proof.
  intros keywords text part I K. apply existsb_exists in K.
  destruct K as (k & K & P). apply existsb_exists. exists k.
  split; [exact K|exact (includes_trans _ _ _ I P)].
Qed.

Lemma unit_request_of_part :
  forall text part : string,
    Str.includes text part = true ->
    containsUnitKeywords (num := num) part = true ->
    containsUnitKeywords (num := num) text = true.
Proof.
  intros text part I U. unfold containsUnitKeywords in *.
  apply orb_prop in U. apply orb_true_iff. destruct U as [U|U].
  - left. exact (@keyword_of_part _ _ _ I U).
  - right. unfold containsUnitNames in *.
    apply existsb_exists in U. destruct U as (category & C & U).
    apply existsb_exists. exists category. split; [exact C|].
    exact (@keyword_of_part _ _ _ (includes_toLowerCase _ _ I) U).
Qed.

(** X6.  Every keyword detection looks for parts of the text: a text with
    a part that is taken for a unit request is taken for one too, and so it
    is for the graphing, statistics and trigonometry keywords. *)
Theorem containsUnitKeywords_of_part :
  forall text part : string,
    Str.includes text part = true ->
    (containsUnitKeywords (num := num) part = true ->
     containsUnitKeywords (num := num) text = true)
    /\ (containsGraphKeywords part = true -> containsGraphKeywords text = true)
    /\ (containsStatsKeywords part = true -> containsStatsKeywords text = true)
    /\ (containsTrigKeywords part = true -> containsTrigKeywords text = true).
Proof.
  intros text part I.
  split; [exact (@unit_request_of_part _ _ I)|].
  unfold containsGraphKeywords, containsStatsKeywords, containsTrigKeywords.
  repeat split; apply keyword_of_part; exact I.
Qed.

Lemma stats_keywords_are_units :
  List.forallb (containsUnitKeywords (num := num)) (keys statsKeywords) = true.
Proof. reflexivity. Qed.

(** X7.  Every statistics keyword holds a unit name or keyword (the [m]
    of [mean], the [g] of [average], the [s] of [sum]...), so a text with
    one is never handed to the statistics extractor: it is a graphing
    request, a unit conversion or a literal expression. *)
Theorem statistics_is_never_reached :
  forall c : string,
    containsStatsKeywords c = true ->
    containsUnitKeywords (num := num) c = true
    /\ (classifyCleaned (num := num) c = Graphing
        \/ classifyCleaned (num := num) c = UnitConversion
        \/ classifyCleaned (num := num) c = Literal (detectOperationType c)).
Proof.
  intros c S.
  assert (U : containsUnitKeywords (num := num) c = true).
  { unfold containsStatsKeywords in S. apply existsb_exists in S.
    destruct S as (k & K & I).
    apply (@unit_request_of_part _ _ I).
    pose proof stats_keywords_are_units as A.
    rewrite forallb_forall in A. exact (A k K). }
  split; [exact U|]. unfold classifyCleaned. rewrite U.
  destruct (isNaturalLanguage c); [|tauto].
  destruct (containsGraphKeywords c); tauto.
Qed.

(** X8.  Of the trigonometry keywords only [tan] is free of unit names
    and keywords ([sin] holds [in], [cos] holds [c], [tangent] holds [g]):
    a text handed to the trigonometry extractor holds [tan] and neither
    [sin] nor [cos], and the function detected is the tangent. *)
Theorem trigonometry_is_tangent :
  forall c : string,
    classifyCleaned (num := num) c = Trigonometry ->
    Str.includes c "tan" = true
    /\ Str.includes c "sin" = false
    /\ Str.includes c "cos" = false
    /\ Str.includes c "tangent" = false
    /\ detectTrigFunction c = "tan".
Proof.
  intros c C. unfold classifyCleaned in C.
  destruct (isNaturalLanguage c); [|discriminate].
  destruct (containsGraphKeywords c); [discriminate|].
  destruct (containsUnitKeywords c) eqn:U; [discriminate|].
  destruct (containsStatsKeywords c); [discriminate|].
  destruct (containsTrigKeywords c) eqn:T; [|discriminate].
  assert (N : forall k, containsUnitKeywords (num := num) k = true ->
                        Str.includes c k = false).
  { intros k K. destruct (Str.includes c k) eqn:I; [|reflexivity].
    rewrite (@unit_request_of_part _ _ I K) in U. discriminate. }
  pose proof (N "sin" eq_refl) as S. pose proof (N "cos" eq_refl) as Co.
  pose proof (N "sine" eq_refl) as Si. pose proof (N "cosine" eq_refl) as Cs.
  pose proof (N "tangent" eq_refl) as Tg.
  unfold containsTrigKeywords in T. cbn [List.existsb] in T.
  rewrite S, Co, Si, Cs, Tg in T. cbn in T. rewrite orb_false_r in T.
  repeat split; try assumption.
  unfold detectTrigFunction. rewrite S, Si, Co, Cs, T. reflexivity.
Qed.

End UnitDetection.

(** ** The last answer over a run, and the two versions *)

Section Versions.

Context {num : Type} {arith : Arith num} {host : Host (num := num)}.

(** X5.  After a run of requests the last answer is the last result that
    is a Number, whatever else was asked since (failures, plots, results
    that are not Numbers); with no such result it is the answer the run
    found. *)
Theorem lastAnswer_after_session :
  forall (requests : list (World * string)) (a : CalculatorAgent),
    lastAnswer (snd (session requests a))
    = lastNumber (fst (session requests a)) (lastAnswer a).
Proof.
  induction requests as [|[w input] rest IH]; intro a; [reflexivity|].
  cbn [session].
  pose proof (calculate_lastAnswer w a input) as L.
  destruct (calculate w a input) as [payload a1]. cbn [fst snd] in L.
  specialize (IH a1).
  destruct (session rest a1) as [payloads a2]. cbn [fst snd] in *.
  unfold lastNumber in *. cbn [List.fold_left]. rewrite IH, L. reflexivity.
Qed.

(** X9.  On a text without graphing keyword that is a literal expression
    or holds no unit keyword or name, the second agent, new, returns the
    payload the first agent returns. *)
Theorem calculate_extends_first_version :
  forall (w : World) (input : string),
    containsGraphKeywords (cleanInput input) = false ->
    isNaturalLanguage (cleanInput input)
    && containsUnitKeywords (num := num) (cleanInput input) = false ->
    fst (calculate w newAgent input) = calculateV1 w input.
Proof.
  intros w input G U.
  unfold calculate, attempt, calculateV1.
  change (substituteAns newAgent (cleanInput input)) with (cleanInput input).
  set (c := cleanInput input) in *.
  assert (N : isNaturalLanguageV1 c = isNaturalLanguage c)
    by (unfold isNaturalLanguage; rewrite G; reflexivity).
  unfold parseRequest. rewrite N, G.
  destruct (isNaturalLanguage c); cbn [andb] in U.
  - rewrite U.
    destruct (parseNaturalLanguage c) as [p|m] eqn:P; cbn [bind]; [|reflexivity].
    assert (T : String.eqb (operationType p) "graphing" = false).
    { unfold parseNaturalLanguage, parseStatisticsRequest,
        parseTrigonometryRequest in P.
      destruct (containsStatsKeywords c).
      - destruct (mathStatistic _ _); [|discriminate]. injection P as <-. reflexivity.
      - destruct (containsTrigKeywords c).
        + destruct (mathDegrees _ _); [|discriminate]. injection P as <-. reflexivity.
        + injection P as <-. reflexivity. }
    unfold textOf. cbn [requestType isValidExpression]. rewrite T. cbn [negb andb].
    destruct (mathCompile (expression p)); cbn [negb bind]; [|reflexivity].
    cbn [perform]. destruct (evaluateExpression (expression p)); reflexivity.
  - cbn [bind requestType isValidExpression].
    assert (T : String.eqb (detectOperationType c) "graphing" = false).
    { unfold detectOperationType.
      repeat match goal with |- context [if ?b then _ else _] => destruct b end;
        reflexivity. }
    rewrite T. cbn [negb andb].
    destruct (mathCompile c); cbn [negb bind]; [|reflexivity].
    cbn [perform]. destruct (evaluateExpression c); reflexivity.
Qed.

End Versions.

(** ** Numeric literals *)

Section Literals.

Context {num : Type} {arith : Arith num}.

Lemma matchNumbersFrom_started :
  forall s m,
    matchNumbersFrom (InInteger m) s <> [] /\ matchNumbersFrom (InFraction m) s <> [].
Proof.
  induction s as [|c s IH]; intro m; cbn [matchNumbersFrom].
  - split; discriminate.
  - split.
    + destruct (Str.isDigit c); [apply IH|].
      destruct (Ascii.eqb c "."); [apply IH|discriminate].
    + destruct (Str.isDigit c); [apply IH|discriminate].
Qed.

Lemma matchNumbersFrom_outside :
  forall s pending,
    matchNumbersFrom (Outside pending) s = [] <-> Str.existsb Str.isDigit s = false.
Proof.
  induction s as [|c s IH]; intro pending; cbn [matchNumbersFrom Str.existsb].
  - tauto.
  - destruct (Str.isDigit c); cbn [orb].
    + split; [|discriminate]. intro E.
      exfalso. exact (proj1 (matchNumbersFrom_started s _) E).
    + apply IH.
Qed.

(** X10.  A text holds a number exactly when it holds a digit: without a
    digit [extractNumbers] returns the empty list, and then the unit
    conversion and the histogram extractor throw; with one they find a
    value. *)
Theorem extractNumbers_none :
  forall text : string,
    (extractNumbers text = [] <-> Str.existsb Str.isDigit text = false)
    /\ (parseHistogram text = Throw "Histogram requires data points"
        <-> Str.existsb Str.isDigit text = false).
Proof.
  intro text.
  assert (E : extractNumbers text = [] <-> Str.existsb Str.isDigit text = false).
  { unfold extractNumbers, matchNumbers.
    rewrite <- (matchNumbersFrom_outside text false).
    destruct (matchNumbersFrom (Outside false) text); cbn; split;
      solve [reflexivity | discriminate]. }
  split; [exact E|]. rewrite <- E. unfold parseHistogram.
  destruct (extractNumbers text); cbn; split;
    solve [reflexivity | discriminate].
Qed.

End Literals.

(** ** What a request reads of the memory *)

Section Independence.

Context {num : Type} {arith : Arith num} {host : Host (num := num)}.

Lemma replaceAnsFrom_without_ans :
  forall (replacement s : string) (previousIsWord : bool),
    Str.includes s "ans" = false ->
    replaceAnsFrom replacement previousIsWord 0 s = s.
Proof.
  induction s as [|c s IH]; intros p I; [reflexivity|].
  cbn [Str.includes] in I. apply orb_false_elim in I. destruct I as [P I].
  cbn [replaceAnsFrom]. rewrite P, andb_false_r. cbn [andb].
  rewrite (IH _ I). reflexivity.
Qed.

(** X11.  The payload of a request depends on the agent through the last
    answer only, never through the ledger; and when the cleaned text does not
    hold the letters [ans], not on the agent at all. *)
Theorem calculate_reads_last_answer :
  forall (w : World) (a b : CalculatorAgent) (input : string),
    lastAnswer a = lastAnswer b \/ Str.includes (cleanInput input) "ans" = false ->
    fst (calculate w a input) = fst (calculate w b input).
Proof.
  intros w a b input H.
  assert (S : substituteAns a (cleanInput input) = substituteAns b (cleanInput input)).
  { unfold substituteAns. destruct H as [->|I]; [reflexivity|].
    unfold replaceAns. destruct (lastAnswer a), (lastAnswer b);
      rewrite ?replaceAnsFrom_without_ans by exact I; reflexivity. }
  unfold calculate, attempt. rewrite S.
  destruct (parseRequest _) as [r|m]; cbn [bind]; [|reflexivity].
  destruct (negb _ && negb _); cbn [bind]; [reflexivity|].
  destruct (perform w r) as [[value extra]|m]; reflexivity.
Qed.

(** X12.  A graphing request never sets the last answer: when it succeeds
    its result is the report of the plot, an object with the path of the file
    written, and the payload says [graphing]; when it fails nothing changes. *)
Theorem graphing_keeps_last_answer :
  forall (w : World) (a : CalculatorAgent) (input : string),
    classifyCleaned (num := num) (substituteAns a (cleanInput input)) = Graphing ->
    let payload := fst (calculate w a input) in
    lastAnswer (snd (calculate w a input)) = lastAnswer a
    /\ (succeeded payload = true ->
        lookup "operationType" payload = Some (JStr "graphing")
        /\ exists report path,
             lookup "result" payload = Some (JObj report)
             /\ lookup "success" report = Some (JBool true)
             /\ lookup "filepath" report = Some (JStr path)).
Proof.
  intros w a input C. cbv zeta. unfold calculate.
  destruct (attempt w a input) as [[payload a']|message] eqn:E; cbn [fst snd].
  - destruct (attempt_ok _ _ _ E) as (r & value & extra & R & P & -> & ->).
    rewrite parseRequest_classify, C in R.
    destruct (parseGraphingRequest _) as [g|m]; cbn [bind] in R; [|discriminate].
    injection R as <-.
    assert (V : exists report path,
               value = JObj report
               /\ lookup "success" report = Some (JBool true)
               /\ lookup "filepath" report = Some (JStr path)).
    { destruct g as [body from to|x y|data]; cbn [perform] in P;
        unfold generateFunctionPlot, generateScatterPlot, generateHistogram in P.
      - destruct (generateFunctionData body from to 100) as [xs ys].
        destruct (createPlot _ _) as [path|m]; cbn [bind] in P; [|discriminate].
        injection P as <- <-. eexists. exists path. repeat split.
      - destruct (createPlot _ _) as [path|m]; cbn [bind] in P; [|discriminate].
        injection P as <- <-. eexists. exists path. repeat split.
      - destruct (createPlot _ _) as [path|m]; cbn [bind] in P; [|discriminate].
        injection P as <- <-. eexists. exists path. repeat split. }
    destruct V as (report & path & -> & S & F).
    split; [reflexivity|]. intros _. split; [reflexivity|].
    exists report, path. repeat split; assumption.
  - split; [reflexivity|]. discriminate.
Qed.


End Independence.

(** ** The number of bins and the samples of a function *)

Section Plots.

Context {num : Type} {arith : Arith num} {host : Host (num := num)}.

Local Open Scope nat_scope.

(** X15.  A histogram of [n] values has as many labels as counts, and
    their number is the least [k] with [n <= k * k], at most 10: the ceiling
    of the square root of [n] up to 100 values, and 10 beyond. *)
Theorem histogram_bins_number :
  forall data : list num,
    let n := List.length data in
    let bins := createHistogramBins data in
    List.length (labels bins) = numBinsFor n
    /\ List.length (counts bins) = numBinsFor n
    /\ numBinsFor n <= 10
    /\ (n <= 100 ->
        n <= numBinsFor n * numBinsFor n
        /\ forall k, n <= k * k -> numBinsFor n <= k)
    /\ (100 < n -> numBinsFor n = 10).
Proof.
  intro data. cbv zeta.
  assert (L : List.length (labels (createHistogramBins data))
              = numBinsFor (List.length data)
              /\ List.length (counts (createHistogramBins data))
                 = numBinsFor (List.length data)).
  { destruct data as [|d rest]; [split; reflexivity|].
    unfold createHistogramBins. cbn [labels counts].
    rewrite !length_map, length_seq. split; reflexivity. }
  destruct L as [L1 L2]. split; [exact L1|]. split; [exact L2|].
  generalize (List.length data) as n. clear. intro n.
  unfold numBinsFor. split; [apply Nat.le_min_l|].
  destruct (Nat.eq_dec n 0) as [->|Z].
  { split; [intros _|intro H; inversion H].
    split; [apply Nat.le_0_l|]. intros k _. apply Nat.le_0_l. }
  pose proof (Nat.sqrt_up_spec n) as S. cbv zeta in S.
  specialize (S ltac:(lia)). unfold Nat.square in S.
  split.
  - intro B.
    assert (U : Nat.sqrt_up n <= 10).
    { destruct (Nat.le_gt_cases (Nat.sqrt_up n) 10) as [U|U]; [exact U|].
      exfalso.
      assert (10 <= Nat.pred (Nat.sqrt_up n)) by lia. nia. }
    rewrite Nat.min_r by exact U. split; [lia|].
    intros k K.
    destruct (Nat.le_gt_cases (Nat.sqrt_up n) k) as [G|G]; [exact G|].
    exfalso. assert (k <= Nat.pred (Nat.sqrt_up n)) by lia. nia.
  - intro B. apply Nat.min_l.
    destruct (Nat.le_gt_cases 10 (Nat.sqrt_up n)) as [U|U]; [exact U|].
    exfalso. nia.
Qed.

Lemma samples_of :
  forall (expression : string) (from step : num) (indices : list nat),
    let samples := List.flat_map (samplePoint expression from step) indices in
    List.length samples <= List.length indices
    /\ Forall (fun s => isFinite (snd s) = true
                        /\ exists i, In i indices
                             /\ fst s = (from + ofNat i * step)%num
                             /\ mathEvaluate
                                  (replaceX expression
                                     ("(" ++ numberToString (fst s) ++ ")"))
                                = Ok (snd s)) samples
    /\ ((forall i, In i indices ->
           exists y, mathEvaluate
                       (replaceX expression
                          ("(" ++ numberToString (from + ofNat i * step)%num ++ ")"))
                     = Ok y /\ isFinite y = true) ->
        List.map fst samples
        = List.map (fun i => (from + ofNat i * step)%num) indices).
Proof.
  intros expression from step. induction indices as [|i rest IH]; cbv zeta.
  - split; [apply Nat.le_refl|]. split; [constructor|reflexivity].
  - cbv zeta in IH. destruct IH as (IH1 & IH2 & IH3).
    cbn [List.flat_map]. rewrite length_app.
    assert (F2 : Forall
                   (fun s => isFinite (snd s) = true
                             /\ exists j, In j (i :: rest)
                                  /\ fst s = (from + ofNat j * step)%num
                                  /\ mathEvaluate
                                       (replaceX expression
                                          ("(" ++ numberToString (fst s) ++ ")"))
                                     = Ok (snd s))
                   (List.flat_map (samplePoint expression from step) rest)).
    { eapply Forall_impl; [|exact IH2]. intros s [A B]. split; [exact A|].
      destruct B as (j & J & K). exists j. split; [right; exact J|exact K]. }
    assert (P : samplePoint expression from step i
                = match mathEvaluate
                          (replaceX expression
                             ("(" ++ numberToString (from + ofNat i * step)%num ++ ")"))
                  with
                  | Ok y => if isFinite y then [((from + ofNat i * step)%num, y)] else []
                  | Throw _ => []
                  end) by reflexivity.
    rewrite P. clear P.
    destruct (mathEvaluate _) as [y|m] eqn:E.
    + destruct (isFinite y) eqn:Fy.
      * split; [cbn [List.length]; lia|]. split.
        -- apply Forall_app. split; [|exact F2].
           constructor; [|constructor]. cbn [fst snd]. split; [exact Fy|].
           exists i. split; [left; reflexivity|]. split; [reflexivity|exact E].
        -- intro T. cbn [app List.map fst]. f_equal.
           apply IH3. intros j J. apply T. right. exact J.
      * split; [cbn [List.length]; lia|]. split; [exact F2|].
        intro T. exfalso. destruct (T i (or_introl eq_refl)) as (y' & E' & F').
        rewrite E in E'. injection E' as <-. congruence.
    + split; [cbn [List.length]; lia|]. split; [exact F2|].
      intro T. exfalso. destruct (T i (or_introl eq_refl)) as (y' & E' & _).
      rewrite E in E'. discriminate.
Qed.

(** X16.  The samples of a function plot: as many ordinates as abscissas,
    at most [points + 1]; each abscissa is a point [from + i * step] of the
    grid and its ordinate is the value the evaluator gives there, a finite
    one; the points where the evaluator throws or is not finite are left out
    without a word, and when there is none the abscissas are the whole grid. *)
Theorem generateFunctionData_samples :
  forall (expression : string) (from to : num) (points : nat),
    let step := ((to - from) / ofNat points)%num in
    let x := fst (generateFunctionData expression from to points) in
    let y := snd (generateFunctionData expression from to points) in
    let at_ (v : num) :=
      mathEvaluate (replaceX expression ("(" ++ numberToString v ++ ")")) in
    List.length x = List.length y
    /\ List.length x <= points + 1
    /\ Forall (fun p => isFinite (snd p) = true
                        /\ at_ (fst p) = Ok (snd p)
                        /\ exists i, i <= points
                             /\ fst p = (from + ofNat i * step)%num)
         (List.combine x y)
    /\ ((forall i, i <= points ->
           exists v, at_ (from + ofNat i * step)%num = Ok v /\ isFinite v = true) ->
        x = List.map (fun i => (from + ofNat i * step)%num) (seq 0 (S points))).
Proof.
  intros expression from to points. cbv zeta.
  unfold generateFunctionData. cbn [fst snd].
  set (step := ((to - from) / ofNat points)%num).
  destruct (samples_of expression from step (seq 0 (S points))) as (A & B & C).
  cbv zeta in A, B, C.
  set (samples := List.flat_map (samplePoint expression from step) (seq 0 (S points))) in *.
  split; [rewrite !length_map; reflexivity|].
  split; [rewrite length_map; rewrite length_seq in A; lia|].
  split.
  - assert (E : List.combine (List.map fst samples) (List.map snd samples) = samples).
    { clear. induction samples as [|[a b] l IH]; [reflexivity|].
      cbn [List.map List.combine fst snd]. rewrite IH. reflexivity. }
    rewrite E. eapply Forall_impl; [|exact B].
    intros p (F & i & I & X & V). split; [exact F|]. split; [exact V|].
    exists i. split; [|exact X]. apply in_seq in I. lia.
  - intro T. apply C. intros i I. apply T. apply in_seq in I. lia.
Qed.

End Plots.

(** ** Conversions asked with [to], [in] or [as] *)

Section Separator.

Context {num : Type} {arith : Arith num}.

Lemma lookup_in_keys :
  forall (A : Type) (k : string) (o : list (string * A)) (v : A),
    lookup k o = Some v -> In k (keys o).
Proof.
  intros A k. induction o as [|[k' v'] o IH]; intros v L; [discriminate|].
  cbn [lookup] in L. cbn [keys List.map fst].
  destruct (String.eqb_spec k k') as [->|_]; [left; reflexivity|].
  right. exact (IH _ L).
Qed.

Lemma findSource_sound :
  forall (text : string) (table : list (string * @object num)) (unit cat : string),
    NoDup (keys table) ->
    findSource text table = Some (unit, cat) ->
    exists units,
      lookup cat table = Some units
      /\ In unit (keys units) /\ Str.includes text unit = true.
Proof.
  intros text. induction table as [|[cat0 units0] rest IH]; intros unit cat D F;
    [discriminate|].
  cbn [findSource] in F. cbn [keys List.map fst] in D.
  apply NoDup_cons_iff in D. destruct D as [D1 D2].
  destruct (firstUnitIn text (keys units0)) as [found|] eqn:E.
  - injection F as <- <-. exists units0. cbn [lookup]. rewrite String.eqb_refl.
    unfold firstUnitIn in E. apply find_some in E. tauto.
  - destruct (IH _ _ D2 F) as (units & L & I).
    exists units. split; [|exact I]. cbn [lookup].
    destruct (String.eqb_spec cat cat0) as [->|_]; [|exact L].
    exfalso. apply D1. exact (lookup_in_keys _ _ L).
Qed.

Lemma unitConversions_categories : NoDup (keys (unitConversions (num := num))).
Proof.
  cbn. repeat (apply NoDup_cons; [cbn; intuition discriminate|]). apply NoDup_nil.
Qed.

Lemma extractUnits_target :
  forall (input : string) (toIndex : nat) (target : string),
    let tokens := tokenize (Str.toLowerCase input) in
    findIndex isSeparator tokens = Some toIndex ->
    toUnit (extractUnits (num := num) input) = Some target ->
    exists source cat units,
      fromUnit (extractUnits (num := num) input) = Some source
      /\ category (extractUnits (num := num) input) = Some cat
      /\ lookup cat (unitConversions (num := num)) = Some units
      /\ In source (keys units) /\ In target (keys units)
      /\ Str.includes (Str.join " " (firstn toIndex tokens)) source = true
      /\ Str.includes (Str.join " " (skipn (S toIndex) tokens)) target = true.
Proof.
  intros input toIndex target tokens I T. unfold extractUnits in *.
  fold tokens in T |- *. rewrite I in T |- *.
  destruct (findSource _ unitConversions) as [[unit cat]|] eqn:F;
    [|discriminate].
  destruct (findSource_sound _ _ unitConversions_categories F) as (units & L & K & P).
  cbn [toUnit fromUnit category] in T |- *. rewrite L in T.
  unfold firstUnitIn in T. apply find_some in T.
  exists unit, cat, units. tauto.
Qed.

(** X17.  When the text holds one of the words [to], [in], [as], the
    target unit is looked for in the category of the source unit only: the
    two units found are names of one category of the table, the source a part
    of the words before the separator and the target a part of the words
    after it; and when no source is found before the separator nothing is
    returned, whatever comes after it. *)
Theorem extractUnits_with_separator :
  forall (input : string) (toIndex : nat),
    let tokens := tokenize (Str.toLowerCase input) in
    let found := extractUnits (num := num) input in
    findIndex isSeparator tokens = Some toIndex ->
    (forall target,
        toUnit found = Some target ->
        exists source cat units,
          fromUnit found = Some source
          /\ category found = Some cat
          /\ lookup cat (unitConversions (num := num)) = Some units
          /\ In source (keys units) /\ In target (keys units)
          /\ Str.includes (Str.join " " (firstn toIndex tokens)) source = true
          /\ Str.includes (Str.join " " (skipn (S toIndex) tokens)) target = true)
    /\ (fromUnit found = None -> toUnit found = None /\ category found = None).
Proof.
  intros input toIndex tokens found I. split.
  - intros target T. exact (@extractUnits_target input toIndex target I T).
  - unfold found, extractUnits. fold tokens. rewrite I.
    destruct (findSource _ unitConversions) as [[unit cat]|].
    + cbn [fromUnit]. discriminate.
    + intros _. split; reflexivity.
Qed.

End Separator.

Section SeparatorExact.

Local Existing Instance rational.

Context {host : Host (num := Q)}.

Lemma convertUnit_same_category :
  forall (v : Q) (cat : string) (units : @object Q) (u1 u2 : string),
    lookup cat unitConversions = Some units ->
    In u1 (keys units) -> In u2 (keys units) ->
    exists r, convertUnit v u1 u2 (Some cat) = Ok r.
Proof.
  intros v cat units u1 u2 L I1 I2.
  assert (R : exists r, roundTrip v u1 u2 (Some cat) = Ok r /\ (r == v)%Q).
  { pose proof L as L'. unfold unitConversions in L'. cbn [lookup] in L'.
    repeat match type of L' with
           | (if String.eqb cat ?k then _ else _) = _ =>
               destruct (String.eqb_spec cat k) as [->|_];
               [injection L' as <-;
                first [ apply roundTrip_temperature; assumption
                      | eapply roundTrip_linear; try eassumption; reflexivity ]|]
           end.
    discriminate L'. }
  destruct R as (r & R & _). unfold roundTrip in R.
  destruct (convertUnit v u1 u2 (Some cat)) as [there|m]; [|discriminate].
  exists there. reflexivity.
Qed.

(** X18.  In exact arithmetic a conversion asked with [to], [in] or [as]
    never fails on the units: it throws for want of a number or of one of the
    two units, and otherwise returns the value converted between two units of
    one category. *)
Theorem parseUnitConversion_with_separator :
  forall (input : string) (toIndex : nat),
    findIndex isSeparator (tokenize (Str.toLowerCase input)) = Some toIndex ->
    parseUnitConversion input = Throw "No number found for unit conversion"
    \/ parseUnitConversion input = Throw "Could not identify source and target units"
    \/ exists value others source target cat units converted,
         extractNumbers input = value :: others
         /\ lookup cat unitConversions = Some units
         /\ In source (keys units) /\ In target (keys units)
         /\ convertUnit value source target (Some cat) = Ok converted
         /\ parseUnitConversion input
            = Ok {| expression :=
                      numberToString value ++ " " ++ source ++ " to " ++ target;
                    operationType := "unit conversion";
                    parsedResult := Some converted;
                    parsedUnits := extractUnits input |}.
Proof.
  intros input toIndex I. unfold parseUnitConversion.
  destruct (extractNumbers input) as [|value others]; [left; reflexivity|].
  right.
  destruct (toUnit (extractUnits input)) as [target|] eqn:T.
  - destruct (@extractUnits_target Q rational input toIndex target I T)
      as (source & cat & units & F & C & L & I1 & I2 & _).
    rewrite F, C.
    destruct (@convertUnit_same_category value cat units source target L I1 I2)
      as (converted & E).
    right. exists value, others, source, target, cat, units, converted.
    rewrite E. cbn [bind]. repeat split; assumption.
  - left. destruct (fromUnit (extractUnits input)); reflexivity.
Qed.

End SeparatorExact.

(** ** Texts put together *)

Section Appending.

Lemma append_empty : forall s : string, s ++ "" = s.
Proof. induction s as [|c s IH]; [reflexivity|]. cbn. rewrite IH. reflexivity. Qed.

Lemma append_associative :
  forall s t u : string, (s ++ t) ++ u = s ++ t ++ u.
Proof.
  induction s as [|c s IH]; intros t u; [reflexivity|]. cbn. rewrite IH. reflexivity.
Qed.

End Appending.

(** ** The cleaned text *)

Section Cleaned.

Local Open Scope nat_scope.








End Cleaned.

(** ** Connecting words *)

Section Connectors.

Lemma arithmeticExpression_head :
  forall (token : string) (l l' : list string),
    List.hd_error l = List.hd_error l' ->
    exists piece,
      arithmeticExpression (token :: l) = piece ++ arithmeticExpression l
      /\ arithmeticExpression (token :: l') = piece ++ arithmeticExpression l'.
Proof.
  intros token l l' H.
  assert (S : match l with
              | next :: _ => if isNumber next then " " else ""
              | [] => ""
              end
              = match l' with
                | next :: _ => if isNumber next then " " else ""
                | [] => ""
                end).
  { destruct l, l'; try discriminate; [reflexivity|].
    cbn in H. injection H as <-. reflexivity. }
  cbn [arithmeticExpression]. rewrite <- S.
  set (spacer := match l with
                 | next :: _ => if isNumber next then " " else ""
                 | [] => ""
                 end).
  destruct (isNumber token).
  { exists (token ++ spacer). rewrite !append_associative. split; reflexivity. }
  destruct (mathKeyword token) as [symbol|].
  { exists (symbol ++ spacer). rewrite !append_associative. split; reflexivity. }
  destruct (String.eqb token "and" || String.eqb token "with").
  { exists "". split; reflexivity. }
  destruct (isNumberWord token).
  { exists (wordToNumber token ++ spacer). rewrite !append_associative.
    split; reflexivity. }
  exists spacer. split; reflexivity.
Qed.

(** X22.  The words [and] and [with] are passed over together with the
    space that goes before a number: after a number they leave the next
    token's text directly behind the number's, so that two numbers joined by
    [and] are written as one run of digits. *)
Theorem connector_joins :
  forall (before : list string) (a connector : string) (rest : list string),
    isNumber a = true ->
    connector = "and" \/ connector = "with" ->
    arithmeticExpression (before ++ a :: connector :: rest)%list
    = arithmeticExpression (before ++ [a])%list ++ arithmeticExpression rest
    /\ (forall b, isNumber b = true ->
                  arithmeticExpression [a; connector; b] = a ++ b
                  /\ arithmeticExpression [a; b] = a ++ " " ++ b).
Proof.
  intros before a connector rest A C.
  assert (K : isNumber connector = false /\ mathKeyword connector = None
              /\ String.eqb connector "and" || String.eqb connector "with" = true).
  { destruct C as [-> | ->]; repeat split; vm_compute; reflexivity. }
  destruct K as (K1 & K2 & K3).
  assert (G : forall tail,
             arithmeticExpression (a :: connector :: tail)
             = a ++ arithmeticExpression tail).
  { intro tail. cbn [arithmeticExpression]. rewrite A, K1, K2, K3. reflexivity. }
  split.
  - induction before as [|t before IH].
    + cbn [app]. rewrite G. cbn [arithmeticExpression]. rewrite A.
      cbn [append]. rewrite append_empty. reflexivity.
    + assert (H : List.hd_error (before ++ a :: connector :: rest)%list
                  = List.hd_error (before ++ [a])%list)
        by (destruct before; reflexivity).
      destruct (arithmeticExpression_head t _ _ H) as (piece & E1 & E2).
      cbn [app]. rewrite E1, E2, IH, append_associative. reflexivity.
  - intros b B. split.
    + rewrite G. cbn [arithmeticExpression]. rewrite B. cbn [append].
      rewrite append_empty. reflexivity.
    + cbn [arithmeticExpression]. rewrite A, B. cbn [append].
      rewrite append_empty. reflexivity.
Qed.

End Connectors.

(** ** Expressions typed as they are *)

Section Expressions.

Context {num : Type} {arith : Arith num} {host : Host (num := num)}.

(** X23.  A text that is not natural language (it holds a sign of
    [+ - * / ^ ( )] or no letter, and no graphing keyword) is evaluated as it
    is once cleaned, with [ans] replaced.  If it does not compile the request
    fails with [Invalid mathematical expression]; if the evaluator throws,
    with [Calculation error: ] and the evaluator's message; in both cases the
    agent is unchanged.  Otherwise the payload carries the cleaned text as
    expression, the evaluator's value as result and the operation type read
    off the text, one of five. *)
Theorem literal_is_evaluated :
  forall (w : World) (a : CalculatorAgent) (input : string),
    let c := substituteAns a (cleanInput input) in
    isNaturalLanguage c = false ->
    (mathCompile c = false ->
     calculate w a input
     = (failurePayload w input "Invalid mathematical expression", a))
    /\ (forall m,
          mathCompile c = true -> mathEvaluate c = Throw m ->
          calculate w a input
          = (failurePayload w input ("Calculation error: " ++ m), a))
    /\ (forall v,
          mathCompile c = true -> mathEvaluate c = Ok v ->
          fst (calculate w a input)
          = [ ("success", JBool true); ("input", JStr input);
              ("expression", JStr c); ("result", v);
              ("operationType", JStr (detectOperationType c));
              ("timestamp", JStr (isoTimestamp w));
              ("agent", JStr agentName) ]
          /\ snd (calculate w a input)
             = remember w input (TextRequest c (detectOperationType c)) v a)
    /\ In (detectOperationType c)
         ["trigonometry"; "logarithm"; "square root"; "exponentiation";
          "arithmetic"].
Proof.
  intros w a input c N.
  assert (T : In (detectOperationType c)
                ["trigonometry"; "logarithm"; "square root"; "exponentiation";
                 "arithmetic"]).
  { unfold detectOperationType.
    repeat match goal with |- context [if ?b then _ else _] => destruct b end;
      cbn; tauto. }
  assert (E : calculate w a input
              = evaluated w a input (TextRequest c (detectOperationType c)) c).
  { apply calculate_text_request.
    - fold c. unfold parseRequest. rewrite N. reflexivity.
    - cbn [In] in T.
      repeat (destruct T as [<-|T]; [reflexivity|]). contradiction. }
  rewrite E. unfold evaluated.
  split; [intros ->; reflexivity|].
  split; [intros m -> ->; reflexivity|].
  split; [|exact T].
  intros v -> ->. split; reflexivity.
Qed.

End Expressions.

(** * Further properties at concrete inputs *)

(** X2 after three requests: the two newest entries, the newest first. *)
Lemma getHistory_after_session_witness :
  let run :=
    session (arith := rational) (host := rationalHost)
      (List.map tick (seq 0 3)) newAgent in
  (2 <= 50)%nat
  /\ getHistory 2 (snd run)
     = firstn 2 (List.rev (List.flat_map entryOf (fst run)))
  /\ List.map (@entryTimestamp Q) (getHistory 2 (snd run)) = ["2"; "1"].
Proof.
  intro run.
  assert (B : (2 <= 50)%nat) by lia.
  split; [exact B|]. split.
  - exact (@getHistory_after_session Q rational rationalHost
             (List.map tick (seq 0 3)) 2 B).
  - vm_compute. reflexivity.
Defined.

(** X6 at the question of the first scenario: [plus] holds the unit [l]. *)
Lemma containsUnitKeywords_of_part_witness :
  Str.includes "what is 15 plus 27" "plus" = true
  /\ containsUnitKeywords (arith := rational) "plus" = true
  /\ containsUnitKeywords (arith := rational) "what is 15 plus 27" = true.
Proof.
  assert (I : Str.includes "what is 15 plus 27" "plus" = true) by reflexivity.
  assert (U : containsUnitKeywords (arith := rational) "plus" = true) by reflexivity.
  split; [exact I|]. split; [exact U|].
  exact (proj1 (@containsUnitKeywords_of_part Q rational _ _ I) U).
Defined.

(** X7 at a request for a mean. *)
Lemma statistics_is_never_reached_witness :
  containsStatsKeywords "mean of 10 20 30" = true
  /\ containsUnitKeywords (arith := rational) "mean of 10 20 30" = true
  /\ (classifyCleaned (arith := rational) "mean of 10 20 30" = Graphing
      \/ classifyCleaned (arith := rational) "mean of 10 20 30" = UnitConversion
      \/ classifyCleaned (arith := rational) "mean of 10 20 30"
         = Literal (detectOperationType "mean of 10 20 30")).
Proof.
  assert (S : containsStatsKeywords "mean of 10 20 30" = true) by reflexivity.
  split; [exact S|].
  exact (@statistics_is_never_reached Q rational "mean of 10 20 30" S).
Defined.

(** X8 at the text of the third scenario. *)
Lemma trigonometry_is_tangent_witness :
  classifyCleaned (arith := rational) "tan 45" = Trigonometry
  /\ Str.includes "tan 45" "tan" = true
  /\ Str.includes "tan 45" "sin" = false
  /\ Str.includes "tan 45" "cos" = false
  /\ Str.includes "tan 45" "tangent" = false
  /\ detectTrigFunction "tan 45" = "tan".
Proof.
  assert (C : classifyCleaned (arith := rational) "tan 45" = Trigonometry)
    by reflexivity.
  split; [exact C|].
  exact (@trigonometry_is_tangent Q rational "tan 45" C).
Defined.

(** X9 at a request in words that holds no unit name. *)
Lemma calculate_extends_first_version_witness :
  containsGraphKeywords (cleanInput "add 5 and 3") = false
  /\ isNaturalLanguage (cleanInput "add 5 and 3")
     && containsUnitKeywords (arith := rational) (cleanInput "add 5 and 3") = false
  /\ fst (calculate (arith := rational) (host := rationalHost) noon newAgent
            "add 5 and 3")
     = calculateV1 (arith := rational) (host := rationalHost) noon "add 5 and 3".
Proof.
  assert (G : containsGraphKeywords (cleanInput "add 5 and 3") = false)
    by reflexivity.
  assert (U : isNaturalLanguage (cleanInput "add 5 and 3")
              && containsUnitKeywords (arith := rational) (cleanInput "add 5 and 3")
              = false) by reflexivity.
  split; [exact G|]. split; [exact U|].
  exact (@calculate_extends_first_version Q rational rationalHost noon
           "add 5 and 3" G U).
Defined.

(** X11 at an agent that holds an answer and a new one. *)
Lemma calculate_reads_last_answer_witness :
  let a := snd (calculate (arith := rational) (host := rationalHost) noon
                  newAgent "2 + 3") in
  lastAnswer a = Some (1 # 1)
  /\ Str.includes (cleanInput "4 * 5") "ans" = false
  /\ fst (calculate (arith := rational) (host := rationalHost) noon a "4 * 5")
     = fst (calculate (arith := rational) (host := rationalHost) noon newAgent
              "4 * 5").
Proof.
  intro a.
  assert (I : Str.includes (cleanInput "4 * 5") "ans" = false) by reflexivity.
  split; [reflexivity|]. split; [exact I|].
  exact (@calculate_reads_last_answer Q rational rationalHost noon a newAgent
           "4 * 5" (or_intror I)).
Defined.

(** X12 at a histogram asked of an agent that holds an answer. *)
Lemma graphing_keeps_last_answer_witness :
  let a := snd (calculate (arith := rational) (host := rationalHost) noon
                  newAgent "2 + 3") in
  let run := calculate (arith := rational) (host := rationalHost) noon a
               "histogram 1 2 3" in
  classifyCleaned (arith := rational)
    (substituteAns (host := rationalHost) a (cleanInput "histogram 1 2 3"))
  = Graphing
  /\ succeeded (fst run) = true
  /\ lastAnswer (snd run) = Some (1 # 1)
  /\ lookup "operationType" (fst run) = Some (JStr "graphing").
Proof.
  intros a run.
  assert (C : classifyCleaned (arith := rational)
                (substituteAns (host := rationalHost) a
                   (cleanInput "histogram 1 2 3"))
              = Graphing) by reflexivity.
  assert (S : succeeded (fst run) = true) by reflexivity.
  destruct (@graphing_keeps_last_answer Q rational rationalHost noon a
              "histogram 1 2 3" C) as [L R].
  split; [exact C|]. split; [exact S|]. split; [exact L|].
  exact (proj1 (R S)).
Defined.


(** X17 at a conversion of kilometres to miles: both units are read as
    [m], the metre of the table of lengths. *)
Lemma extractUnits_with_separator_witness :
  let tokens := tokenize (Str.toLowerCase "convert 5 km to miles") in
  findIndex isSeparator tokens = Some 3%nat
  /\ toUnit (extractUnits (arith := rational) "convert 5 km to miles") = Some "m"
  /\ exists source cat units,
       fromUnit (extractUnits (arith := rational) "convert 5 km to miles")
       = Some source
       /\ category (extractUnits (arith := rational) "convert 5 km to miles")
          = Some cat
       /\ lookup cat (unitConversions (arith := rational)) = Some units
       /\ In source (keys units) /\ In "m" (keys units)
       /\ Str.includes (Str.join " " (firstn 3 tokens)) source = true
       /\ Str.includes (Str.join " " (skipn 4 tokens)) "m" = true.
Proof.
  intro tokens.
  assert (I : findIndex isSeparator tokens = Some 3%nat) by reflexivity.
  assert (T : toUnit (extractUnits (arith := rational) "convert 5 km to miles")
              = Some "m") by reflexivity.
  split; [exact I|]. split; [exact T|].
  exact (proj1 (@extractUnits_with_separator Q rational "convert 5 km to miles" 3 I)
           "m" T).
Defined.

(** X22 at [add 5 and 3]: the expression is [+ 53]. *)
Lemma connector_joins_witness :
  isNumber "5" = true
  /\ arithmeticExpression ["add"; "5"; "and"; "3"]
     = arithmeticExpression ["add"; "5"] ++ arithmeticExpression ["3"]
  /\ arithmeticExpression ["add"; "5"; "and"; "3"] = "+ 53".
Proof.
  assert (A : isNumber "5" = true) by reflexivity.
  split; [exact A|]. split.
  - exact (proj1 (@connector_joins ["add"] "5" "and" ["3"] A (or_introl eq_refl))).
  - reflexivity.
Defined.

(** X18 at five kilometres to miles, written with the short names. *)
Lemma parseUnitConversion_with_separator_witness :
  findIndex isSeparator (tokenize (Str.toLowerCase "5 km to mi")) = Some 2%nat
  /\ (parseUnitConversion (arith := rational) (host := rationalHost) "5 km to mi"
      = Throw "No number found for unit conversion"
      \/ parseUnitConversion (arith := rational) (host := rationalHost) "5 km to mi"
         = Throw "Could not identify source and target units"
      \/ exists value others source target cat units converted,
           extractNumbers (arith := rational) "5 km to mi" = value :: others
           /\ lookup cat (unitConversions (arith := rational)) = Some units
           /\ In source (keys units) /\ In target (keys units)
           /\ convertUnit (arith := rational) value source target (Some cat)
              = Ok converted
           /\ parseUnitConversion (arith := rational) (host := rationalHost)
                "5 km to mi"
              = Ok {| expression :=
                        showQ value ++ " " ++ source ++ " to " ++ target;
                      operationType := "unit conversion";
                      parsedResult := Some converted;
                      parsedUnits := extractUnits (arith := rational) "5 km to mi" |}).
Proof.
  assert (I : findIndex isSeparator (tokenize (Str.toLowerCase "5 km to mi"))
              = Some 2%nat) by reflexivity.
  split; [exact I|].
  exact (@parseUnitConversion_with_separator rationalHost "5 km to mi" 2 I).
Defined.

(** X23 at [2 + 3] on the host that answers 1. *)
Lemma literal_is_evaluated_witness :
  let run := calculate (arith := rational) (host := rationalHost) noon newAgent
               "2 + 3" in
  isNaturalLanguage (substituteAns (host := rationalHost) newAgent (cleanInput "2 + 3"))
  = false
  /\ lookup "expression" (fst run) = Some (JStr "2 + 3")
  /\ lookup "result" (fst run) = Some (JNum (1 # 1))
  /\ lookup "operationType" (fst run) = Some (JStr "arithmetic")
  /\ lastAnswer (snd run) = Some (1 # 1).
Proof.
  intro run.
  assert (N : isNaturalLanguage
                (substituteAns (host := rationalHost) newAgent (cleanInput "2 + 3"))
              = false) by reflexivity.
  destruct (@literal_is_evaluated Q rational rationalHost noon newAgent "2 + 3" N)
    as (_ & _ & V & _).
  destruct (V (JNum (1 # 1)) eq_refl eq_refl) as [P A].
  split; [exact N|].
  unfold run. rewrite P, A. repeat split.
Defined.

